(** * The multi-threaded physics task scheduler of OpenMW

    A shallow embedding of [apps/openmw/mwphysics/mtphysics.cpp]: the
    step-count/size calculator, the frame submission, the reset, the
    collision-world accessors with their locking discipline, the
    line-of-sight cache, falls and landing, the deferred bounding-box
    updates and the end of a simulation step.

    Conventions of the embedding:
    - C++ [float] and [double] values are rationals [Q].  The module
      [Rounded] has the step configuration and the frame submission
      with the rounding of every operation written out, and settles
      what depends on rounding; the definitions outside it compute
      exactly, and carry the properties that rounding leaves as they
      are.  Infinities, NaN and subnormal numbers are outside the
      model;
    - C++ [int] values are [Z]; the conversion [int n = f] of a float
      truncates toward zero (a quotient beyond the range of [int], and
      a division by a zero step duration, do not occur for the step
      durations and frame times of a running engine and are outside the
      model; [Q] gives [x / 0 = 0]);
    - mutexes, calls into the collision world, calls on actor objects and
      log output are recorded as events of a trace, in program order;
    - a [std::shared_ptr<Actor>] is the raw address together with the
      object it keeps alive; a [std::weak_ptr<Actor>] is the raw address
      alone, and [lock()] looks it up among the live actors. *)

From Stdlib Require Import ZArith QArith Qround Qabs Qpower Lia Lqa Sorted.
From stdpp Require Import base list gmap strings.

Open Scope Z_scope.

(** ** Numbers *)

(** [a < b] on floats, as a boolean. *)
Definition Qltb (a b : Q) : bool := negb (Qle_bool b a).

(** [std::max(a, b)]: [(a < b) ? b : a]. *)
Definition std_max (a b : Q) : Q := if Qltb a b then b else a.

(** Conversion of a float to [int]: truncation toward zero. *)
Definition float_to_int (x : Q) : Z := Z.quot (Qnum x) (Z.pos (Qden x)).

(** ** Data model *)

Definition Vec3 : Type := Q * Q * Q.

Definition Vec3_add (a b : Vec3) : Vec3 :=
  (a.1.1 + b.1.1, a.1.2 + b.1.2, a.2 + b.2)%Q.

(** Raw address of an [Actor] object. *)
Abbreviation ActorPtr := positive.

(** What this file reads of an [Actor] (actor.hpp). *)
Record Actor := {
  getCollisionObjectPosition : Vec3;
  getHalfExtents : Vec3
}.

Record shared_ptr := {
  get : ActorPtr;
  pointee : Actor
}.

(** What this file reads and writes of an [ActorFrameData]
    (physicssystem.hpp). *)
Module ActorFrameData.
Record t := {
  mPosition : Vec3;
  mOldHeight : Q;
  mSwimLevel : Q;
  mSlowFall : Q;
  mFallHeight : Q;
  mFlying : bool;
  mWasOnGround : bool;
  mIsOnGround : bool;
  mNeedLand : bool
}.
End ActorFrameData.

Definition isUnderWater (actorData : ActorFrameData.t) : bool :=
  Qltb (ActorFrameData.mPosition actorData).2 (ActorFrameData.mSwimLevel actorData).

Definition handleFall (actorData : ActorFrameData.t) (simulationPerformed : bool)
  : ActorFrameData.t :=
  let heightDiff :=
    ((ActorFrameData.mPosition actorData).2 - ActorFrameData.mOldHeight actorData)%Q in
  let isStillOnGround :=
    simulationPerformed && ActorFrameData.mWasOnGround actorData
    && ActorFrameData.mIsOnGround actorData in
  let needLand :=
    isStillOnGround || ActorFrameData.mFlying actorData || isUnderWater actorData
    || Qltb (ActorFrameData.mSlowFall actorData) 1 in
  {| ActorFrameData.mPosition := ActorFrameData.mPosition actorData;
     ActorFrameData.mOldHeight := ActorFrameData.mOldHeight actorData;
     ActorFrameData.mSwimLevel := ActorFrameData.mSwimLevel actorData;
     ActorFrameData.mSlowFall := ActorFrameData.mSlowFall actorData;
     ActorFrameData.mFallHeight :=
       if negb needLand && Qltb heightDiff 0
       then (ActorFrameData.mFallHeight actorData + heightDiff)%Q
       else ActorFrameData.mFallHeight actorData;
     ActorFrameData.mFlying := ActorFrameData.mFlying actorData;
     ActorFrameData.mWasOnGround := ActorFrameData.mWasOnGround actorData;
     ActorFrameData.mIsOnGround := ActorFrameData.mIsOnGround actorData;
     ActorFrameData.mNeedLand :=
       if needLand then true else ActorFrameData.mNeedLand actorData |}.

(** Modelled from the spec: the budget class (declared outside this
    file) is "a rolling measurement of wall-clock cost per simulation
    step" with [get()] "current smoothed estimate" and
    [reset(initialValue)]; the estimate right after construction or a
    reset is the initial value.  Its [update] is a parameter of the
    frame submission below. *)
Module BudgetMeasurement.
Record t := {
  estimate : Q
}.

Definition get (b : t) : Q := estimate b.

Definition reset (initialValue : Q) (_ : t) : t :=
  {| estimate := initialValue |}.
End BudgetMeasurement.

(** A line-of-sight request: two weak actor references, their raw
    addresses, the cached result, the stale mark and the age. *)
Module LOSRequest.
Record t := {
  mActors : ActorPtr * ActorPtr;
  mResult : bool;
  mStale : bool;
  mAge : Z
}.
End LOSRequest.

(** Modelled from the spec: the constructor and the equality of
    [LOSRequest] are declared outside this file; the spec has requests
    looked up "by unordered actor pair", so the constructor stores the
    two addresses in ascending order and equality compares the stored
    pairs.  A new request is not stale, has age 0 and result false. *)
Definition LOSRequest_new (a1 a2 : shared_ptr) : LOSRequest.t :=
  {| LOSRequest.mActors :=
       if (get a1 <? get a2)%positive then (get a1, get a2) else (get a2, get a1);
     LOSRequest.mResult := false;
     LOSRequest.mStale := false;
     LOSRequest.mAge := 0 |}.

Definition LOSRequest_eq (lhs rhs : LOSRequest.t) : Prop :=
  LOSRequest.mActors lhs = LOSRequest.mActors rhs.

#[global] Instance LOSRequest_eq_dec (lhs rhs : LOSRequest.t) : Decision (LOSRequest_eq lhs rhs).
Proof. unfold LOSRequest_eq. apply _. Defined.

(** The scheduler's fields. *)
Record PhysicsTaskScheduler := {
  mDefaultPhysicsDt : Q;
  mPhysicsDt : Q;
  mTimeAccum : Q;
  mActors : list shared_ptr;
  mActorsFrameData : list ActorFrameData.t;
  mCollisionObjects : gset positive;
  mThreadSafeBullet : bool;
  mNumThreads : Z;
  mNumJobs : Z;
  mRemainingSteps : Z;
  mLOSCacheExpiry : Z;
  mNewFrame : bool;
  mAdvanceSimulation : bool;
  mNextJob : Z;
  mNextLOS : Z;
  mLOSCache : list LOSRequest.t;
  mPrevStepCount : Z;
  mBudget : BudgetMeasurement.t;
  mAsyncBudget : BudgetMeasurement.t;
  mBudgetCursor : Z
}.

(** ** The step-count/size calculator *)

(** Lines 178-180: the measured cost per step, in units of the target
    step duration. *)
Definition budgetRatio (s : PhysicsTaskScheduler) : Q :=
  (std_max (BudgetMeasurement.get (mBudget s)) (BudgetMeasurement.get (mAsyncBudget s))
   / mDefaultPhysicsDt s)%Q.

(** Line 182: the measurement with its sane minimum. *)
Definition budgetMeasurement (s : PhysicsTaskScheduler) : Q :=
  std_max (1 # 100000) (budgetRatio s).

(** Lines 166 and 184-188: the step allowance before the final clamp. *)
Definition stepAllowance (s : PhysicsTaskScheduler) : Z :=
  let maxAllowedSteps := 2 in
  let maxAllowedSteps :=
    if Qltb (95 # 100) (budgetMeasurement s) then 1 else maxAllowedSteps in
  let maxAllowedSteps :=
    if Qltb (budgetMeasurement s) (1 # 2) then Qceiling (1 / budgetMeasurement s)
    else maxAllowedSteps in
  maxAllowedSteps.

(** Line 190. *)
Definition maxAllowedSteps (s : PhysicsTaskScheduler) : Z :=
  Z.min 10 (stepAllowance s).

Definition calculateStepConfig (s : PhysicsTaskScheduler) (timeAccum : Q) : Z * Q :=
  let numSteps := float_to_int (timeAccum / mDefaultPhysicsDt s) in
  let maxAllowedSteps := maxAllowedSteps s in
  let actualDelta := mDefaultPhysicsDt s in
  if numSteps >? maxAllowedSteps then
    let numSteps := maxAllowedSteps in
    let actualDelta := (timeAccum / inject_Z (numSteps + 1))%Q in
    let actualDelta := std_max actualDelta (mDefaultPhysicsDt s) in
    (numSteps, actualDelta)
  else
    (numSteps, actualDelta).

(** Assignments to single fields. *)

Definition set_mLOSCache (v : list LOSRequest.t) (s : PhysicsTaskScheduler)
  : PhysicsTaskScheduler :=
  {| mDefaultPhysicsDt := mDefaultPhysicsDt s; mPhysicsDt := mPhysicsDt s;
     mTimeAccum := mTimeAccum s; mActors := mActors s;
     mActorsFrameData := mActorsFrameData s; mCollisionObjects := mCollisionObjects s;
     mThreadSafeBullet := mThreadSafeBullet s; mNumThreads := mNumThreads s;
     mNumJobs := mNumJobs s; mRemainingSteps := mRemainingSteps s;
     mLOSCacheExpiry := mLOSCacheExpiry s; mNewFrame := mNewFrame s;
     mAdvanceSimulation := mAdvanceSimulation s; mNextJob := mNextJob s;
     mNextLOS := mNextLOS s; mLOSCache := v; mPrevStepCount := mPrevStepCount s;
     mBudget := mBudget s; mAsyncBudget := mAsyncBudget s;
     mBudgetCursor := mBudgetCursor s |}.

Definition set_mNextLOS (v : Z) (s : PhysicsTaskScheduler)
  : PhysicsTaskScheduler :=
  {| mDefaultPhysicsDt := mDefaultPhysicsDt s; mPhysicsDt := mPhysicsDt s;
     mTimeAccum := mTimeAccum s; mActors := mActors s;
     mActorsFrameData := mActorsFrameData s; mCollisionObjects := mCollisionObjects s;
     mThreadSafeBullet := mThreadSafeBullet s; mNumThreads := mNumThreads s;
     mNumJobs := mNumJobs s; mRemainingSteps := mRemainingSteps s;
     mLOSCacheExpiry := mLOSCacheExpiry s; mNewFrame := mNewFrame s;
     mAdvanceSimulation := mAdvanceSimulation s; mNextJob := mNextJob s; mNextLOS := v;
     mLOSCache := mLOSCache s; mPrevStepCount := mPrevStepCount s; mBudget := mBudget s;
     mAsyncBudget := mAsyncBudget s; mBudgetCursor := mBudgetCursor s |}.

Definition set_mNewFrame (v : bool) (s : PhysicsTaskScheduler)
  : PhysicsTaskScheduler :=
  {| mDefaultPhysicsDt := mDefaultPhysicsDt s; mPhysicsDt := mPhysicsDt s;
     mTimeAccum := mTimeAccum s; mActors := mActors s;
     mActorsFrameData := mActorsFrameData s; mCollisionObjects := mCollisionObjects s;
     mThreadSafeBullet := mThreadSafeBullet s; mNumThreads := mNumThreads s;
     mNumJobs := mNumJobs s; mRemainingSteps := mRemainingSteps s;
     mLOSCacheExpiry := mLOSCacheExpiry s; mNewFrame := v;
     mAdvanceSimulation := mAdvanceSimulation s; mNextJob := mNextJob s;
     mNextLOS := mNextLOS s; mLOSCache := mLOSCache s;
     mPrevStepCount := mPrevStepCount s; mBudget := mBudget s;
     mAsyncBudget := mAsyncBudget s; mBudgetCursor := mBudgetCursor s |}.

Definition set_mCollisionObjects (v : gset positive) (s : PhysicsTaskScheduler)
  : PhysicsTaskScheduler :=
  {| mDefaultPhysicsDt := mDefaultPhysicsDt s; mPhysicsDt := mPhysicsDt s;
     mTimeAccum := mTimeAccum s; mActors := mActors s;
     mActorsFrameData := mActorsFrameData s; mCollisionObjects := v;
     mThreadSafeBullet := mThreadSafeBullet s; mNumThreads := mNumThreads s;
     mNumJobs := mNumJobs s; mRemainingSteps := mRemainingSteps s;
     mLOSCacheExpiry := mLOSCacheExpiry s; mNewFrame := mNewFrame s;
     mAdvanceSimulation := mAdvanceSimulation s; mNextJob := mNextJob s;
     mNextLOS := mNextLOS s; mLOSCache := mLOSCache s;
     mPrevStepCount := mPrevStepCount s; mBudget := mBudget s;
     mAsyncBudget := mAsyncBudget s; mBudgetCursor := mBudgetCursor s |}.

Definition set_mBudget (v : BudgetMeasurement.t) (s : PhysicsTaskScheduler)
  : PhysicsTaskScheduler :=
  {| mDefaultPhysicsDt := mDefaultPhysicsDt s; mPhysicsDt := mPhysicsDt s;
     mTimeAccum := mTimeAccum s; mActors := mActors s;
     mActorsFrameData := mActorsFrameData s; mCollisionObjects := mCollisionObjects s;
     mThreadSafeBullet := mThreadSafeBullet s; mNumThreads := mNumThreads s;
     mNumJobs := mNumJobs s; mRemainingSteps := mRemainingSteps s;
     mLOSCacheExpiry := mLOSCacheExpiry s; mNewFrame := mNewFrame s;
     mAdvanceSimulation := mAdvanceSimulation s; mNextJob := mNextJob s;
     mNextLOS := mNextLOS s; mLOSCache := mLOSCache s;
     mPrevStepCount := mPrevStepCount s; mBudget := v; mAsyncBudget := mAsyncBudget s;
     mBudgetCursor := mBudgetCursor s |}.

Definition set_mAsyncBudget (v : BudgetMeasurement.t) (s : PhysicsTaskScheduler)
  : PhysicsTaskScheduler :=
  {| mDefaultPhysicsDt := mDefaultPhysicsDt s; mPhysicsDt := mPhysicsDt s;
     mTimeAccum := mTimeAccum s; mActors := mActors s;
     mActorsFrameData := mActorsFrameData s; mCollisionObjects := mCollisionObjects s;
     mThreadSafeBullet := mThreadSafeBullet s; mNumThreads := mNumThreads s;
     mNumJobs := mNumJobs s; mRemainingSteps := mRemainingSteps s;
     mLOSCacheExpiry := mLOSCacheExpiry s; mNewFrame := mNewFrame s;
     mAdvanceSimulation := mAdvanceSimulation s; mNextJob := mNextJob s;
     mNextLOS := mNextLOS s; mLOSCache := mLOSCache s;
     mPrevStepCount := mPrevStepCount s; mBudget := mBudget s; mAsyncBudget := v;
     mBudgetCursor := mBudgetCursor s |}.

Definition set_mActors (v : list shared_ptr) (s : PhysicsTaskScheduler)
  : PhysicsTaskScheduler :=
  {| mDefaultPhysicsDt := mDefaultPhysicsDt s; mPhysicsDt := mPhysicsDt s;
     mTimeAccum := mTimeAccum s; mActors := v; mActorsFrameData := mActorsFrameData s;
     mCollisionObjects := mCollisionObjects s; mThreadSafeBullet := mThreadSafeBullet s;
     mNumThreads := mNumThreads s; mNumJobs := mNumJobs s;
     mRemainingSteps := mRemainingSteps s; mLOSCacheExpiry := mLOSCacheExpiry s;
     mNewFrame := mNewFrame s; mAdvanceSimulation := mAdvanceSimulation s;
     mNextJob := mNextJob s; mNextLOS := mNextLOS s; mLOSCache := mLOSCache s;
     mPrevStepCount := mPrevStepCount s; mBudget := mBudget s;
     mAsyncBudget := mAsyncBudget s; mBudgetCursor := mBudgetCursor s |}.

Definition set_mActorsFrameData (v : list ActorFrameData.t) (s : PhysicsTaskScheduler)
  : PhysicsTaskScheduler :=
  {| mDefaultPhysicsDt := mDefaultPhysicsDt s; mPhysicsDt := mPhysicsDt s;
     mTimeAccum := mTimeAccum s; mActors := mActors s; mActorsFrameData := v;
     mCollisionObjects := mCollisionObjects s; mThreadSafeBullet := mThreadSafeBullet s;
     mNumThreads := mNumThreads s; mNumJobs := mNumJobs s;
     mRemainingSteps := mRemainingSteps s; mLOSCacheExpiry := mLOSCacheExpiry s;
     mNewFrame := mNewFrame s; mAdvanceSimulation := mAdvanceSimulation s;
     mNextJob := mNextJob s; mNextLOS := mNextLOS s; mLOSCache := mLOSCache s;
     mPrevStepCount := mPrevStepCount s; mBudget := mBudget s;
     mAsyncBudget := mAsyncBudget s; mBudgetCursor := mBudgetCursor s |}.

Definition set_mAge (v : Z) (r : LOSRequest.t) : LOSRequest.t :=
  {| LOSRequest.mActors := LOSRequest.mActors r; LOSRequest.mResult := LOSRequest.mResult r;
     LOSRequest.mStale := LOSRequest.mStale r; LOSRequest.mAge := v |}.

Definition set_mStale (v : bool) (r : LOSRequest.t) : LOSRequest.t :=
  {| LOSRequest.mActors := LOSRequest.mActors r; LOSRequest.mResult := LOSRequest.mResult r;
     LOSRequest.mStale := v; LOSRequest.mAge := LOSRequest.mAge r |}.

Definition set_mResult (v : bool) (r : LOSRequest.t) : LOSRequest.t :=
  {| LOSRequest.mActors := LOSRequest.mActors r; LOSRequest.mResult := v;
     LOSRequest.mStale := LOSRequest.mStale r; LOSRequest.mAge := LOSRequest.mAge r |}.

(** ** Events and the scheduler monad *)

Inductive Mutex :=
  | mSimulationMutex
  | mCollisionWorldMutex
  | mLOSCacheMutex
  | mUpdateAabbMutex.

Inductive LockKind := Shared | Exclusive.

(** Calls into the collision world and its objects. *)
Inductive WorldCall :=
  | call_rayTest
  | call_convexSweepTest
  | call_contactTest
  | call_rayTestSingle
  | call_aabbTest
  | call_getAabb
  | call_setCollisionFilterMask
  | call_addCollisionObject
  | call_removeCollisionObject
  | call_updateSingleAabb
  | call_debugDrawStep.

(** Calls on the objects behind actor and holder pointers. *)
Inductive ObjectCall :=
  | call_updateMechanics
  | call_updateActor
  | call_updatePosition
  | call_updateCollisionObjectPosition
  | call_commitPositionChange
  | call_frameDataUpdatePosition.

Inductive Event :=
  | Acquire (m : Mutex) (k : LockKind)
  | Release (m : Mutex) (k : LockKind)
  | World (c : WorldCall)
  | OnObject (p : positive) (c : ObjectCall)
  | LogWarning (msg : string).

#[global] Instance Mutex_eq_dec : EqDecision Mutex.
Proof. solve_decision. Defined.

#[global] Instance LockKind_eq_dec : EqDecision LockKind.
Proof. solve_decision. Defined.

#[global] Instance WorldCall_eq_dec : EqDecision WorldCall.
Proof. solve_decision. Defined.

(** A method of the scheduler: from the fields before the call to the
    result, the fields after the call and the events of the call. *)
Definition M (A : Type) : Type :=
  PhysicsTaskScheduler -> A * PhysicsTaskScheduler * list Event.

Definition ret {A : Type} (a : A) : M A := fun s => (a, s, []).

Definition bind {A B : Type} (m : M A) (k : A -> M B) : M B :=
  fun s =>
    let r1 := m s in
    let r2 := k r1.1.1 r1.1.2 in
    (r2.1.1, r2.1.2, r1.2 ++ r2.2).

Definition this : M PhysicsTaskScheduler := fun s => (s, s, []).

Definition assign (f : PhysicsTaskScheduler -> PhysicsTaskScheduler) : M unit :=
  fun s => (tt, f s, []).

Definition emit (e : Event) : M unit := fun s => (tt, s, [e]).

Declare Scope sched_scope.
Delimit Scope sched_scope with sched.
Bind Scope sched_scope with M.

Notation "x <- m ;; k" := (bind m (fun x => k))
  (at level 20, m at level 99, k at level 200, only parsing) : sched_scope.
Notation "m ;; k" := (bind m (fun _ => k))
  (at level 100, k at level 200, right associativity, only parsing) : sched_scope.

Open Scope sched_scope.

Fixpoint forEach {A : Type} (l : list A) (body : A -> M unit) : M unit :=
  match l with
  | [] => ret tt
  | x :: l' => body x ;; forEach l' body
  end.

(** A scoped lock: acquired on entry, released when the scope ends. *)
Definition scoped {A : Type} (m : Mutex) (k : LockKind) (body : M A) : M A :=
  emit (Acquire m k) ;;
  r <- body ;;
  emit (Release m k) ;;
  ret r.

Definition unique_lock {A : Type} (m : Mutex) (body : M A) : M A := scoped m Exclusive body.

Definition shared_lock {A : Type} (m : Mutex) (body : M A) : M A := scoped m Shared body.

(** [MaybeSharedLock]: shared when [canBeSharedLock], exclusive otherwise. *)
Definition MaybeSharedLock {A : Type} (m : Mutex) (canBeSharedLock : bool) (body : M A) : M A :=
  if canBeSharedLock then scoped m Shared body else scoped m Exclusive body.

(** The events of a call, and the kinds of lock it takes on a mutex. *)
Definition trace {A : Type} (r : A * PhysicsTaskScheduler * list Event) : list Event := r.2.

Definition result {A : Type} (r : A * PhysicsTaskScheduler * list Event) : A := r.1.1.

Definition after {A : Type} (r : A * PhysicsTaskScheduler * list Event) : PhysicsTaskScheduler :=
  r.1.2.

Fixpoint locksOn (m : Mutex) (tr : list Event) : list LockKind :=
  match tr with
  | [] => []
  | Acquire m' k :: tr' => if decide (m' = m) then k :: locksOn m tr' else locksOn m tr'
  | _ :: tr' => locksOn m tr'
  end.

Fixpoint countCalls (c : WorldCall) (tr : list Event) : nat :=
  match tr with
  | [] => O
  | World c' :: tr' => if decide (c' = c) then S (countCalls c tr') else countCalls c tr'
  | _ :: tr' => countCalls c tr'
  end.

(** The kinds of lock a call takes on the collision-world mutex. *)
Definition worldLocks {A : Type} (r : A * PhysicsTaskScheduler * list Event) : list LockKind :=
  locksOn mCollisionWorldMutex (trace r).

(** ** Configuration *)

Module Config.

Definition multithreadingWarning : string :=
  "Bullet was not compiled with multithreading support, 1 async thread will be used".

(** [computeNumThreads]: [wantedThread] is the setting "async num
    threads" of "Physics", [maxSupportedThreads] the number of ray-test
    stacks of a fresh broadphase.  Returns the flag written to
    [threadSafeBullet], the thread count and the log output. *)
Definition computeNumThreads (getInt : string -> string -> Z) (maxSupportedThreads : Z)
  : bool * Z * list Event :=
  let wantedThread := getInt "async num threads"%string "Physics"%string in
  let threadSafeBullet := maxSupportedThreads >? 1 in
  if negb threadSafeBullet && (wantedThread >? 1) then
    (threadSafeBullet, 1, [LogWarning multithreadingWarning])
  else
    (threadSafeBullet, Z.max 0 wantedThread, []).

End Config.

(** The constructor: the fields after construction and the log output
    (worker threads, barriers and timers are not part of the model). *)
Definition PhysicsTaskScheduler_new (getInt : string -> string -> Z) (maxSupportedThreads : Z)
    (physicsDt : Q) : PhysicsTaskScheduler * list Event :=
  let c := Config.computeNumThreads getInt maxSupportedThreads in
  let numThreads := c.1.2 in
  let expiry := getInt "lineofsight keep inactive cache"%string "Physics"%string in
  ({| mDefaultPhysicsDt := physicsDt;
      mPhysicsDt := physicsDt;
      mTimeAccum := 0;
      mActors := [];
      mActorsFrameData := [];
      mCollisionObjects := ∅;
      mThreadSafeBullet := c.1.1;
      mNumThreads := numThreads;
      mNumJobs := 0;
      mRemainingSteps := 0;
      mLOSCacheExpiry := if numThreads >=? 1 then expiry else 0;
      mNewFrame := false;
      mAdvanceSimulation := false;
      mNextJob := 0;
      mNextLOS := 0;
      mLOSCache := [];
      mPrevStepCount := 1;
      mBudget := {| BudgetMeasurement.estimate := physicsDt |};
      mAsyncBudget := {| BudgetMeasurement.estimate := 0 |};
      mBudgetCursor := 0 |}, c.2).

(** ** The collision world seen from the scheduler *)

Inductive CollisionType :=
  | CollisionType_World
  | CollisionType_Door
  | CollisionType_Actor
  | CollisionType_HeightMap
  | CollisionType_Projectile
  | CollisionType_Water.

(** A closest-hit ray callback: the ray, the filter group and the filter
    mask (the categories or-ed together in the source). *)
Record ClosestRayResultCallback := {
  m_rayFromWorld : Vec3;
  m_rayToWorld : Vec3;
  m_collisionFilterGroup : Z;
  m_collisionFilterMask : list CollisionType
}.

(** The collision world is an external collaborator; the scheduler
    observes it through the outcome of its queries: whether a closest-hit
    ray test hits, and where the ray to a single object hits it. *)
Record btCollisionWorld := {
  hasHit : ClosestRayResultCallback -> bool;
  m_hitPointWorld : Vec3 -> positive -> option Vec3
}.

(** The surroundings of a call: the collision world and the actors
    that are alive, by address ([weak_ptr::lock]). *)
Record Env := {
  mCollisionWorld : btCollisionWorld;
  liveActors : gmap ActorPtr Actor
}.

(** ** Frame submission *)

(** What follows the preparation of a batch. *)
Inductive HandOver := RunOnCallingThread | WakeWorkers.

Section FrameSubmission.

(** [update] of the budget class, declared outside this file. *)
Variable Budget_update : Q -> Z -> Z -> BudgetMeasurement.t -> BudgetMeasurement.t.

(** Lines 221-231 of [applyQueuedMovements]: the results of the
    previous background computation are applied; [asyncSeconds] is
    the timer reading [delta_s(mAsyncStartTime, mTimeEnd)]. *)
Definition finishPreviousFrame (asyncSeconds : Q) : M unit :=
  s <- this ;;
  if negb (mNumThreads s =? 0) then
    forEach (mActors s) (fun actor =>
      emit (OnObject (get actor) call_updateMechanics) ;;
      emit (OnObject (get actor) call_updateActor)) ;;
    if mAdvanceSimulation s then
      assign (fun s => set_mAsyncBudget
        (Budget_update asyncSeconds (mPrevStepCount s) (mBudgetCursor s) (mAsyncBudget s)) s)
    else ret tt
  else ret tt.

(** [applyQueuedMovements], lines 215-257: the previous background
    results are finished, the step configuration is computed, the
    leftover is written back through [timeAccum] and the batch is
    stored ([actors] and [actorsData] have the same length, which the
    source asserts; the frame data are not looked into, the update of
    their position is an event).  The simulation mutex is held on return.  The result is
    the new value of [timeAccum] and the branch taken at line 259; the
    hand-over itself (running the batch or waking the workers, and the
    budget update from the timer) and the statistics are not part of
    this definition. *)
Definition applyQueuedMovements (timeAccum : Q) (actors : list shared_ptr)
    (actorsData : list ActorFrameData.t) (asyncSeconds : Q) : M (Q * HandOver) :=
  emit (Acquire mSimulationMutex Exclusive) ;;
  finishPreviousFrame asyncSeconds ;;
  s <- this ;;
  let c := calculateStepConfig s timeAccum in
  let numSteps := c.1 in
  let newDelta := c.2 in
  let timeAccum := (timeAccum - inject_Z numSteps * newDelta)%Q in
  forEach actors (fun actor => emit (OnObject (get actor) call_frameDataUpdatePosition)) ;;
  let advance := negb (numSteps =? 0) in
  assign (fun s =>
    {| mDefaultPhysicsDt := mDefaultPhysicsDt s;
       mPhysicsDt := newDelta;
       mTimeAccum := timeAccum;
       mActors := actors;
       mActorsFrameData := actorsData;
       mCollisionObjects := mCollisionObjects s;
       mThreadSafeBullet := mThreadSafeBullet s;
       mNumThreads := mNumThreads s;
       mNumJobs := Z.of_nat (length actorsData);
       mRemainingSteps := numSteps;
       mLOSCacheExpiry := mLOSCacheExpiry s;
       mNewFrame := true;
       mAdvanceSimulation := advance;
       mNextJob := 0;
       mNextLOS := 0;
       mLOSCache := mLOSCache s;
       mPrevStepCount := numSteps;
       mBudget := mBudget s;
       mAsyncBudget := mAsyncBudget s;
       mBudgetCursor := if advance then mBudgetCursor s + 1 else mBudgetCursor s |}) ;;
  s <- this ;;
  ret (timeAccum, if mNumThreads s =? 0 then RunOnCallingThread else WakeWorkers).

End FrameSubmission.

(** [resetSimulation]: [actors] are the values of the actor map, in
    iteration order. *)
Definition resetSimulation (actors : list shared_ptr) : M unit :=
  unique_lock mSimulationMutex (
    assign (fun s => set_mBudget (BudgetMeasurement.reset (mDefaultPhysicsDt s) (mBudget s)) s) ;;
    assign (fun s => set_mAsyncBudget (BudgetMeasurement.reset 0 (mAsyncBudget s)) s) ;;
    assign (set_mActors []) ;;
    assign (set_mActorsFrameData []) ;;
    forEach actors (fun actor =>
      emit (OnObject (get actor) call_updatePosition) ;;
      emit (OnObject (get actor) call_updateCollisionObjectPosition))).

(** ** Collision-world accessors *)

Definition rayTest (rayFromWorld rayToWorld : Vec3) : M unit :=
  s <- this ;;
  MaybeSharedLock mCollisionWorldMutex (mThreadSafeBullet s) (emit (World call_rayTest)).

Definition convexSweepTest (castShape : positive) (from to : Vec3) : M unit :=
  s <- this ;;
  MaybeSharedLock mCollisionWorldMutex (mThreadSafeBullet s) (emit (World call_convexSweepTest)).

Definition contactTest (colObj : positive) : M unit :=
  shared_lock mCollisionWorldMutex (emit (World call_contactTest)).

Definition getHitPoint (w : btCollisionWorld) (from : Vec3) (target : positive)
  : M (option Vec3) :=
  s <- this ;;
  MaybeSharedLock mCollisionWorldMutex (mThreadSafeBullet s) (
    emit (World call_rayTestSingle) ;;
    ret (m_hitPointWorld w from target)).

Definition aabbTest (aabbMin aabbMax : Vec3) : M unit :=
  shared_lock mCollisionWorldMutex (emit (World call_aabbTest)).

Definition getAabb (obj : positive) : M unit :=
  shared_lock mCollisionWorldMutex (emit (World call_getAabb)).

Definition setCollisionFilterMask (collisionObject : positive) (collisionFilterMask : Z)
  : M unit :=
  unique_lock mCollisionWorldMutex (emit (World call_setCollisionFilterMask)).

Definition addCollisionObject (collisionObject : positive)
    (collisionFilterGroup collisionFilterMask : Z) : M unit :=
  assign (fun s => set_mCollisionObjects ({[collisionObject]} ∪ mCollisionObjects s) s) ;;
  unique_lock mCollisionWorldMutex (emit (World call_addCollisionObject)).

Definition removeCollisionObject (collisionObject : positive) : M unit :=
  assign (fun s => set_mCollisionObjects (mCollisionObjects s ∖ {[collisionObject]}) s) ;;
  unique_lock mCollisionWorldMutex (emit (World call_removeCollisionObject)).

(** What a [PtrHolder] pointer casts to in [updatePtrAabb]. *)
Inductive PtrHolderKind := HoldsActor | HoldsObject | HoldsProjectile | HoldsOther.

Definition updatePtrAabb (ptr : positive) (kind : PtrHolderKind) : M unit :=
  unique_lock mCollisionWorldMutex (
    match kind with
    | HoldsActor =>
        emit (OnObject ptr call_updateCollisionObjectPosition) ;;
        emit (World call_updateSingleAabb)
    | HoldsObject | HoldsProjectile =>
        emit (OnObject ptr call_commitPositionChange) ;;
        emit (World call_updateSingleAabb)
    | HoldsOther => ret tt
    end).

Definition debugDraw : M unit :=
  shared_lock mCollisionWorldMutex (emit (World call_debugDrawStep)).

(** ** The line-of-sight cache *)

(** Lines 500-505 of [hasLineOfSight]: the ray between the two eye
    levels, filtered to world, terrain and doors. *)
Definition lineOfSightRay (actor1 actor2 : Actor) : ClosestRayResultCallback :=
  let pos1 := Vec3_add (getCollisionObjectPosition actor1)
                       (0, 0, (getHalfExtents actor1).2 * (9 # 10))%Q in
  let pos2 := Vec3_add (getCollisionObjectPosition actor2)
                       (0, 0, (getHalfExtents actor2).2 * (9 # 10))%Q in
  {| m_rayFromWorld := pos1;
     m_rayToWorld := pos2;
     m_collisionFilterGroup := 255;
     m_collisionFilterMask :=
       [CollisionType_World; CollisionType_HeightMap; CollisionType_Door] |}.

Definition hasLineOfSight (w : btCollisionWorld) (actor1 actor2 : Actor) : M bool :=
  let resultCallback := lineOfSightRay actor1 actor2 in
  s <- this ;;
  MaybeSharedLock mCollisionWorldMutex (mThreadSafeBullet s) (
    emit (World call_rayTest) ;;
    ret (negb (hasHit w resultCallback))).

Definition getLineOfSight (w : btCollisionWorld) (actor1 actor2 : shared_ptr) : M bool :=
  unique_lock mLOSCacheMutex (
    let req := LOSRequest_new actor1 actor2 in
    s <- this ;;
    match list_find (fun e => LOSRequest_eq e req) (mLOSCache s) with
    | None =>
        r <- hasLineOfSight w (pointee actor1) (pointee actor2) ;;
        let req := set_mResult r req in
        assign (fun s => set_mLOSCache (mLOSCache s ++ [req]) s) ;;
        ret (LOSRequest.mResult req)
    | Some (i, result) =>
        assign (fun s => set_mLOSCache (<[i := set_mAge 0 result]> (mLOSCache s)) s) ;;
        ret (LOSRequest.mResult result)
    end).

(** The body of the loop of [refreshLOSCache] for [mLOSCache[job]]. *)
Definition refreshRequest (env : Env) (job : Z) : M unit :=
  s <- this ;;
  match mLOSCache s !! Z.to_nat job with
  | None => ret tt
  | Some req =>
      let actorPtr1 := liveActors env !! (LOSRequest.mActors req).1 in
      let actorPtr2 := liveActors env !! (LOSRequest.mActors req).2 in
      let age := LOSRequest.mAge req in
      let req := set_mAge (age + 1) req in
      match age >? mLOSCacheExpiry s, actorPtr1, actorPtr2 with
      | false, Some a1, Some a2 =>
          r <- hasLineOfSight (mCollisionWorld env) a1 a2 ;;
          assign (fun s => set_mLOSCache (<[Z.to_nat job := set_mResult r req]> (mLOSCache s)) s)
      | _, _, _ =>
          assign (fun s => set_mLOSCache (<[Z.to_nat job := set_mStale true req]> (mLOSCache s)) s)
      end
  end.

(** The loop of [refreshLOSCache]: [mNextLOS.fetch_add(1)] yields the
    job, the loop ends when it reaches [numLOS].  The result tells
    whether the loop came to its end within [fuel] iterations. *)
Fixpoint refreshLOSCache_loop (fuel : nat) (env : Env) (numLOS : Z) : M bool :=
  s <- this ;;
  let job := mNextLOS s in
  assign (set_mNextLOS (job + 1)) ;;
  if job <? numLOS then
    match fuel with
    | O => ret false
    | S fuel' => refreshRequest env job ;; refreshLOSCache_loop fuel' env numLOS
    end
  else ret true.

(** [refreshLOSCache], run by one thread: as many iterations as there
    are jobs left between [mNextLOS] and the size of the cache. *)
Definition refreshLOSCache (env : Env) : M bool :=
  shared_lock mLOSCacheMutex (
    s <- this ;;
    let numLOS := Z.of_nat (length (mLOSCache s)) in
    refreshLOSCache_loop (Z.to_nat (numLOS - mNextLOS s)) env numLOS).

(** [afterPostSim]: the stale requests are erased (the end timestamp is
    not part of this model). *)
Definition afterPostSim : M unit :=
  assign (set_mNewFrame false) ;;
  unique_lock mLOSCacheMutex (
    assign (fun s =>
      set_mLOSCache (filter (fun req => LOSRequest.mStale req = false) (mLOSCache s)) s)).

(** ** One refresh, request by request *)

(** The refresh of one request in the words of the specification, to
    compare with the loop of [refreshLOSCache]: the age grows by one;
    the request is marked stale when its age was above the expiry or
    one of its actors is gone, and its result is computed anew
    otherwise. *)
Definition refreshedRequest (env : Env) (expiry : Z) (req : LOSRequest.t) : LOSRequest.t :=
  let aged := set_mAge (LOSRequest.mAge req + 1) req in
  match LOSRequest.mAge req >? expiry,
        liveActors env !! (LOSRequest.mActors req).1,
        liveActors env !! (LOSRequest.mActors req).2 with
  | false, Some a1, Some a2 =>
      set_mResult (negb (hasHit (mCollisionWorld env) (lineOfSightRay a1 a2))) aged
  | _, _, _ => set_mStale true aged
  end.

(** What a ray test between two actors answers in a world. *)
Definition clearLine (w : btCollisionWorld) (a1 a2 : Actor) : bool :=
  negb (hasHit w (lineOfSightRay a1 a2)).

(** The fields after a whole pass over the requests from [mNextLOS] on. *)
Definition refreshedFrom (env : Env) (s : PhysicsTaskScheduler) : PhysicsTaskScheduler :=
  let n := Z.to_nat (mNextLOS s) in
  set_mNextLOS (Z.max (mNextLOS s) (Z.of_nat (length (mLOSCache s))) + 1)
    (set_mLOSCache
       (take n (mLOSCache s)
        ++ map (refreshedRequest env (mLOSCacheExpiry s)) (drop n (mLOSCache s))) s).

(** The end of a frame run by the workers, for the cache: the cursor is
    back at 0 (as [applyQueuedMovements] leaves it), the refresh pass
    runs over the whole cache, the post-simulation pass follows. *)
Definition endOfFrame (env : Env) (s : PhysicsTaskScheduler) : PhysicsTaskScheduler :=
  after (afterPostSim (after (refreshLOSCache env (set_mNextLOS 0 s)))).

Fixpoint endOfFrames (envs : list Env) (s : PhysicsTaskScheduler) : PhysicsTaskScheduler :=
  match envs with
  | [] => s
  | env :: envs' => endOfFrames envs' (endOfFrame env s)
  end.

(** Both actors of a pair are alive in a surrounding. *)
Definition bothAlive (key : ActorPtr * ActorPtr) (env : Env) : Prop :=
  is_Some (liveActors env !! key.1) /\ is_Some (liveActors env !! key.2).

(** No two requests of the cache are for the same pair. *)
Definition pairsDistinct (s : PhysicsTaskScheduler) : Prop :=
  NoDup (map LOSRequest.mActors (mLOSCache s)).

(** ** Concrete schedulers and surroundings *)

Definition exampleSettings (threads expiry : Z) : string -> string -> Z :=
  fun name _ => if String.eqb name "async num threads" then threads else expiry.

(** A scheduler right after construction: target step 1/60 s, two
    worker threads wanted, requests kept for six frames. *)
Definition freshScheduler (maxSupportedThreads : Z) : PhysicsTaskScheduler :=
  (PhysicsTaskScheduler_new (exampleSettings 2 6) maxSupportedThreads (1 # 60)).1.

Definition withBudgets (budget asyncBudget : Q) (s : PhysicsTaskScheduler)
  : PhysicsTaskScheduler :=
  set_mBudget {| BudgetMeasurement.estimate := budget |}
    (set_mAsyncBudget {| BudgetMeasurement.estimate := asyncBudget |} s).

Definition exampleActor (x : Q) : Actor :=
  {| getCollisionObjectPosition := (x, 0, 0)%Q; getHalfExtents := (1 # 4, 1 # 4, 1)%Q |}.

Definition actorAt (p : ActorPtr) (x : Q) : shared_ptr :=
  {| get := p; pointee := exampleActor x |}.

(** A world in which every ray is blocked, and one without obstacles. *)
Definition blockedWorld : btCollisionWorld :=
  {| hasHit := fun _ => true; m_hitPointWorld := fun _ _ => None |}.

Definition openWorld : btCollisionWorld :=
  {| hasHit := fun _ => false; m_hitPointWorld := fun from _ => Some from |}.

Definition exampleEnv (w : btCollisionWorld) : Env :=
  {| mCollisionWorld := w;
     liveActors := {[ 1%positive := exampleActor 0; 2%positive := exampleActor 5;
                      3%positive := exampleActor 9 ]} |}.

Definition exampleRequest (p1 p2 : ActorPtr) (res : bool) (age : Z) : LOSRequest.t :=
  {| LOSRequest.mActors := (p1, p2); LOSRequest.mResult := res;
     LOSRequest.mStale := false; LOSRequest.mAge := age |}.

(** Three cached requests: one past the expiry of six frames, one
    fresh, one whose second actor is gone. *)
Definition agedCache : list LOSRequest.t :=
  [exampleRequest 1 2 true 7; exampleRequest 1 3 false 2; exampleRequest 2 4 true 0].

Definition exampleUpdate : Q -> Z -> Z -> BudgetMeasurement.t -> BudgetMeasurement.t :=
  fun seconds stepCount _ b =>
    {| BudgetMeasurement.estimate :=
         ((BudgetMeasurement.estimate b + seconds / inject_Z stepCount) / 2)%Q |}.

(** Frame data of an actor at height [z] that was at height
    [oldHeight] before the frame: in the air, above the water, falling
    at full speed. *)
Definition exampleFrameData (z oldHeight : Q) : ActorFrameData.t :=
  {| ActorFrameData.mPosition := (0, 0, z)%Q;
     ActorFrameData.mOldHeight := oldHeight;
     ActorFrameData.mSwimLevel := (-100)%Q;
     ActorFrameData.mSlowFall := 1;
     ActorFrameData.mFallHeight := 0;
     ActorFrameData.mFlying := false;
     ActorFrameData.mWasOnGround := false;
     ActorFrameData.mIsOnGround := false;
     ActorFrameData.mNeedLand := false |}.

(** ** Registered collision objects *)

(** [getUserPointer]: [userPointerOf] is the user pointer stored in a
    collision object ([None] for [nullptr]). *)
Definition getUserPointer (userPointerOf : positive -> option positive) (object : positive)
  : M (option positive) :=
  s <- this ;;
  if decide (object ∈ mCollisionObjects s) then ret (userPointerOf object) else ret None.

(** ** The events of a refresh pass, request by request *)

(** A request is looked at again by the refresh: its age is not above
    the expiry and both its actors are alive. *)
Definition refreshable (env : Env) (expiry : Z) (req : LOSRequest.t) : bool :=
  negb (LOSRequest.mAge req >? expiry)
  && bool_decide (is_Some (liveActors env !! (LOSRequest.mActors req).1))
  && bool_decide (is_Some (liveActors env !! (LOSRequest.mActors req).2)).

(** The events one refreshed request contributes to a pass: a ray test
    under the collision-world lock when it is looked at again, nothing
    otherwise. *)
Definition requestEvents (env : Env) (expiry : Z) (threadSafeBullet : bool)
    (req : LOSRequest.t) : list Event :=
  if refreshable env expiry req then
    let k := if threadSafeBullet then Shared else Exclusive in
    [Acquire mCollisionWorldMutex k; World call_rayTest; Release mCollisionWorldMutex k]
  else [].

(** ** Lock discipline of a trace *)

(** The locks held after a trace, the one taken last first.  [None]
    when the trace breaks the discipline: a mutex is taken that is
    already held, or while the collision-world mutex is held; a release
    is not that of the lock taken last; the collision world is called
    without its mutex being held. *)
Fixpoint locksHeld (held : list (Mutex * LockKind)) (tr : list Event)
  : option (list (Mutex * LockKind)) :=
  match tr with
  | [] => Some held
  | Acquire m k :: tr' =>
      if bool_decide (m ∈ map fst held) || bool_decide (mCollisionWorldMutex ∈ map fst held)
      then None
      else locksHeld ((m, k) :: held) tr'
  | Release m k :: tr' =>
      match held with
      | top :: held' => if bool_decide (top = (m, k)) then locksHeld held' tr' else None
      | [] => None
      end
  | World _ :: tr' =>
      if bool_decide (mCollisionWorldMutex ∈ map fst held) then locksHeld held tr' else None
  | _ :: tr' => locksHeld held tr'
  end.

(** A call keeps the discipline and returns with no lock held. *)
Definition disciplined {A : Type} (r : A * PhysicsTaskScheduler * list Event) : Prop :=
  locksHeld [] (trace r) = Some [].

(** ** Landing and fall height *)

(** The calls [updateMechanics] makes on the creature statistics of an
    actor. *)
Inductive StatsCall :=
  | stats_land (playerFlyingOrSwimming : bool)
  | stats_addToFallHeight (height : Q).

(** [updateMechanics]: [isPlayer] is [ptr == MWMechanics::getPlayer()];
    the result is the call made on the creature statistics, if any. *)
Definition updateMechanics (isPlayer : bool) (actorData : ActorFrameData.t)
  : option StatsCall :=
  if ActorFrameData.mNeedLand actorData then
    Some (stats_land
            (isPlayer && (ActorFrameData.mFlying actorData || isUnderWater actorData)))
  else if Qltb (ActorFrameData.mFallHeight actorData) 0 then
    Some (stats_addToFallHeight (- ActorFrameData.mFallHeight actorData))
  else None.

(** ** Deferred bounding-box updates *)

(** [mUpdateAabb] is a [std::set] of holder pointers: the addresses in
    ascending order, each once.  [insert] leaves the set as it is when
    the address is already in it. *)
Fixpoint std_set_insert (p : positive) (l : list positive) : list positive :=
  match l with
  | [] => [p]
  | q :: l' =>
      if (p <? q)%positive then p :: l
      else if (p =? q)%positive then l
      else q :: std_set_insert p l'
  end.

(** [updateSingleAabb]: [kindOf] tells what a holder pointer casts to;
    the pending set [mUpdateAabb] is passed in and returned. *)
Definition updateSingleAabb (kindOf : positive -> PtrHolderKind) (ptr : positive)
    (immediate : bool) (mUpdateAabb : list positive) : M (list positive) :=
  s <- this ;;
  if immediate || (mNumThreads s =? 0) then
    updatePtrAabb ptr (kindOf ptr) ;;
    ret mUpdateAabb
  else
    unique_lock mUpdateAabbMutex (ret (std_set_insert ptr mUpdateAabb)).

Definition updateAabbs (kindOf : positive -> PtrHolderKind) (mUpdateAabb : list positive)
  : M (list positive) :=
  unique_lock mUpdateAabbMutex (
    forEach mUpdateAabb (fun ptr => updatePtrAabb ptr (kindOf ptr)) ;;
    ret []).

(** [releaseSharedStates]: a [std::scoped_lock] on two mutexes.  Both
    are taken by [std::lock], which leaves the order open (here the
    order in which they are written, as when neither is contended), and
    they are released in the order in which they are written, the
    simulation mutex first. *)
Definition releaseSharedStates (mUpdateAabb : list positive) : M (list positive) :=
  emit (Acquire mSimulationMutex Exclusive) ;;
  emit (Acquire mUpdateAabbMutex Exclusive) ;;
  assign (set_mActors []) ;;
  emit (Release mSimulationMutex Exclusive) ;;
  emit (Release mUpdateAabbMutex Exclusive) ;;
  ret [].

(** Requests for deferred updates, one after the other. *)
Fixpoint updateSingleAabb_each (kindOf : positive -> PtrHolderKind) (ptrs : list positive)
    (mUpdateAabb : list positive) : M (list positive) :=
  match ptrs with
  | [] => ret mUpdateAabb
  | ptr :: ptrs' =>
      pending <- updateSingleAabb kindOf ptr false mUpdateAabb ;;
      updateSingleAabb_each kindOf ptrs' pending
  end.

(** The events of the commit of one holder pointer. *)
Definition commitEvents (kindOf : positive -> PtrHolderKind) (ptr : positive) : list Event :=
  Acquire mCollisionWorldMutex Exclusive
  :: match kindOf ptr with
     | HoldsActor =>
         [OnObject ptr call_updateCollisionObjectPosition; World call_updateSingleAabb]
     | HoldsObject | HoldsProjectile =>
         [OnObject ptr call_commitPositionChange; World call_updateSingleAabb]
     | HoldsOther => []
     end
  ++ [Release mCollisionWorldMutex Exclusive].

(** ** The end of a simulation step *)

Definition set_mRemainingSteps (v : Z) (s : PhysicsTaskScheduler) : PhysicsTaskScheduler :=
  {| mDefaultPhysicsDt := mDefaultPhysicsDt s; mPhysicsDt := mPhysicsDt s;
     mTimeAccum := mTimeAccum s; mActors := mActors s;
     mActorsFrameData := mActorsFrameData s; mCollisionObjects := mCollisionObjects s;
     mThreadSafeBullet := mThreadSafeBullet s; mNumThreads := mNumThreads s;
     mNumJobs := mNumJobs s; mRemainingSteps := v;
     mLOSCacheExpiry := mLOSCacheExpiry s; mNewFrame := mNewFrame s;
     mAdvanceSimulation := mAdvanceSimulation s; mNextJob := mNextJob s;
     mNextLOS := mNextLOS s; mLOSCache := mLOSCache s;
     mPrevStepCount := mPrevStepCount s; mBudget := mBudget s;
     mAsyncBudget := mAsyncBudget s; mBudgetCursor := mBudgetCursor s |}.

Definition set_mNextJob (v : Z) (s : PhysicsTaskScheduler) : PhysicsTaskScheduler :=
  {| mDefaultPhysicsDt := mDefaultPhysicsDt s; mPhysicsDt := mPhysicsDt s;
     mTimeAccum := mTimeAccum s; mActors := mActors s;
     mActorsFrameData := mActorsFrameData s; mCollisionObjects := mCollisionObjects s;
     mThreadSafeBullet := mThreadSafeBullet s; mNumThreads := mNumThreads s;
     mNumJobs := mNumJobs s; mRemainingSteps := mRemainingSteps s;
     mLOSCacheExpiry := mLOSCacheExpiry s; mNewFrame := mNewFrame s;
     mAdvanceSimulation := mAdvanceSimulation s; mNextJob := v;
     mNextLOS := mNextLOS s; mLOSCache := mLOSCache s;
     mPrevStepCount := mPrevStepCount s; mBudget := mBudget s;
     mAsyncBudget := mAsyncBudget s; mBudgetCursor := mBudgetCursor s |}.

Definition set_mPosition (v : Vec3) (d : ActorFrameData.t) : ActorFrameData.t :=
  {| ActorFrameData.mPosition := v;
     ActorFrameData.mOldHeight := ActorFrameData.mOldHeight d;
     ActorFrameData.mSwimLevel := ActorFrameData.mSwimLevel d;
     ActorFrameData.mSlowFall := ActorFrameData.mSlowFall d;
     ActorFrameData.mFallHeight := ActorFrameData.mFallHeight d;
     ActorFrameData.mFlying := ActorFrameData.mFlying d;
     ActorFrameData.mWasOnGround := ActorFrameData.mWasOnGround d;
     ActorFrameData.mIsOnGround := ActorFrameData.mIsOnGround d;
     ActorFrameData.mNeedLand := ActorFrameData.mNeedLand d |}.

(** The loop of [updateActorsPositions] over [mActors] and
    [mActorsFrameData], index by index.  [setPosition] is the actor's
    [setPosition] followed, when it answers true, by its [getPosition]
    ([None] when it answers false).  The two vectors have the same
    length; the loop of the model ends with the shorter one. *)
Fixpoint updateActorsPositions_loop (setPosition : positive -> Vec3 -> option Vec3)
    (actors : list shared_ptr) (data : list ActorFrameData.t) : M (list ActorFrameData.t) :=
  match actors, data with
  | actor :: actors', d :: data' =>
      d' <- match setPosition (get actor) (ActorFrameData.mPosition d) with
            | Some position =>
                unique_lock mCollisionWorldMutex (
                  emit (OnObject (get actor) call_updateCollisionObjectPosition) ;;
                  emit (World call_updateSingleAabb) ;;
                  ret (set_mPosition position d))
            | None => ret d
            end ;;
      rest <- updateActorsPositions_loop setPosition actors' data' ;;
      ret (d' :: rest)
  | _, _ => ret data
  end.

Definition updateActorsPositions (setPosition : positive -> Vec3 -> option Vec3) : M unit :=
  s <- this ;;
  data <- updateActorsPositions_loop setPosition (mActors s) (mActorsFrameData s) ;;
  assign (set_mActorsFrameData data).

Definition afterPostStep (setPosition : positive -> Vec3 -> option Vec3) : M unit :=
  s <- this ;;
  (if negb (mRemainingSteps s =? 0) then
     assign (set_mRemainingSteps (mRemainingSteps s - 1)) ;;
     updateActorsPositions setPosition
   else ret tt) ;;
  assign (set_mNextJob 0).

(** ** Frames computed on the calling thread *)

(** The end of a frame when [mNumThreads] is 0, for the cache:
    [applyQueuedMovements] puts the cursor back to 0 and
    [syncComputation] ends with the refresh pass; the post-simulation
    pass belongs to the workers and is not run. *)
Definition endOfSyncFrame (env : Env) (s : PhysicsTaskScheduler) : PhysicsTaskScheduler :=
  after (refreshLOSCache env (set_mNextLOS 0 s)).

Fixpoint endOfSyncFrames (envs : list Env) (s : PhysicsTaskScheduler) : PhysicsTaskScheduler :=
  match envs with
  | [] => s
  | env :: envs' => endOfSyncFrames envs' (endOfSyncFrame env s)
  end.

(** ** Single and double precision *)

(** [2 ^ e], for an exponent of either sign. *)
Definition pow2 (e : Z) : Q := (2 ^ e)%Q.

(** The integer nearest to [y]; of two equally near ones the even one. *)
Definition nearest_even (y : Q) : Z :=
  let f := Qfloor y in
  match (y - inject_Z f ?= 1 # 2)%Q with
  | Lt => f
  | Gt => f + 1
  | Eq => if Z.even f then f else f + 1
  end.

(** The exponent [e] of the last of [prec] binary digits of [x]:
    [2^(prec-1) <= |x| / 2^e < 2^prec]. *)
Definition ulp_exponent (prec : Z) (x : Q) : Z :=
  let k := Z.log2 (Z.abs (Qnum x)) - Z.log2 (Z.pos (Qden x)) in
  if Qle_bool (pow2 k) (Qabs x) then k - (prec - 1) else k - 1 - (prec - 1).

(** Rounding to the nearest number with [prec] binary digits, ties to
    even: the rounding of every IEEE 754 operation in the default
    rounding mode.  The exponent is not bounded: overflow to infinity,
    subnormal numbers and NaN are outside the model. *)
Definition round_nearest_even (prec : Z) (x : Q) : Q :=
  if Qeq_bool x 0 then 0%Q
  else
    let e := ulp_exponent prec x in
    let m := nearest_even (Qabs x / pow2 e) in
    ((if Qle_bool 0 x then 1 else -1) * inject_Z m * pow2 e)%Q.

(** C++ [float] and [double]. *)
Definition binary32 : Q -> Q := round_nearest_even 24.

Definition binary64 : Q -> Q := round_nearest_even 53.

(** ** The step configuration and the frame submission with rounding *)

(** The functions of the scheduler that compute with [float]s, with the
    rounding of every operation written out: [float] rounds the result
    of a single-precision operation, a literal with suffix [f] or a
    conversion from [int]; [double] rounds the result of a
    double-precision operation or a literal without suffix.  Comparisons,
    [std::max], [std::ceil] and the promotion of a [float] to [double]
    are exact.  The definitions of the same names outside this module
    are these with no rounding at all. *)
Module Rounded.

Section Arithmetic.

Variables float double : Q -> Q.

(** Lines 178-182. *)
Definition budgetMeasurement (s : PhysicsTaskScheduler) : Q :=
  let budgetMeasurement :=
    std_max (BudgetMeasurement.get (mBudget s)) (BudgetMeasurement.get (mAsyncBudget s)) in
  let budgetMeasurement := float (budgetMeasurement / mDefaultPhysicsDt s) in
  std_max (float (1 # 100000)) budgetMeasurement.

(** Lines 166 and 184-190. *)
Definition maxAllowedSteps (s : PhysicsTaskScheduler) : Z :=
  let maxAllowedSteps := 2 in
  let maxAllowedSteps :=
    if Qltb (double (95 # 100)) (budgetMeasurement s) then 1 else maxAllowedSteps in
  let maxAllowedSteps :=
    if Qltb (budgetMeasurement s) (double (1 # 2))
    then Qceiling (double (double 1 / budgetMeasurement s))
    else maxAllowedSteps in
  Z.min 10 maxAllowedSteps.

Definition calculateStepConfig (s : PhysicsTaskScheduler) (timeAccum : Q) : Z * Q :=
  let numSteps := float_to_int (float (timeAccum / mDefaultPhysicsDt s)) in
  let maxAllowedSteps := maxAllowedSteps s in
  let actualDelta := mDefaultPhysicsDt s in
  if numSteps >? maxAllowedSteps then
    let numSteps := maxAllowedSteps in
    let actualDelta := float (timeAccum / float (inject_Z (numSteps + 1))) in
    let actualDelta := std_max actualDelta (mDefaultPhysicsDt s) in
    (numSteps, actualDelta)
  else
    (numSteps, actualDelta).

(** [update] of the budget class, declared outside this file. *)
Variable Budget_update : Q -> Z -> Z -> BudgetMeasurement.t -> BudgetMeasurement.t.

(** [applyQueuedMovements], lines 215-257, as [applyQueuedMovements]
    above, with the assertion of line 216 (the program is aborted when
    it fails, the result is [None]) and with the rounding of line 234:
    [numSteps] is converted to [float], the product is rounded, the
    difference is rounded. *)
Definition applyQueuedMovements (timeAccum : Q) (actors : list shared_ptr)
    (actorsData : list ActorFrameData.t) (asyncSeconds : Q) : M (option (Q * HandOver)) :=
  emit (Acquire mSimulationMutex Exclusive) ;;
  if negb (length actors =? length actorsData)%nat then ret None
  else
    finishPreviousFrame Budget_update asyncSeconds ;;
    s <- this ;;
    let c := calculateStepConfig s timeAccum in
    let numSteps := c.1 in
    let newDelta := c.2 in
    let timeAccum := float (timeAccum - float (float (inject_Z numSteps) * newDelta)) in
    forEach actors (fun actor => emit (OnObject (get actor) call_frameDataUpdatePosition)) ;;
    let advance := negb (numSteps =? 0) in
    assign (fun s =>
      {| mDefaultPhysicsDt := mDefaultPhysicsDt s;
         mPhysicsDt := newDelta;
         mTimeAccum := timeAccum;
         mActors := actors;
         mActorsFrameData := actorsData;
         mCollisionObjects := mCollisionObjects s;
         mThreadSafeBullet := mThreadSafeBullet s;
         mNumThreads := mNumThreads s;
         mNumJobs := Z.of_nat (length actorsData);
         mRemainingSteps := numSteps;
         mLOSCacheExpiry := mLOSCacheExpiry s;
         mNewFrame := true;
         mAdvanceSimulation := advance;
         mNextJob := 0;
         mNextLOS := 0;
         mLOSCache := mLOSCache s;
         mPrevStepCount := numSteps;
         mBudget := mBudget s;
         mAsyncBudget := mAsyncBudget s;
         mBudgetCursor := if advance then mBudgetCursor s + 1 else mBudgetCursor s |}) ;;
    s <- this ;;
    ret (Some (timeAccum, if mNumThreads s =? 0 then RunOnCallingThread else WakeWorkers)).

End Arithmetic.

End Rounded.

(** A scheduler right after construction with the target step [1/60f],
    and the accumulated time [0.05f]. *)
Definition floatScheduler : PhysicsTaskScheduler :=
  (PhysicsTaskScheduler_new (exampleSettings 2 6) 4 (binary32 (1 # 60))).1.

(** ** The end of a frame, with or without worker threads *)

(** Line 259 of [applyQueuedMovements]: without worker thread the frame
    is computed on the calling thread by [syncComputation], which ends
    with the refresh pass; otherwise the workers run it and the
    post-simulation pass follows the refresh pass. *)
Definition frameEnd (env : Env) (s : PhysicsTaskScheduler) : PhysicsTaskScheduler :=
  if mNumThreads s =? 0 then endOfSyncFrame env s else endOfFrame env s.

Fixpoint frameEnds (envs : list Env) (s : PhysicsTaskScheduler) : PhysicsTaskScheduler :=
  match envs with
  | [] => s
  | env :: envs' => frameEnds envs' (frameEnd env s)
  end.


(** ** Facts about the numeric helpers *)

Lemma Qltb_lt (a b : Q) : Qltb a b = true <-> (a < b)%Q.
Proof.
  unfold Qltb. rewrite negb_true_iff. split.
  - intros H. apply Qnot_le_lt. intros Hle. apply Qle_bool_iff in Hle. congruence.
  - intros H. destruct (Qle_bool b a) eqn:E; [|reflexivity].
    apply Qle_bool_iff in E. exfalso. exact (Qlt_not_le _ _ H E).
Qed.

Lemma Qltb_ge (a b : Q) : Qltb a b = false <-> (b <= a)%Q.
Proof.
  unfold Qltb. rewrite negb_false_iff. apply Qle_bool_iff.
Qed.

Lemma std_max_ge_r (a b : Q) : (b <= std_max a b)%Q.
Proof.
  unfold std_max. destruct (Qltb a b) eqn:E.
  - apply Qle_refl.
  - now apply Qltb_ge.
Qed.

Lemma std_max_ge_l (a b : Q) : (a <= std_max a b)%Q.
Proof.
  unfold std_max. destruct (Qltb a b) eqn:E.
  - apply Qlt_le_weak. now apply Qltb_lt.
  - apply Qle_refl.
Qed.

Lemma float_to_int_floor (x : Q) : (0 <= x)%Q -> float_to_int x = Qfloor x.
Proof.
  destruct x as [n d]. unfold Qle, float_to_int, Qfloor. simpl.
  intros H. apply Z.quot_div_nonneg; lia.
Qed.

Lemma float_to_int_nonneg (x : Q) : (0 <= x)%Q -> 0 <= float_to_int x.
Proof.
  destruct x as [n d]. unfold Qle, float_to_int. simpl.
  intros H. apply Z.quot_pos; lia.
Qed.

Lemma float_to_int_le (x : Q) : (0 <= x)%Q -> (inject_Z (float_to_int x) <= x)%Q.
Proof.
  intros H. rewrite (float_to_int_floor x H). apply Qfloor_le.
Qed.

Lemma float_to_int_lt (x : Q) : (0 <= x)%Q -> (x < inject_Z (float_to_int x + 1))%Q.
Proof.
  intros H. rewrite (float_to_int_floor x H). apply Qlt_floor.
Qed.

Lemma float_to_int_ge (x : Q) (n : Z) :
  (inject_Z n <= x)%Q -> 0 <= n -> n <= float_to_int x.
Proof.
  intros H Hn.
  assert (Hx : (0 <= x)%Q).
  { eapply Qle_trans; [|exact H]. change 0%Q with (inject_Z 0). now rewrite <- Zle_Qle. }
  rewrite (float_to_int_floor x Hx).
  rewrite <- (Qfloor_Z n). now apply Qfloor_resp_le.
Qed.

(** ** Facts about the step allowance *)

Lemma saneRatio_pos (r : Q) : (0 < std_max (1 # 100000) r)%Q.
Proof.
  eapply Qlt_le_trans; [|apply std_max_ge_l]. reflexivity.
Qed.

Lemma Qceiling_inv_pos (b : Q) : (0 < b)%Q -> 1 <= Qceiling (1 / b).
Proof.
  intros Hb.
  assert (H : (0 < 1 / b)%Q) by (apply Qlt_shift_div_l; [exact Hb | lra]).
  pose proof (Qle_ceiling (1 / b)) as Hc.
  assert (H0 : (inject_Z 0 < inject_Z (Qceiling (1 / b)))%Q).
  { eapply Qlt_le_trans; [exact H | exact Hc]. }
  rewrite <- Zlt_Qlt in H0. lia.
Qed.


Lemma stepAllowance_ge_1 (s : PhysicsTaskScheduler) : 1 <= stepAllowance s.
Proof.
  unfold stepAllowance.
  destruct (Qltb (budgetMeasurement s) (1 # 2)).
  - apply Qceiling_inv_pos, saneRatio_pos.
  - destruct (Qltb (95 # 100) (budgetMeasurement s)); lia.
Qed.

Lemma maxAllowedSteps_bounds (s : PhysicsTaskScheduler) :
  1 <= maxAllowedSteps s <= 10.
Proof.
  unfold maxAllowedSteps. pose proof (stepAllowance_ge_1 s). lia.
Qed.

Lemma saneRatio_above (r : Q) :
  (1 # 100000 < r)%Q -> std_max (1 # 100000) r = r.
Proof.
  intros H. unfold std_max. apply Qltb_lt in H. now rewrite H.
Qed.


Lemma numSteps_capped (s : PhysicsTaskScheduler) (timeAccum : Q) :
  (calculateStepConfig s timeAccum).1 =
  Z.min (maxAllowedSteps s) (float_to_int (timeAccum / mDefaultPhysicsDt s)).
Proof.
  unfold calculateStepConfig.
  destruct (Z.gtb_spec (float_to_int (timeAccum / mDefaultPhysicsDt s)) (maxAllowedSteps s));
    simpl; lia.
Qed.

(** ** The step configuration *)

Lemma stepDt_cases (s : PhysicsTaskScheduler) (timeAccum : Q) :
  (calculateStepConfig s timeAccum).2 =
  if float_to_int (timeAccum / mDefaultPhysicsDt s) >? maxAllowedSteps s
  then std_max (timeAccum / inject_Z (maxAllowedSteps s + 1)) (mDefaultPhysicsDt s)
  else mDefaultPhysicsDt s.
Proof.
  unfold calculateStepConfig.
  now destruct (float_to_int (timeAccum / mDefaultPhysicsDt s) >? maxAllowedSteps s).
Qed.




Lemma stepAllowance_middle (s : PhysicsTaskScheduler) :
  (1 # 2 <= budgetRatio s)%Q -> (budgetRatio s <= 95 # 100)%Q -> stepAllowance s = 2.
Proof.
  intros Hlo Hhi. unfold stepAllowance, budgetMeasurement.
  rewrite saneRatio_above by lra.
  apply Qltb_ge in Hlo, Hhi. now rewrite Hlo, Hhi.
Qed.

Lemma stepAllowance_expensive (s : PhysicsTaskScheduler) :
  (95 # 100 < budgetRatio s)%Q -> stepAllowance s = 1.
Proof.
  intros H. unfold stepAllowance, budgetMeasurement.
  rewrite saneRatio_above by lra.
  assert (H2 : Qltb (budgetRatio s) (1 # 2) = false) by (apply Qltb_ge; lra).
  apply Qltb_lt in H. now rewrite H, H2.
Qed.

(** ** Frame submission *)

Lemma forEach_after {A : Type} (l : list A) (body : A -> M unit) (s : PhysicsTaskScheduler) :
  (forall x s', after (body x s') = s') -> after (forEach l body s) = s.
Proof.
  intros Hbody. revert s. induction l as [|x l IH]; intros s; [reflexivity|].
  cbn [forEach]. unfold bind, after in *. cbn. rewrite IH. apply Hbody.
Qed.

Lemma finishPreviousFrame_dt (U : Q -> Z -> Z -> BudgetMeasurement.t -> BudgetMeasurement.t)
    (a : Q) (s : PhysicsTaskScheduler) :
  mDefaultPhysicsDt (after (finishPreviousFrame U a s)) = mDefaultPhysicsDt s.
Proof.
  unfold finishPreviousFrame, bind, this, after. cbn.
  destruct (mNumThreads s =? 0); cbn; [reflexivity|].
  pose proof (forEach_after (mActors s)
    (fun actor => bind (emit (OnObject (get actor) call_updateMechanics))
                   (fun _ => emit (OnObject (get actor) call_updateActor))) s
    (fun _ _ => eq_refl)) as E.
  unfold after, bind, emit in E. cbn in E. rewrite E.
  now destruct (mAdvanceSimulation s).
Qed.

Lemma applyQueuedMovements_leftover (U : Q -> Z -> Z -> BudgetMeasurement.t -> BudgetMeasurement.t)
    (timeAccum : Q) (actors : list shared_ptr) (actorsData : list ActorFrameData.t)
    (a : Q) (s : PhysicsTaskScheduler) :
  let s1 := after (finishPreviousFrame U a s) in
  let leftover :=
    (timeAccum - inject_Z (calculateStepConfig s1 timeAccum).1
                 * (calculateStepConfig s1 timeAccum).2)%Q in
  (result (applyQueuedMovements U timeAccum actors actorsData a s)).1 = leftover
  /\ mTimeAccum (after (applyQueuedMovements U timeAccum actors actorsData a s)) = leftover.
Proof.
  cbv zeta. split; reflexivity.
Qed.

Lemma applyQueuedMovements_cursor
    (U : Q -> Z -> Z -> BudgetMeasurement.t -> BudgetMeasurement.t)
    (timeAccum : Q) (actors : list shared_ptr) (actorsData : list ActorFrameData.t)
    (a : Q) (s : PhysicsTaskScheduler) :
  mNextLOS (after (applyQueuedMovements U timeAccum actors actorsData a s)) = 0
  /\ mNextJob (after (applyQueuedMovements U timeAccum actors actorsData a s)) = 0.
Proof. split; reflexivity. Qed.

(** C7.  For every accumulated time and every budget state the step
    size returned by [calculateStepConfig] is at least the target step:
    it is the target step outside the fallback, and in the fallback it
    is [accumulated / (numSteps + 1)] raised to the target step. *)
Theorem stepDt_at_least_target (s : PhysicsTaskScheduler) (timeAccum : Q) :
  (mDefaultPhysicsDt s <= (calculateStepConfig s timeAccum).2)%Q
  /\ (calculateStepConfig s timeAccum).2 =
     if float_to_int (timeAccum / mDefaultPhysicsDt s) >? maxAllowedSteps s
     then std_max (timeAccum / inject_Z ((calculateStepConfig s timeAccum).1 + 1))
                  (mDefaultPhysicsDt s)
     else mDefaultPhysicsDt s.
Proof.
  split.
  - rewrite stepDt_cases.
    destruct (float_to_int (timeAccum / mDefaultPhysicsDt s) >? maxAllowedSteps s).
    + apply std_max_ge_r.
    + apply Qle_refl.
  - unfold calculateStepConfig.
    now destruct (float_to_int (timeAccum / mDefaultPhysicsDt s) >? maxAllowedSteps s).
Qed.



(** C10.  With a budget ratio between 0.5 and 0.95, both included, the
    step allowance is the default 2: the number of steps is the number
    of whole target steps in the accumulated time, capped at 2. *)
Theorem middle_ratio_caps_at_two (s : PhysicsTaskScheduler) (timeAccum : Q) :
  (1 # 2 <= budgetRatio s)%Q -> (budgetRatio s <= 95 # 100)%Q ->
  maxAllowedSteps s = 2
  /\ (calculateStepConfig s timeAccum).1 =
     Z.min 2 (float_to_int (timeAccum / mDefaultPhysicsDt s)).
Proof.
  intros Hlo Hhi.
  assert (HM : maxAllowedSteps s = 2).
  { unfold maxAllowedSteps. now rewrite stepAllowance_middle. }
  split; [exact HM|]. now rewrite numSteps_capped, HM.
Qed.

Lemma middle_ratio_caps_at_two_witness :
  (calculateStepConfig (withBudgets (1 # 100) (1 # 120) (freshScheduler 4)) 1).1 = 2.
Proof.
  destruct (middle_ratio_caps_at_two (withBudgets (1 # 100) (1 # 120) (freshScheduler 4)) 1)
    as [_ H].
  - discriminate.
  - discriminate.
  - rewrite H. reflexivity.
Defined.




(** ** Configuration *)

(** C9.  When the broadphase supports at most one ray-test stack and
    more than one worker thread is wanted, [computeNumThreads] logs a
    warning and returns exactly 1; in every other case it returns the
    wanted count, raised to 0 when negative, and logs nothing.  The
    constructor takes its thread count, its flag and its log output
    from there. *)
Theorem computeNumThreads_degrades (getInt : string -> string -> Z) (maxSupportedThreads : Z)
    (physicsDt : Q) :
  let wantedThread := getInt "async num threads"%string "Physics"%string in
  let r := Config.computeNumThreads getInt maxSupportedThreads in
  let built := PhysicsTaskScheduler_new getInt maxSupportedThreads physicsDt in
  r.1.1 = (maxSupportedThreads >? 1)
  /\ (maxSupportedThreads <= 1 -> 1 < wantedThread ->
      r.1.2 = 1 /\ r.2 = [LogWarning Config.multithreadingWarning])
  /\ (~ (maxSupportedThreads <= 1 /\ 1 < wantedThread) ->
      r.1.2 = Z.max 0 wantedThread /\ r.2 = [])
  /\ mNumThreads built.1 = r.1.2
  /\ mThreadSafeBullet built.1 = r.1.1
  /\ built.2 = r.2.
Proof.
  cbv zeta. unfold PhysicsTaskScheduler_new, Config.computeNumThreads.
  destruct (Z.gtb_spec maxSupportedThreads 1) as [Hs | Hs];
    destruct (Z.gtb_spec (getInt "async num threads"%string "Physics"%string) 1) as [Hw | Hw];
    cbn; repeat split; intros; try lia; try reflexivity.
Qed.

Lemma computeNumThreads_degrades_witness :
  (Config.computeNumThreads (exampleSettings 4 6) 1).1.2 = 1
  /\ (Config.computeNumThreads (exampleSettings 4 6) 8).1.2 = 4
  /\ (Config.computeNumThreads (exampleSettings (-3) 6) 1).1.2 = 0.
Proof.
  destruct (computeNumThreads_degrades (exampleSettings 4 6) 1 (1 # 60)) as [_ [H1 _]].
  destruct (computeNumThreads_degrades (exampleSettings 4 6) 8 (1 # 60)) as [_ [_ [H2 _]]].
  destruct (computeNumThreads_degrades (exampleSettings (-3) 6) 1 (1 # 60))
    as [_ [_ [H3 _]]].
  split; [|split].
  - apply H1; [lia | reflexivity].
  - rewrite (proj1 (H2 ltac:(lia))). reflexivity.
  - rewrite (proj1 (H3 ltac:(cbn; lia))). reflexivity.
Defined.

(** ** Reset *)

Lemma forEach_emit_trace {A : Type} (l : list A) (f : A -> list Event) (s : PhysicsTaskScheduler) :
  forEach l (fun x s' => (tt, s', f x)) s = (tt, s, concat (map f l)).
Proof.
  revert s. induction l as [|x l IH]; intros s; [reflexivity|].
  cbn [forEach map concat]. unfold bind. rewrite IH. reflexivity.
Qed.

(** C3, as the code has it.  [resetSimulation] resets the budget of the
    calling thread to the default step duration and the budget of the
    background computation to 0, empties the stored actors and their
    frame data, leaves the line-of-sight cache as it is, and updates the
    position and the collision-object position of every given actor
    under the simulation mutex. *)
Theorem resetSimulation_effect (actors : list shared_ptr) (s : PhysicsTaskScheduler) :
  let s' := after (resetSimulation actors s) in
  BudgetMeasurement.get (mBudget s') = mDefaultPhysicsDt s
  /\ BudgetMeasurement.get (mAsyncBudget s') = 0%Q
  /\ mActors s' = []
  /\ mActorsFrameData s' = []
  /\ mLOSCache s' = mLOSCache s
  /\ mDefaultPhysicsDt s' = mDefaultPhysicsDt s
  /\ trace (resetSimulation actors s) =
       Acquire mSimulationMutex Exclusive
       :: concat (map (fun actor => [OnObject (get actor) call_updatePosition;
                                     OnObject (get actor) call_updateCollisionObjectPosition])
                      actors)
       ++ [Release mSimulationMutex Exclusive].
Proof.
  cbv zeta. unfold resetSimulation, unique_lock, scoped.
  unfold after, trace, bind, assign, emit, ret. cbn.
  pose proof (forEach_emit_trace actors
    (fun actor => [OnObject (get actor) call_updatePosition;
                   OnObject (get actor) call_updateCollisionObjectPosition])) as E.
  unfold bind, emit in *. cbn in E.
  rewrite E. cbn. repeat split; reflexivity.
Qed.

(** C3, as stated, fails: after a reset with an empty actor set the
    budget of the background computation is 0, not the default step
    duration, and a cached line-of-sight request is still there. *)
Lemma resetSimulation_async_budget_zero :
  let s := set_mLOSCache [exampleRequest 1 2 true 0] (freshScheduler 4) in
  let s' := after (resetSimulation [] s) in
  ~ (BudgetMeasurement.get (mAsyncBudget s') == mDefaultPhysicsDt s)%Q
  /\ mLOSCache s' = [exampleRequest 1 2 true 0]
  /\ mLOSCache s' <> [].
Proof.
  cbv zeta. split; [discriminate|]. split; [reflexivity | discriminate].
Qed.

(** ** Locking of the collision world *)

(** C4, as the code has it.  Without multithreading support of the
    collision world, [rayTest], [convexSweepTest], [getHitPoint] and
    [hasLineOfSight] and every write ([setCollisionFilterMask],
    [addCollisionObject], [removeCollisionObject], [updatePtrAabb]) take
    the exclusive lock on the collision-world mutex, while
    [contactTest], [aabbTest], [getAabb] and [debugDraw] take the
    shared lock. *)
Theorem collision_world_locks (s : PhysicsTaskScheduler) :
  mThreadSafeBullet s = false ->
  (forall from to, worldLocks (rayTest from to s) = [Exclusive])
  /\ (forall shape from to, worldLocks (convexSweepTest shape from to s) = [Exclusive])
  /\ (forall w from target, worldLocks (getHitPoint w from target s) = [Exclusive])
  /\ (forall w a1 a2, worldLocks (hasLineOfSight w a1 a2 s) = [Exclusive])
  /\ (forall obj mask, worldLocks (setCollisionFilterMask obj mask s) = [Exclusive])
  /\ (forall obj group mask, worldLocks (addCollisionObject obj group mask s) = [Exclusive])
  /\ (forall obj, worldLocks (removeCollisionObject obj s) = [Exclusive])
  /\ (forall ptr kind, worldLocks (updatePtrAabb ptr kind s) = [Exclusive])
  /\ (forall obj, worldLocks (contactTest obj s) = [Shared])
  /\ (forall lo hi, worldLocks (aabbTest lo hi s) = [Shared])
  /\ (forall obj, worldLocks (getAabb obj s) = [Shared])
  /\ worldLocks (debugDraw s) = [Shared].
Proof.
  intros H.
  unfold worldLocks, rayTest, convexSweepTest, getHitPoint, hasLineOfSight,
    setCollisionFilterMask, addCollisionObject, removeCollisionObject, updatePtrAabb,
    contactTest, aabbTest, getAabb, debugDraw, MaybeSharedLock, unique_lock, shared_lock,
    scoped, trace, bind, this, emit, ret, assign.
  cbn. rewrite H. cbn.
  repeat split; try reflexivity.
  intros ptr kind. now destruct kind.
Qed.

Lemma collision_world_locks_witness :
  worldLocks (rayTest (0, 0, 0)%Q (1, 0, 0)%Q (freshScheduler 1)) = [Exclusive]
  /\ worldLocks (aabbTest (0, 0, 0)%Q (1, 1, 1)%Q (freshScheduler 1)) = [Shared].
Proof.
  destruct (collision_world_locks (freshScheduler 1) eq_refl)
    as (Hray & _ & _ & _ & _ & _ & _ & _ & _ & Haabb & _ & _).
  split; [apply Hray | apply Haabb].
Defined.

(** C4, as stated, fails: without multithreading support [contactTest],
    [aabbTest] and [getAabb] still take the shared lock. *)
Lemma contactTest_shared_when_unsafe :
  mThreadSafeBullet (freshScheduler 1) = false
  /\ worldLocks (contactTest 1 (freshScheduler 1)) = [Shared]
  /\ worldLocks (aabbTest (0, 0, 0)%Q (1, 1, 1)%Q (freshScheduler 1)) = [Shared]
  /\ worldLocks (getAabb 1 (freshScheduler 1)) = [Shared]
  /\ ~ Forall (eq Exclusive) (worldLocks (contactTest 1 (freshScheduler 1))).
Proof.
  repeat split; try reflexivity.
  intros H. inversion H as [|k l Hk Hl]. discriminate Hk.
Qed.

(** ** The line-of-sight cache: queries *)



Lemma hasLineOfSight_run (w : btCollisionWorld) (a1 a2 : Actor) (s : PhysicsTaskScheduler) :
  hasLineOfSight w a1 a2 s =
  let k := if mThreadSafeBullet s then Shared else Exclusive in
  (clearLine w a1 a2, s,
   [Acquire mCollisionWorldMutex k; World call_rayTest; Release mCollisionWorldMutex k]).
Proof.
  unfold hasLineOfSight, MaybeSharedLock, scoped, bind, this, emit, ret, clearLine. cbn.
  now destruct (mThreadSafeBullet s).
Qed.

Lemma getLineOfSight_hit (w : btCollisionWorld) (actor1 actor2 : shared_ptr)
    (s : PhysicsTaskScheduler) (i : nat) (e : LOSRequest.t) :
  list_find (fun e => LOSRequest_eq e (LOSRequest_new actor1 actor2)) (mLOSCache s)
    = Some (i, e) ->
  getLineOfSight w actor1 actor2 s =
  (LOSRequest.mResult e,
   set_mLOSCache (<[i := set_mAge 0 e]> (mLOSCache s)) s,
   [Acquire mLOSCacheMutex Exclusive; Release mLOSCacheMutex Exclusive]).
Proof.
  intros H. unfold getLineOfSight, unique_lock, scoped, bind, this, emit, ret. cbn.
  rewrite H. reflexivity.
Qed.

Lemma getLineOfSight_miss (w : btCollisionWorld) (actor1 actor2 : shared_ptr)
    (s : PhysicsTaskScheduler) :
  list_find (fun e => LOSRequest_eq e (LOSRequest_new actor1 actor2)) (mLOSCache s) = None ->
  getLineOfSight w actor1 actor2 s =
  let r := clearLine w (pointee actor1) (pointee actor2) in
  let k := if mThreadSafeBullet s then Shared else Exclusive in
  (r,
   set_mLOSCache (mLOSCache s ++ [set_mResult r (LOSRequest_new actor1 actor2)]) s,
   [Acquire mLOSCacheMutex Exclusive;
    Acquire mCollisionWorldMutex k; World call_rayTest; Release mCollisionWorldMutex k;
    Release mLOSCacheMutex Exclusive]).
Proof.
  intros H. unfold getLineOfSight, unique_lock, scoped, bind, this, emit, ret.
  cbn -[hasLineOfSight]. rewrite H. rewrite hasLineOfSight_run. cbn. reflexivity.
Qed.

Lemma list_find_after_hit (req : LOSRequest.t) (l : list LOSRequest.t) (i : nat)
    (e e' : LOSRequest.t) :
  list_find (fun x => LOSRequest_eq x req) l = Some (i, e) ->
  LOSRequest.mActors e' = LOSRequest.mActors e ->
  list_find (fun x => LOSRequest_eq x req) (<[i := e']> l) = Some (i, e').
Proof.
  intros H He. apply list_find_Some in H as (Hi & HP & Hlt).
  apply list_find_Some. split; [|split].
  - apply list_lookup_insert_eq. eapply lookup_lt_Some, Hi.
  - unfold LOSRequest_eq in *. congruence.
  - intros j y Hj Hji. rewrite list_lookup_insert_ne in Hj by lia. eauto.
Qed.

Lemma list_find_after_miss (req : LOSRequest.t) (l : list LOSRequest.t) (e' : LOSRequest.t) :
  list_find (fun x => LOSRequest_eq x req) l = None ->
  LOSRequest.mActors e' = LOSRequest.mActors req ->
  list_find (fun x => LOSRequest_eq x req) (l ++ [e']) = Some (length l, e').
Proof.
  intros H He. apply list_find_app_Some. right.
  split; [lia|]. split; [exact H|].
  rewrite Nat.sub_diag. cbn. rewrite decide_True; [reflexivity | exact He].
Qed.


(** After any call of [getLineOfSight] the pair is cached with the
    boolean the call returned. *)
Lemma getLineOfSight_caches (w : btCollisionWorld) (actor1 actor2 : shared_ptr)
    (s : PhysicsTaskScheduler) :
  exists i e,
    list_find (fun e => LOSRequest_eq e (LOSRequest_new actor1 actor2))
              (mLOSCache (after (getLineOfSight w actor1 actor2 s))) = Some (i, e)
    /\ LOSRequest.mResult e = result (getLineOfSight w actor1 actor2 s)
    /\ LOSRequest.mAge e = 0.
Proof.
  destruct (list_find (fun e => LOSRequest_eq e (LOSRequest_new actor1 actor2)) (mLOSCache s))
    as [[i e]|] eqn:E.
  - rewrite (getLineOfSight_hit _ _ _ _ _ _ E). cbn.
    exists i, (set_mAge 0 e). split; [|split; reflexivity].
    now apply list_find_after_hit with (e := e).
  - rewrite (getLineOfSight_miss _ _ _ _ E). cbn.
    eexists _, _. split; [|split].
    + now apply list_find_after_miss.
    + reflexivity.
    + reflexivity.
Qed.

(** ** The line-of-sight cache: refresh and eviction *)

Lemma refreshRequest_after (env : Env) (job : Z) (s : PhysicsTaskScheduler)
    (req : LOSRequest.t) :
  mLOSCache s !! Z.to_nat job = Some req ->
  after (refreshRequest env job s) =
  set_mLOSCache
    (<[Z.to_nat job := refreshedRequest env (mLOSCacheExpiry s) req]> (mLOSCache s)) s.
Proof.
  intros H. unfold refreshRequest, bind, this, after. cbn -[hasLineOfSight].
  rewrite H. unfold refreshedRequest.
  destruct (LOSRequest.mAge req >? mLOSCacheExpiry s);
    destruct (liveActors env !! (LOSRequest.mActors req).1);
    destruct (liveActors env !! (LOSRequest.mActors req).2);
    try reflexivity.
  rewrite hasLineOfSight_run. reflexivity.
Qed.

Lemma refreshLOSCache_loop_spec (env : Env) (fuel : nat) :
  forall s : PhysicsTaskScheduler,
    0 <= mNextLOS s ->
    fuel = Z.to_nat (Z.of_nat (length (mLOSCache s)) - mNextLOS s) ->
    result (refreshLOSCache_loop fuel env (Z.of_nat (length (mLOSCache s))) s) = true
    /\ after (refreshLOSCache_loop fuel env (Z.of_nat (length (mLOSCache s))) s)
       = refreshedFrom env s.
Proof.
  induction fuel as [|fuel IH]; intros s Hpos Hfuel.
  - cbn [refreshLOSCache_loop]. unfold bind, this, assign, result, after. cbn.
    destruct (Z.ltb_spec (mNextLOS s) (Z.of_nat (length (mLOSCache s)))) as [Hlt | Hge];
      [lia|]. cbn. split; [reflexivity|].
    unfold refreshedFrom.
    rewrite drop_ge by lia. rewrite take_ge by lia. cbn. rewrite app_nil_r.
    replace (Z.max (mNextLOS s) (Z.of_nat (length (mLOSCache s)))) with (mNextLOS s) by lia.
    now destruct s.
  - cbn [refreshLOSCache_loop]. unfold bind, this, assign, result, after.
    cbn -[refreshRequest refreshLOSCache_loop].
    destruct (Z.ltb_spec (mNextLOS s) (Z.of_nat (length (mLOSCache s)))) as [Hlt | Hge];
      [|lia].
    set (n := Z.to_nat (mNextLOS s)).
    assert (Hn : (n < length (mLOSCache s))%nat) by lia.
    destruct (lookup_lt_is_Some_2 (mLOSCache s) n Hn) as [req Hreq].
    set (s1 := set_mNextLOS (mNextLOS s + 1) s).
    pose proof (refreshRequest_after env (mNextLOS s) s1 req Hreq) as Hr.
    unfold after in Hr. rewrite Hr.
    set (s2 := set_mLOSCache _ s1).
    assert (Hlen : length (mLOSCache s2) = length (mLOSCache s)).
    { subst s2. cbn. now rewrite length_insert. }
    specialize (IH s2). rewrite Hlen in IH.
    destruct IH as [IH1 IH2].
    { subst s2 s1. cbn. lia. }
    { subst s2 s1. cbn. lia. }
    unfold result, after in IH1, IH2.
    split; [exact IH1|]. rewrite IH2.
    unfold refreshedFrom. subst s2 s1. cbn. fold n.
    replace (Z.to_nat (mNextLOS s + 1)) with (S n) by lia.
    rewrite length_insert.
    replace (Z.max (mNextLOS s + 1) (Z.of_nat (length (mLOSCache s))))
      with (Z.max (mNextLOS s) (Z.of_nat (length (mLOSCache s)))) by lia.
    rewrite (insert_take_drop _ n _ Hn).
    set (x' := refreshedRequest env (mLOSCacheExpiry s) req).
    assert (Ht : take (S n) (take n (mLOSCache s) ++ x' :: drop (S n) (mLOSCache s))
                 = take n (mLOSCache s) ++ [x']).
    { rewrite cons_middle, app_assoc. apply take_app_length'.
      rewrite length_app, length_take. cbn. lia. }
    assert (Hd : drop (S n) (take n (mLOSCache s) ++ x' :: drop (S n) (mLOSCache s))
                 = drop (S n) (mLOSCache s)).
    { rewrite cons_middle, app_assoc. apply drop_app_length'.
      rewrite length_app, length_take. cbn. lia. }
    rewrite Ht, Hd. rewrite (drop_S _ _ _ Hreq). cbn [map].
    rewrite <- app_assoc. cbn. now destruct s.
Qed.

Lemma refreshLOSCache_spec (env : Env) (s : PhysicsTaskScheduler) :
  0 <= mNextLOS s ->
  result (refreshLOSCache env s) = true
  /\ after (refreshLOSCache env s) = refreshedFrom env s.
Proof.
  intros Hpos.
  destruct (refreshLOSCache_loop_spec env _ s Hpos eq_refl) as [H1 H2].
  unfold refreshLOSCache, shared_lock, scoped, bind, this, emit, ret, result, after in *.
  cbn -[refreshLOSCache_loop]. split; assumption.
Qed.

Lemma afterPostSim_cache (s : PhysicsTaskScheduler) :
  mLOSCache (after (afterPostSim s)) =
  filter (fun req => LOSRequest.mStale req = false) (mLOSCache s).
Proof. reflexivity. Qed.

Lemma refreshedRequest_fields (env : Env) (expiry : Z) (req : LOSRequest.t) :
  LOSRequest.mActors (refreshedRequest env expiry req) = LOSRequest.mActors req
  /\ LOSRequest.mAge (refreshedRequest env expiry req) = LOSRequest.mAge req + 1
  /\ (LOSRequest.mStale (refreshedRequest env expiry req) = true <->
      LOSRequest.mStale req = true
      \/ expiry < LOSRequest.mAge req
      \/ liveActors env !! (LOSRequest.mActors req).1 = None
      \/ liveActors env !! (LOSRequest.mActors req).2 = None).
Proof.
  unfold refreshedRequest.
  destruct (Z.gtb_spec (LOSRequest.mAge req) expiry) as [Hgt | Hle];
    destruct (liveActors env !! (LOSRequest.mActors req).1) as [a1|];
    destruct (liveActors env !! (LOSRequest.mActors req).2) as [a2|];
    cbn; repeat split; auto; try (intros; right; left; lia);
    try (intros [H | [H | [H | H]]]; (exact H || lia || discriminate)).
Qed.

(** ** The line-of-sight cache: the expiry window *)

Lemma endOfFrame_cache (env : Env) (s : PhysicsTaskScheduler) :
  mLOSCache (endOfFrame env s) =
  filter (fun req => LOSRequest.mStale req = false)
         (map (refreshedRequest env (mLOSCacheExpiry s)) (mLOSCache s))
  /\ mLOSCacheExpiry (endOfFrame env s) = mLOSCacheExpiry s.
Proof.
  unfold endOfFrame.
  destruct (refreshLOSCache_spec env (set_mNextLOS 0 s)) as [_ Hafter]; [cbn; lia|].
  rewrite afterPostSim_cache, Hafter. unfold refreshedFrom. cbn.
  rewrite drop_0. split; reflexivity.
Qed.




(** ** The line-of-sight cache: one request per pair *)

Lemma pairsDistinct_new (getInt : string -> string -> Z) (maxSupportedThreads : Z)
    (physicsDt : Q) :
  pairsDistinct (PhysicsTaskScheduler_new getInt maxSupportedThreads physicsDt).1.
Proof. apply NoDup_nil_2. Qed.

Lemma pairsDistinct_getLineOfSight (w : btCollisionWorld) (actor1 actor2 : shared_ptr)
    (s : PhysicsTaskScheduler) :
  pairsDistinct s -> pairsDistinct (after (getLineOfSight w actor1 actor2 s)).
Proof.
  unfold pairsDistinct. intros Hnd.
  destruct (list_find (fun e => LOSRequest_eq e (LOSRequest_new actor1 actor2)) (mLOSCache s))
    as [[i e]|] eqn:E.
  - rewrite (getLineOfSight_hit _ _ _ _ _ _ E). cbn.
    apply list_find_Some in E as (Hi & _ & _).
    change (map LOSRequest.mActors (<[i:=set_mAge 0 e]> (mLOSCache s)))
      with (LOSRequest.mActors <$> <[i:=set_mAge 0 e]> (mLOSCache s)).
    rewrite list_fmap_insert. cbn.
    rewrite list_insert_id; [exact Hnd|].
    rewrite list_lookup_fmap, Hi. reflexivity.
  - rewrite (getLineOfSight_miss _ _ _ _ E). cbn.
    rewrite map_app. apply NoDup_app. split; [exact Hnd|]. split.
    + intros key Hkey Hin. cbn in Hin. apply list_elem_of_singleton in Hin. subst key.
      apply list_find_None in E. rewrite Forall_forall in E.
      apply list_elem_of_fmap in Hkey as (x & Hx & Hxin).
      apply (E x Hxin). unfold LOSRequest_eq. now rewrite <- Hx.
    + cbn. apply NoDup_singleton.
Qed.

Lemma pairsDistinct_endOfFrame (env : Env) (s : PhysicsTaskScheduler) :
  pairsDistinct s -> pairsDistinct (endOfFrame env s).
Proof.
  unfold pairsDistinct. intros Hnd.
  destruct (endOfFrame_cache env s) as [-> _].
  eapply sublist_NoDup; [exact Hnd|].
  clear Hnd. generalize (mLOSCacheExpiry s). intros expiry.
  induction (mLOSCache s) as [|x l IH]; [cbn; constructor|].
  cbn [map]. rewrite filter_cons.
  pose proof (proj1 (refreshedRequest_fields env expiry x)) as Hk.
  destruct (decide (LOSRequest.mStale (refreshedRequest env expiry x) = false)).
  - cbn [map]. rewrite Hk. now constructor.
  - now constructor.
Qed.


(** * Further properties *)

(** ** More on the step configuration *)

Lemma float_to_int_ceiling (x : Q) : (x <= 0)%Q -> float_to_int x = Qceiling x.
Proof.
  destruct x as [n d]. unfold Qle, float_to_int, Qceiling, Qfloor, Qopp. simpl.
  intros H. assert (Hn : n <= 0) by lia.
  replace n with (- (- n)) at 1 by lia.
  rewrite Z.quot_opp_l by lia. f_equal. apply Z.quot_div_nonneg; lia.
Qed.

Lemma float_to_int_mono (x y : Q) : (x <= y)%Q -> float_to_int x <= float_to_int y.
Proof.
  intros H.
  destruct (Qlt_le_dec x 0) as [Hx | Hx]; destruct (Qlt_le_dec y 0) as [Hy | Hy].
  - rewrite !float_to_int_ceiling by now apply Qlt_le_weak.
    now apply Qceiling_resp_le.
  - rewrite (float_to_int_ceiling x) by now apply Qlt_le_weak.
    pose proof (float_to_int_nonneg y Hy).
    assert (Qceiling x <= Qceiling 0) by (apply Qceiling_resp_le; now apply Qlt_le_weak).
    change (Qceiling 0) with 0 in *. lia.
  - exfalso. lra.
  - rewrite !float_to_int_floor by assumption. now apply Qfloor_resp_le.
Qed.

Lemma Qdiv_le_mono (a b d : Q) : (0 < d)%Q -> (a <= b)%Q -> (a / d <= b / d)%Q.
Proof.
  intros Hd H. unfold Qdiv. apply Qmult_le_compat_r; [exact H|].
  apply Qlt_le_weak, Qinv_lt_0_compat, Hd.
Qed.

Lemma Qinv_le_anti (a b : Q) : (0 < a)%Q -> (a <= b)%Q -> (1 / b <= 1 / a)%Q.
Proof.
  intros Ha H. assert (Hb : (0 < b)%Q) by lra.
  apply Qle_shift_div_l; [exact Ha|].
  assert (E : (1 / b * a == a / b)%Q) by (field; lra).
  rewrite E. apply Qle_shift_div_r; [exact Hb | lra].
Qed.

Lemma std_max_mono_r (c a b : Q) : (a <= b)%Q -> (std_max c a <= std_max c b)%Q.
Proof.
  intros H. unfold std_max.
  destruct (Qltb c a) eqn:Ea; destruct (Qltb c b) eqn:Eb;
    try apply Qltb_lt in Ea; try apply Qltb_lt in Eb;
    try apply Qltb_ge in Ea; try apply Qltb_ge in Eb; lra.
Qed.

Lemma Qdiv_mul_cancel (t d : Q) : (0 < d)%Q -> (t / d * d == t)%Q.
Proof. intros H. rewrite Qmult_comm. apply Qmult_div_r. lra. Qed.

Lemma numSteps_whole_steps (s : PhysicsTaskScheduler) (timeAccum : Q) :
  (0 < mDefaultPhysicsDt s)%Q -> (0 <= timeAccum)%Q ->
  0 <= (calculateStepConfig s timeAccum).1
  /\ (1 <= (calculateStepConfig s timeAccum).1 <-> (mDefaultPhysicsDt s <= timeAccum)%Q)
  /\ ((calculateStepConfig s timeAccum).1 = 0 <-> (timeAccum < mDefaultPhysicsDt s)%Q).
Proof.
  intros Hdt Ht. rewrite numSteps_capped.
  pose proof (maxAllowedSteps_bounds s) as [HM1 HM10].
  set (dt := mDefaultPhysicsDt s) in *.
  assert (Hq : (0 <= timeAccum / dt)%Q) by (apply Qle_shift_div_l; [exact Hdt | lra]).
  pose proof (float_to_int_nonneg _ Hq) as Hn.
  pose proof (float_to_int_le _ Hq) as Hle.
  pose proof (float_to_int_lt _ Hq) as Hlt.
  pose proof (Qdiv_mul_cancel timeAccum dt Hdt) as Hmul.
  assert (Hiff : 1 <= float_to_int (timeAccum / dt) <-> (dt <= timeAccum)%Q).
  { split.
    - intros H1.
      assert (Hone : (inject_Z 1 <= inject_Z (float_to_int (timeAccum / dt)))%Q)
        by (rewrite <- Zle_Qle; exact H1).
      change (inject_Z 1) with 1%Q in Hone.
      assert (H2 : (1 <= timeAccum / dt)%Q) by lra.
      rewrite <- Hmul. 
      assert (H3 : (1 * dt <= timeAccum / dt * dt)%Q)
        by (apply Qmult_le_compat_r; [exact H2 | lra]).
      lra.
    - intros Hge. apply float_to_int_ge; [|lia].
      apply Qle_shift_div_l; [exact Hdt|]. change (inject_Z 1) with 1%Q. lra. }
  split; [lia|]. split.
  - rewrite <- Hiff. lia.
  - split.
    + intros H0. apply Qnot_le_lt. intros Hge. apply Hiff in Hge. lia.
    + intros Hlt'. destruct (Z.le_gt_cases 1 (float_to_int (timeAccum / dt))) as [H1 | H1].
      * apply Hiff in H1. lra.
      * lia.
Qed.

(** X3.  The number of steps is never negative; at least one step is run
    exactly when a whole target step has accumulated, and none exactly
    when less has. *)
Theorem advances_iff_whole_step (s : PhysicsTaskScheduler) (timeAccum : Q) :
  (0 < mDefaultPhysicsDt s)%Q -> (0 <= timeAccum)%Q ->
  0 <= (calculateStepConfig s timeAccum).1
  /\ (1 <= (calculateStepConfig s timeAccum).1 <-> (mDefaultPhysicsDt s <= timeAccum)%Q)
  /\ ((calculateStepConfig s timeAccum).1 = 0 <-> (timeAccum < mDefaultPhysicsDt s)%Q).
Proof. exact (numSteps_whole_steps s timeAccum). Qed.

Lemma advances_iff_whole_step_witness :
  (calculateStepConfig (freshScheduler 4) (1 # 120)).1 = 0
  /\ 1 <= (calculateStepConfig (freshScheduler 4) (1 # 60)).1.
Proof.
  destruct (advances_iff_whole_step (freshScheduler 4) (1 # 120)) as (_ & _ & H0);
    [reflexivity | discriminate |].
  destruct (advances_iff_whole_step (freshScheduler 4) (1 # 60)) as (_ & H1 & _);
    [reflexivity | discriminate |].
  split; [apply H0; reflexivity | apply H1; discriminate].
Defined.

(** X4.  With the same budgets, more accumulated time never gives fewer
    steps. *)
Theorem more_time_never_fewer_steps (s : PhysicsTaskScheduler) (t1 t2 : Q) :
  (0 < mDefaultPhysicsDt s)%Q -> (t1 <= t2)%Q ->
  (calculateStepConfig s t1).1 <= (calculateStepConfig s t2).1.
Proof.
  intros Hdt H. rewrite !numSteps_capped.
  pose proof (float_to_int_mono _ _ (Qdiv_le_mono t1 t2 _ Hdt H)). lia.
Qed.

Lemma more_time_never_fewer_steps_witness :
  mDefaultPhysicsDt (withBudgets (1 # 240) (1 # 600) (freshScheduler 4)) = 1 # 60
  /\ (calculateStepConfig (withBudgets (1 # 240) (1 # 600) (freshScheduler 4)) (1 # 60)).1
     <= (calculateStepConfig (withBudgets (1 # 240) (1 # 600) (freshScheduler 4)) (1 # 20)).1.
Proof.
  split; [reflexivity|].
  apply (more_time_never_fewer_steps (withBudgets (1 # 240) (1 # 600) (freshScheduler 4))
           (1 # 60) (1 # 20)); [reflexivity | discriminate].
Defined.

(** X5.  The step allowance never grows with the measured cost: a
    scheduler whose budget ratio is at least that of another is allowed
    at most as many steps. *)
Theorem costlier_physics_never_more_steps (s1 s2 : PhysicsTaskScheduler) :
  (budgetRatio s1 <= budgetRatio s2)%Q ->
  maxAllowedSteps s2 <= maxAllowedSteps s1.
Proof.
  intros Hr.
  assert (H : (budgetMeasurement s1 <= budgetMeasurement s2)%Q)
    by now apply std_max_mono_r.
  pose proof (saneRatio_pos (budgetRatio s1)) as Hp1.
  fold (budgetMeasurement s1) in Hp1.
  unfold maxAllowedSteps, stepAllowance.
  destruct (Qltb (budgetMeasurement s2) (1 # 2)) eqn:E2.
  - apply Qltb_lt in E2.
    assert (E1 : Qltb (budgetMeasurement s1) (1 # 2) = true) by (apply Qltb_lt; lra).
    rewrite E1.
    pose proof (Qceiling_resp_le _ _ (Qinv_le_anti _ _ Hp1 H)). lia.
  - apply Qltb_ge in E2.
    destruct (Qltb (budgetMeasurement s1) (1 # 2)) eqn:E1.
    + apply Qltb_lt in E1.
      assert (3 <= Qceiling (1 / budgetMeasurement s1)).
      { assert (Hlt : (inject_Z 2 < 1 / budgetMeasurement s1)%Q).
        { apply Qlt_shift_div_l; [exact Hp1|]. change (inject_Z 2) with 2%Q. lra. }
        pose proof (Qle_ceiling (1 / budgetMeasurement s1)) as Hc.
        assert (Hz : (inject_Z 2 < inject_Z (Qceiling (1 / budgetMeasurement s1)))%Q)
          by (eapply Qlt_le_trans; eassumption).
        rewrite <- Zlt_Qlt in Hz. lia. }
      destruct (Qltb (95 # 100) (budgetMeasurement s2)); lia.
    + apply Qltb_ge in E1.
      destruct (Qltb (95 # 100) (budgetMeasurement s2)) eqn:F2; [|].
      * destruct (Qltb (95 # 100) (budgetMeasurement s1)); lia.
      * apply Qltb_ge in F2.
        assert (F1 : Qltb (95 # 100) (budgetMeasurement s1) = false) by (apply Qltb_ge; lra).
        rewrite F1. lia.
Qed.

Lemma costlier_physics_never_more_steps_witness :
  maxAllowedSteps (withBudgets (1 # 240) (1 # 600) (freshScheduler 4)) = 4
  /\ maxAllowedSteps (freshScheduler 4)
     <= maxAllowedSteps (withBudgets (1 # 240) (1 # 600) (freshScheduler 4)).
Proof.
  split; [reflexivity|].
  apply (costlier_physics_never_more_steps
           (withBudgets (1 # 240) (1 # 600) (freshScheduler 4)) (freshScheduler 4)).
  vm_compute. discriminate.
Defined.

(** ** More on the frame submission *)

Lemma finishPreviousFrame_after (U : Q -> Z -> Z -> BudgetMeasurement.t -> BudgetMeasurement.t)
    (a : Q) (s : PhysicsTaskScheduler) :
  after (finishPreviousFrame U a s) = s
  \/ exists b, after (finishPreviousFrame U a s) = set_mAsyncBudget b s.
Proof.
  unfold finishPreviousFrame, bind, this, after. cbn.
  destruct (mNumThreads s =? 0); cbn; [now left|].
  pose proof (forEach_after (mActors s)
    (fun actor => bind (emit (OnObject (get actor) call_updateMechanics))
                   (fun _ => emit (OnObject (get actor) call_updateActor))) s
    (fun _ _ => eq_refl)) as E.
  unfold after, bind, emit in E. cbn in E. rewrite E.
  destruct (mAdvanceSimulation s); cbn; [right; eauto | now left].
Qed.

Lemma applyQueuedMovements_fields
    (U : Q -> Z -> Z -> BudgetMeasurement.t -> BudgetMeasurement.t)
    (timeAccum : Q) (actors : list shared_ptr) (actorsData : list ActorFrameData.t)
    (a : Q) (s : PhysicsTaskScheduler) :
  let s1 := after (finishPreviousFrame U a s) in
  let config := calculateStepConfig s1 timeAccum in
  let s' := after (applyQueuedMovements U timeAccum actors actorsData a s) in
  mRemainingSteps s' = config.1
  /\ mPrevStepCount s' = config.1
  /\ mPhysicsDt s' = config.2
  /\ mAdvanceSimulation s' = negb (config.1 =? 0)
  /\ mBudgetCursor s' = (if config.1 =? 0 then mBudgetCursor s1 else mBudgetCursor s1 + 1)
  /\ mActors s' = actors
  /\ mActorsFrameData s' = actorsData
  /\ mNumJobs s' = Z.of_nat (length actorsData)
  /\ mNewFrame s' = true
  /\ mLOSCache s' = mLOSCache s1
  /\ mCollisionObjects s' = mCollisionObjects s1
  /\ mNumThreads s' = mNumThreads s1
  /\ mThreadSafeBullet s' = mThreadSafeBullet s1
  /\ mLOSCacheExpiry s' = mLOSCacheExpiry s1
  /\ mDefaultPhysicsDt s' = mDefaultPhysicsDt s1.
Proof.
  cbv zeta.
  set (s1 := after (finishPreviousFrame U a s)).
  set (config := calculateStepConfig s1 timeAccum).
  set (s2 := after (forEach actors
    (fun actor => emit (OnObject (get actor) call_frameDataUpdatePosition)) s1)).
  assert (E : s2 = s1) by (apply forEach_after; reflexivity).
  change (after (applyQueuedMovements U timeAccum actors actorsData a s)) with
    {| mDefaultPhysicsDt := mDefaultPhysicsDt s2;
       mPhysicsDt := config.2;
       mTimeAccum := (timeAccum - inject_Z config.1 * config.2)%Q;
       mActors := actors;
       mActorsFrameData := actorsData;
       mCollisionObjects := mCollisionObjects s2;
       mThreadSafeBullet := mThreadSafeBullet s2;
       mNumThreads := mNumThreads s2;
       mNumJobs := Z.of_nat (length actorsData);
       mRemainingSteps := config.1;
       mLOSCacheExpiry := mLOSCacheExpiry s2;
       mNewFrame := true;
       mAdvanceSimulation := negb (config.1 =? 0);
       mNextJob := 0;
       mNextLOS := 0;
       mLOSCache := mLOSCache s2;
       mPrevStepCount := config.1;
       mBudget := mBudget s2;
       mAsyncBudget := mAsyncBudget s2;
       mBudgetCursor :=
         if negb (config.1 =? 0) then mBudgetCursor s2 + 1 else mBudgetCursor s2 |}.
  cbn [mRemainingSteps mPrevStepCount mPhysicsDt mAdvanceSimulation mBudgetCursor mActors
       mActorsFrameData mNumJobs mNewFrame mLOSCache mCollisionObjects mNumThreads
       mThreadSafeBullet mLOSCacheExpiry mDefaultPhysicsDt].
  rewrite E. destruct (config.1 =? 0); cbn [negb]; repeat split; reflexivity.
Qed.

Lemma finishPreviousFrame_keeps (U : Q -> Z -> Z -> BudgetMeasurement.t -> BudgetMeasurement.t)
    (a : Q) (s : PhysicsTaskScheduler) :
  let s1 := after (finishPreviousFrame U a s) in
  mBudgetCursor s1 = mBudgetCursor s
  /\ mNumThreads s1 = mNumThreads s
  /\ mLOSCache s1 = mLOSCache s
  /\ mLOSCacheExpiry s1 = mLOSCacheExpiry s
  /\ mThreadSafeBullet s1 = mThreadSafeBullet s
  /\ mCollisionObjects s1 = mCollisionObjects s
  /\ mBudget s1 = mBudget s.
Proof.
  cbv zeta.
  destruct (finishPreviousFrame_after U a s) as [-> | [b ->]]; repeat split; reflexivity.
Qed.

(** X6.  A frame shorter than one target step is carried over by
    [applyQueuedMovements]: up to the hand-over of the batch, the
    accumulated time is handed back unchanged and stored, no step
    remains, the simulation is not advanced, the step is the target step
    and the budget cursor stays. *)
Theorem short_frame_is_carried_over
    (U : Q -> Z -> Z -> BudgetMeasurement.t -> BudgetMeasurement.t)
    (s : PhysicsTaskScheduler) (timeAccum : Q) (actors : list shared_ptr)
    (actorsData : list ActorFrameData.t) (asyncSeconds : Q) :
  (0 < mDefaultPhysicsDt s)%Q -> (0 <= timeAccum)%Q -> (timeAccum < mDefaultPhysicsDt s)%Q ->
  let submitted := applyQueuedMovements U timeAccum actors actorsData asyncSeconds s in
  ((result submitted).1 == timeAccum)%Q
  /\ (mTimeAccum (after submitted) == timeAccum)%Q
  /\ mRemainingSteps (after submitted) = 0
  /\ mAdvanceSimulation (after submitted) = false
  /\ mPhysicsDt (after submitted) = mDefaultPhysicsDt s
  /\ mBudgetCursor (after submitted) = mBudgetCursor s.
Proof.
  intros Hdt Ht Hlt. cbv zeta.
  destruct (applyQueuedMovements_leftover U timeAccum actors actorsData asyncSeconds s)
    as [E1 E2].
  destruct (applyQueuedMovements_fields U timeAccum actors actorsData asyncSeconds s)
    as (F1 & _ & F3 & F4 & F5 & _).
  destruct (finishPreviousFrame_keeps U asyncSeconds s) as (K1 & _).
  pose proof (finishPreviousFrame_dt U asyncSeconds s) as Kdt.
  set (s1 := after (finishPreviousFrame U asyncSeconds s)) in *.
  assert (Hdt1 : (0 < mDefaultPhysicsDt s1)%Q) by now rewrite Kdt.
  destruct (numSteps_whole_steps s1 timeAccum Hdt1 Ht) as (_ & _ & Hzero).
  assert (Hn : (calculateStepConfig s1 timeAccum).1 = 0) by (apply Hzero; now rewrite Kdt).
  assert (Hd : (calculateStepConfig s1 timeAccum).2 = mDefaultPhysicsDt s).
  { rewrite stepDt_cases.
    rewrite numSteps_capped in Hn. pose proof (maxAllowedSteps_bounds s1).
    destruct (Z.gtb_spec (float_to_int (timeAccum / mDefaultPhysicsDt s1)) (maxAllowedSteps s1));
      [lia | exact Kdt]. }
  rewrite E1, E2, F1, F3, F4, F5, Hn, Hd, K1. cbn.
  repeat split; try reflexivity; ring.
Qed.

Lemma short_frame_is_carried_over_witness :
  mRemainingSteps (after (applyQueuedMovements exampleUpdate (1 # 120) [actorAt 1 0]
                            [exampleFrameData 3 5] (1 # 100) (freshScheduler 4))) = 0
  /\ mAdvanceSimulation (after (applyQueuedMovements exampleUpdate (1 # 120) [actorAt 1 0]
                                  [exampleFrameData 3 5] (1 # 100) (freshScheduler 4))) = false.
Proof.
  destruct (short_frame_is_carried_over exampleUpdate (freshScheduler 4) (1 # 120)
              [actorAt 1 0] [exampleFrameData 3 5] (1 # 100)) as (_ & _ & H & Ha & _);
    [reflexivity | discriminate | reflexivity |].
  split; [exact H | exact Ha].
Defined.

(** X7.  When [applyQueuedMovements] hands the batch over, between 0 and
    10 steps remain, the previous step count equals them, the simulation
    advances exactly when a whole target step accumulated, the step is
    at least the target step, the batch is stored with one job per frame
    datum, the line-of-sight cache and the registered collision objects
    are as before, and the batch is run on the calling thread exactly
    when there is no worker thread. *)
Theorem submission_bookkeeping
    (U : Q -> Z -> Z -> BudgetMeasurement.t -> BudgetMeasurement.t)
    (s : PhysicsTaskScheduler) (timeAccum : Q) (actors : list shared_ptr)
    (actorsData : list ActorFrameData.t) (asyncSeconds : Q) :
  (0 < mDefaultPhysicsDt s)%Q -> (0 <= timeAccum)%Q ->
  let submitted := applyQueuedMovements U timeAccum actors actorsData asyncSeconds s in
  0 <= mRemainingSteps (after submitted) <= 10
  /\ mPrevStepCount (after submitted) = mRemainingSteps (after submitted)
  /\ (mAdvanceSimulation (after submitted) = true <-> (mDefaultPhysicsDt s <= timeAccum)%Q)
  /\ (mDefaultPhysicsDt s <= mPhysicsDt (after submitted))%Q
  /\ mNumJobs (after submitted) = Z.of_nat (length actorsData)
  /\ mActors (after submitted) = actors
  /\ mActorsFrameData (after submitted) = actorsData
  /\ mLOSCache (after submitted) = mLOSCache s
  /\ mCollisionObjects (after submitted) = mCollisionObjects s
  /\ ((result submitted).2 = RunOnCallingThread <-> mNumThreads s = 0).
Proof.
  intros Hdt Ht. cbv zeta.
  destruct (applyQueuedMovements_fields U timeAccum actors actorsData asyncSeconds s)
    as (F1 & F2 & F3 & F4 & _ & F6 & F7 & F8 & _ & F10 & F11 & F12 & _).
  destruct (finishPreviousFrame_keeps U asyncSeconds s) as (_ & K2 & K3 & _ & _ & K6 & _).
  pose proof (finishPreviousFrame_dt U asyncSeconds s) as Kdt.
  set (s1 := after (finishPreviousFrame U asyncSeconds s)) in *.
  assert (Hdt1 : (0 < mDefaultPhysicsDt s1)%Q) by now rewrite Kdt.
  destruct (numSteps_whole_steps s1 timeAccum Hdt1 Ht) as (Hpos & Hone & Hzero).
  assert (Hstep : (mDefaultPhysicsDt s1 <= (calculateStepConfig s1 timeAccum).2)%Q).
  { rewrite stepDt_cases. destruct (_ >? _); [apply std_max_ge_r | apply Qle_refl]. }
  rewrite F1, F2, F3, F4, F6, F7, F8, F10, F11, K3, K6.
  split.
  { split; [exact Hpos|]. rewrite numSteps_capped. pose proof (maxAllowedSteps_bounds s1). lia. }
  split; [reflexivity|]. split.
  { rewrite <- Kdt, <- Hone.
    destruct (Z.eqb_spec (calculateStepConfig s1 timeAccum).1 0) as [E | E]; cbn [negb].
    - split; [discriminate | intros H1; exfalso; lia].
    - split; [intros _; lia | reflexivity]. }
  split; [now rewrite <- Kdt|].
  repeat split; try reflexivity.
  - intros Hrun.
    assert (Hres : (result (applyQueuedMovements U timeAccum actors actorsData asyncSeconds s)).2
                   = if mNumThreads s =? 0 then RunOnCallingThread else WakeWorkers).
    { rewrite <- K2. fold s1. rewrite <- F12. reflexivity. }
    rewrite Hres in Hrun. destruct (Z.eqb_spec (mNumThreads s) 0); [assumption | discriminate].
  - intros Hz.
    assert (Hres : (result (applyQueuedMovements U timeAccum actors actorsData asyncSeconds s)).2
                   = if mNumThreads s =? 0 then RunOnCallingThread else WakeWorkers).
    { rewrite <- K2. fold s1. rewrite <- F12. reflexivity. }
    rewrite Hres, Hz. reflexivity.
Qed.

Lemma submission_bookkeeping_witness :
  mAdvanceSimulation (after (applyQueuedMovements exampleUpdate (1 # 10) [actorAt 1 0]
                               [exampleFrameData 3 5] (1 # 100) (freshScheduler 4))) = true
  /\ mNumJobs (after (applyQueuedMovements exampleUpdate (1 # 10) [actorAt 1 0]
                        [exampleFrameData 3 5] (1 # 100) (freshScheduler 4))) = 1.
Proof.
  destruct (submission_bookkeeping exampleUpdate (freshScheduler 4) (1 # 10)
              [actorAt 1 0] [exampleFrameData 3 5] (1 # 100))
    as (_ & _ & Ha & _ & Hj & _); [reflexivity | discriminate |].
  split; [apply Ha; discriminate | exact Hj].
Defined.

(** ** Falls *)

(** X11.  [handleFall] never raises the fall height and never clears
    the landing flag.  When the actor is still on the ground, flies, is
    under water or falls slowly, the landing flag is set and the fall
    height stays; otherwise the flag stays and a descent is added to
    the fall height while a rise changes nothing.  Position and old
    height are not touched. *)
Theorem handleFall_accumulates_descent (actorData : ActorFrameData.t)
    (simulationPerformed : bool) :
  let after_fall := handleFall actorData simulationPerformed in
  let heightDiff :=
    ((ActorFrameData.mPosition actorData).2 - ActorFrameData.mOldHeight actorData)%Q in
  let landing :=
    simulationPerformed && ActorFrameData.mWasOnGround actorData
      && ActorFrameData.mIsOnGround actorData
    || ActorFrameData.mFlying actorData
    || isUnderWater actorData
    || Qltb (ActorFrameData.mSlowFall actorData) 1 in
  (ActorFrameData.mFallHeight after_fall <= ActorFrameData.mFallHeight actorData)%Q
  /\ (ActorFrameData.mNeedLand actorData = true ->
      ActorFrameData.mNeedLand after_fall = true)
  /\ (landing = true ->
      ActorFrameData.mNeedLand after_fall = true
      /\ ActorFrameData.mFallHeight after_fall = ActorFrameData.mFallHeight actorData)
  /\ (landing = false ->
      ActorFrameData.mNeedLand after_fall = ActorFrameData.mNeedLand actorData
      /\ ((heightDiff < 0)%Q ->
          ActorFrameData.mFallHeight after_fall
          = (ActorFrameData.mFallHeight actorData + heightDiff)%Q)
      /\ ((0 <= heightDiff)%Q ->
          ActorFrameData.mFallHeight after_fall = ActorFrameData.mFallHeight actorData))
  /\ ActorFrameData.mPosition after_fall = ActorFrameData.mPosition actorData
  /\ ActorFrameData.mOldHeight after_fall = ActorFrameData.mOldHeight actorData.
Proof.
  cbv zeta. unfold handleFall. cbn.
  set (landing := _ || Qltb (ActorFrameData.mSlowFall actorData) 1).
  set (h := ((ActorFrameData.mPosition actorData).2 - ActorFrameData.mOldHeight actorData)%Q).
  destruct landing; cbn.
  - repeat split; try reflexivity; try discriminate. apply Qle_refl.
  - destruct (Qltb h 0) eqn:E.
    + apply Qltb_lt in E. repeat split; try reflexivity; try discriminate; try tauto.
      * lra.
      * intros Hge. exfalso. lra.
    + apply Qltb_ge in E. repeat split; try reflexivity; try discriminate; try tauto.
      * apply Qle_refl.
      * intros Hlt. exfalso. lra.
Qed.

(** ** Registered collision objects *)

(** X12.  [getUserPointer] answers the null pointer for an object that
    is not registered, the user pointer of the object once
    [addCollisionObject] registered it, and the null pointer again after
    [removeCollisionObject]; registering or removing one object does not
    change the answer for another, removing after adding restores the
    registered set, and the lookup itself changes nothing and takes no
    lock. *)
Theorem getUserPointer_registered_only (userPointerOf : positive -> option positive)
    (object other : positive) (group mask : Z) (s : PhysicsTaskScheduler) :
  (object ∉ mCollisionObjects s ->
     result (getUserPointer userPointerOf object s) = None)
  /\ result (getUserPointer userPointerOf object
               (after (addCollisionObject object group mask s))) = userPointerOf object
  /\ result (getUserPointer userPointerOf object
               (after (removeCollisionObject object s))) = None
  /\ (other <> object ->
      result (getUserPointer userPointerOf other
                (after (addCollisionObject object group mask s)))
      = result (getUserPointer userPointerOf other s)
      /\ result (getUserPointer userPointerOf other
                   (after (removeCollisionObject object s)))
         = result (getUserPointer userPointerOf other s))
  /\ (object ∉ mCollisionObjects s ->
      mCollisionObjects (after (removeCollisionObject object
                                  (after (addCollisionObject object group mask s))))
      = mCollisionObjects s)
  /\ after (getUserPointer userPointerOf object s) = s
  /\ trace (getUserPointer userPointerOf object s) = [].
Proof.
  unfold getUserPointer, addCollisionObject, removeCollisionObject, unique_lock, scoped,
    result, after, trace, bind, this, assign, emit, ret. cbn.
  split; [intros H; now rewrite decide_False|].
  split; [rewrite decide_True by set_solver; reflexivity|].
  split; [rewrite decide_False by set_solver; reflexivity|].
  split.
  { intros Hne. split.
    - destruct (decide (other ∈ mCollisionObjects s)).
      + rewrite decide_True by set_solver. reflexivity.
      + rewrite decide_False by set_solver. reflexivity.
    - destruct (decide (other ∈ mCollisionObjects s)).
      + rewrite decide_True by set_solver. reflexivity.
      + rewrite decide_False by set_solver. reflexivity. }
  split; [intros H; apply set_eq; set_solver|].
  split; now destruct (decide (object ∈ mCollisionObjects s)).
Qed.

(** ** More on the line-of-sight cache *)

Lemma refreshRequest_trace (env : Env) (job : Z) (s : PhysicsTaskScheduler)
    (req : LOSRequest.t) :
  mLOSCache s !! Z.to_nat job = Some req ->
  trace (refreshRequest env job s) =
  requestEvents env (mLOSCacheExpiry s) (mThreadSafeBullet s) req.
Proof.
  intros H. unfold refreshRequest, bind, this, trace. cbn -[hasLineOfSight].
  rewrite H. unfold requestEvents, refreshable.
  destruct (LOSRequest.mAge req >? mLOSCacheExpiry s);
    destruct (liveActors env !! (LOSRequest.mActors req).1) as [a1|];
    destruct (liveActors env !! (LOSRequest.mActors req).2) as [a2|];
    try reflexivity.
  rewrite hasLineOfSight_run. cbn.
  now destruct (mThreadSafeBullet s).
Qed.

Lemma refreshLOSCache_loop_trace (env : Env) (fuel : nat) :
  forall s : PhysicsTaskScheduler,
    0 <= mNextLOS s ->
    fuel = Z.to_nat (Z.of_nat (length (mLOSCache s)) - mNextLOS s) ->
    trace (refreshLOSCache_loop fuel env (Z.of_nat (length (mLOSCache s))) s)
    = concat (map (requestEvents env (mLOSCacheExpiry s) (mThreadSafeBullet s))
                  (drop (Z.to_nat (mNextLOS s)) (mLOSCache s))).
Proof.
  induction fuel as [|fuel IH]; intros s Hpos Hfuel.
  - cbn [refreshLOSCache_loop]. unfold bind, this, assign, trace. cbn.
    destruct (Z.ltb_spec (mNextLOS s) (Z.of_nat (length (mLOSCache s)))) as [Hlt | Hge];
      [lia|]. cbn. rewrite drop_ge by lia. reflexivity.
  - cbn [refreshLOSCache_loop]. unfold bind, this, assign, trace.
    cbn -[refreshRequest refreshLOSCache_loop].
    destruct (Z.ltb_spec (mNextLOS s) (Z.of_nat (length (mLOSCache s)))) as [Hlt | Hge];
      [|lia].
    set (n := Z.to_nat (mNextLOS s)).
    assert (Hn : (n < length (mLOSCache s))%nat) by lia.
    destruct (lookup_lt_is_Some_2 (mLOSCache s) n Hn) as [req Hreq].
    set (s1 := set_mNextLOS (mNextLOS s + 1) s).
    pose proof (refreshRequest_after env (mNextLOS s) s1 req Hreq) as Hr.
    pose proof (refreshRequest_trace env (mNextLOS s) s1 req Hreq) as Ht.
    unfold after in Hr. unfold trace in Ht. rewrite Hr, Ht.
    set (s2 := set_mLOSCache _ s1).
    assert (Hlen : length (mLOSCache s2) = length (mLOSCache s)).
    { subst s2. cbn. now rewrite length_insert. }
    specialize (IH s2). rewrite Hlen in IH. unfold trace in IH.
    rewrite IH by (subst s2 s1; cbn; lia).
    subst s2 s1. cbn. fold n.
    replace (Z.to_nat (mNextLOS s + 1)) with (S n) by lia.
    rewrite drop_insert_lt by lia.
    rewrite (drop_S _ _ _ Hreq). reflexivity.
Qed.

Lemma refreshLOSCache_trace (env : Env) (s : PhysicsTaskScheduler) :
  0 <= mNextLOS s ->
  trace (refreshLOSCache env s) =
  Acquire mLOSCacheMutex Shared
  :: concat (map (requestEvents env (mLOSCacheExpiry s) (mThreadSafeBullet s))
                 (drop (Z.to_nat (mNextLOS s)) (mLOSCache s)))
  ++ [Release mLOSCacheMutex Shared].
Proof.
  intros Hpos.
  pose proof (refreshLOSCache_loop_trace env _ s Hpos eq_refl) as H.
  unfold refreshLOSCache, shared_lock, scoped, bind, this, emit, ret, trace in *.
  cbn -[refreshLOSCache_loop]. rewrite H. rewrite ?app_nil_r. reflexivity.
Qed.

Lemma countCalls_app (c : WorldCall) (t1 t2 : list Event) :
  countCalls c (t1 ++ t2) = (countCalls c t1 + countCalls c t2)%nat.
Proof.
  induction t1 as [|e t1 IH]; [reflexivity|].
  destruct e; cbn; try exact IH. destruct (decide (c0 = c)); cbn; now rewrite IH.
Qed.

Lemma countCalls_requests (env : Env) (expiry : Z) (b : bool) (l : list LOSRequest.t) :
  countCalls call_rayTest (concat (map (requestEvents env expiry b) l))
  = length (filter (fun req => refreshable env expiry req = true) l).
Proof.
  induction l as [|req l IH]; [reflexivity|].
  cbn [map concat]. rewrite countCalls_app, IH, filter_cons.
  unfold requestEvents. destruct (refreshable env expiry req) eqn:E.
  - rewrite decide_True by reflexivity. reflexivity.
  - rewrite decide_False by discriminate. reflexivity.
Qed.

(** X13.  A whole pass of [refreshLOSCache] performs exactly one ray
    test for each cached request whose age is within the expiry and
    whose two actors are alive, hence at most one per cached request. *)
Theorem refresh_ray_tests (env : Env) (s : PhysicsTaskScheduler) :
  mNextLOS s = 0 ->
  countCalls call_rayTest (trace (refreshLOSCache env s))
  = length (filter (fun req => refreshable env (mLOSCacheExpiry s) req = true) (mLOSCache s))
  /\ (countCalls call_rayTest (trace (refreshLOSCache env s)) <= length (mLOSCache s))%nat.
Proof.
  intros H0.
  rewrite refreshLOSCache_trace by lia. rewrite H0. cbn [Z.to_nat drop countCalls].
  rewrite countCalls_app, countCalls_requests. cbn. rewrite Nat.add_0_r.
  split; [reflexivity | apply length_filter].
Qed.

Lemma refresh_ray_tests_witness :
  countCalls call_rayTest
    (trace (refreshLOSCache (exampleEnv openWorld)
              (set_mLOSCache agedCache (freshScheduler 4)))) = 1%nat.
Proof.
  rewrite (proj1 (refresh_ray_tests (exampleEnv openWorld)
                    (set_mLOSCache agedCache (freshScheduler 4)) eq_refl)).
  vm_compute. reflexivity.
Defined.

Lemma refreshedFrom_done (env : Env) (s : PhysicsTaskScheduler) :
  Z.of_nat (length (mLOSCache s)) <= mNextLOS s ->
  mLOSCache (refreshedFrom env s) = mLOSCache s.
Proof.
  intros H. unfold refreshedFrom. cbn.
  rewrite take_ge, drop_ge by lia. cbn. apply app_nil_r.
Qed.

Lemma refreshedFrom_whole (env : Env) (s : PhysicsTaskScheduler) :
  mNextLOS s = 0 ->
  mLOSCache (refreshedFrom env s)
  = map (refreshedRequest env (mLOSCacheExpiry s)) (mLOSCache s)
  /\ mNextLOS (refreshedFrom env s) = Z.of_nat (length (mLOSCache s)) + 1.
Proof.
  intros H. unfold refreshedFrom. rewrite H.
  change (Z.to_nat 0) with 0%nat. rewrite take_0, drop_0. cbn. split; [reflexivity | lia].
Qed.

(** X14.  A second [refreshLOSCache] in the same frame, whatever the
    surroundings, finds the cursor past the end: it only takes and
    releases the shared cache lock and leaves every request as the
    first pass left it. *)
Theorem refresh_once_per_frame (env env' : Env) (s : PhysicsTaskScheduler) :
  mNextLOS s = 0 ->
  let first := refreshLOSCache env s in
  let second := refreshLOSCache env' (after first) in
  mLOSCache (after second) = mLOSCache (after first)
  /\ result second = true
  /\ trace second = [Acquire mLOSCacheMutex Shared; Release mLOSCacheMutex Shared].
Proof.
  intros H0. cbv zeta.
  destruct (refreshLOSCache_spec env s) as [_ Hafter]; [lia|].
  set (s1 := after (refreshLOSCache env s)) in *.
  destruct (refreshedFrom_whole env s H0) as [Hc Hn].
  assert (Hlen : length (mLOSCache s1) = length (mLOSCache s)).
  { rewrite Hafter, Hc. apply length_map. }
  assert (Hnext : mNextLOS s1 = Z.of_nat (length (mLOSCache s1)) + 1).
  { rewrite Hlen, Hafter. exact Hn. }
  destruct (refreshLOSCache_spec env' s1) as [Hres Hafter']; [lia|].
  split; [|split].
  - rewrite Hafter'. apply refreshedFrom_done. lia.
  - exact Hres.
  - rewrite refreshLOSCache_trace by lia. rewrite drop_ge by lia. reflexivity.
Qed.

Lemma refresh_once_per_frame_witness :
  trace (refreshLOSCache (exampleEnv blockedWorld)
           (after (refreshLOSCache (exampleEnv openWorld)
                     (set_mLOSCache agedCache (freshScheduler 4)))))
  = [Acquire mLOSCacheMutex Shared; Release mLOSCacheMutex Shared].
Proof.
  apply (refresh_once_per_frame (exampleEnv openWorld) (exampleEnv blockedWorld)
           (set_mLOSCache agedCache (freshScheduler 4)) eq_refl).
Defined.

Lemma refreshable_spec (env : Env) (expiry : Z) (req : LOSRequest.t) :
  refreshable env expiry req = true <->
  LOSRequest.mAge req <= expiry
  /\ bothAlive (LOSRequest.mActors req) env.
Proof.
  unfold refreshable, bothAlive.
  rewrite !andb_true_iff, negb_true_iff, !bool_decide_eq_true.
  destruct (Z.gtb_spec (LOSRequest.mAge req) expiry); split; intros;
    intuition (try lia; try discriminate).
Qed.

Lemma refreshedRequest_fresh (env : Env) (expiry : Z) (req : LOSRequest.t) :
  LOSRequest.mStale (refreshedRequest env expiry req) = false <->
  LOSRequest.mStale req = false /\ refreshable env expiry req = true.
Proof.
  rewrite refreshable_spec. unfold bothAlive.
  destruct (refreshedRequest_fields env expiry req) as (_ & _ & Hst).
  rewrite <- !not_eq_None_Some.
  destruct (LOSRequest.mStale (refreshedRequest env expiry req)) eqn:E.
  - split; [discriminate|]. intros (H1 & H2 & H3 & H4).
    destruct (proj1 Hst eq_refl) as [H | [H | [H | H]]]; (congruence || lia).
  - split; [|reflexivity]. intros _.
    assert (Hn : ~ (LOSRequest.mStale req = true
                    \/ expiry < LOSRequest.mAge req
                    \/ liveActors env !! (LOSRequest.mActors req).1 = None
                    \/ liveActors env !! (LOSRequest.mActors req).2 = None)).
    { intros H. apply Hst in H. congruence. }
    repeat split.
    + destruct (LOSRequest.mStale req); [exfalso; apply Hn; now left | reflexivity].
    + destruct (Z.le_gt_cases (LOSRequest.mAge req) expiry); [assumption|].
      exfalso. apply Hn. right. left. lia.
    + intros H. apply Hn. tauto.
    + intros H. apply Hn. tauto.
Qed.

Lemma endOfFrame_fresh (env : Env) (s : PhysicsTaskScheduler) :
  Forall (fun req =>
            LOSRequest.mStale req = false
            /\ LOSRequest.mAge req <= mLOSCacheExpiry s + 1
            /\ bothAlive (LOSRequest.mActors req) env)
         (mLOSCache (endOfFrame env s))
  /\ (length (mLOSCache (endOfFrame env s)) <= length (mLOSCache s))%nat
  /\ mLOSCacheExpiry (endOfFrame env s) = mLOSCacheExpiry s.
Proof.
  destruct (endOfFrame_cache env s) as [Hc He].
  split; [|split; [|exact He]].
  - rewrite Hc. apply Forall_forall. intros req' Hin.
    apply list_elem_of_filter in Hin as [Hfresh Hin].
    apply list_elem_of_fmap in Hin as (req & -> & Hreq).
    destruct (proj1 (refreshedRequest_fresh env (mLOSCacheExpiry s) req) Hfresh) as [_ Hr].
    apply refreshable_spec in Hr as [Hage Halive].
    destruct (refreshedRequest_fields env (mLOSCacheExpiry s) req) as (Hk & Ha & _).
    rewrite Ha, Hk. split; [exact Hfresh|]. split; [lia | exact Halive].
  - rewrite Hc. etransitivity; [apply length_filter|]. now rewrite length_map.
Qed.

(** X15.  After the refresh pass and [afterPostSim] of a frame every
    request left in the cache is not stale, has an age of at most the
    expiry plus one, and both its actors are alive; the cache has not
    grown and the expiry is unchanged. *)
Theorem frame_end_leaves_live_fresh_requests (env : Env) (s : PhysicsTaskScheduler) :
  Forall (fun req =>
            LOSRequest.mStale req = false
            /\ LOSRequest.mAge req <= mLOSCacheExpiry s + 1
            /\ bothAlive (LOSRequest.mActors req) env)
         (mLOSCache (endOfFrame env s))
  /\ (length (mLOSCache (endOfFrame env s)) <= length (mLOSCache s))%nat
  /\ mLOSCacheExpiry (endOfFrame env s) = mLOSCacheExpiry s.
Proof. exact (endOfFrame_fresh env s). Qed.

Lemma getLineOfSight_keeps (w : btCollisionWorld) (actor1 actor2 : shared_ptr)
    (s : PhysicsTaskScheduler) :
  after (getLineOfSight w actor1 actor2 s)
  = set_mLOSCache (mLOSCache (after (getLineOfSight w actor1 actor2 s))) s.
Proof.
  destruct (list_find (fun e => LOSRequest_eq e (LOSRequest_new actor1 actor2)) (mLOSCache s))
    as [[i e]|] eqn:E.
  - now rewrite (getLineOfSight_hit _ _ _ _ _ _ E).
  - now rewrite (getLineOfSight_miss _ _ _ _ E).
Qed.

Lemma pairsDistinct_unique (s : PhysicsTaskScheduler) (x y : LOSRequest.t) :
  pairsDistinct s -> x ∈ mLOSCache s -> y ∈ mLOSCache s ->
  LOSRequest.mActors x = LOSRequest.mActors y -> x = y.
Proof.
  intros Hnd Hx Hy Hk.
  apply list_elem_of_lookup in Hx as [i Hi], Hy as [j Hj].
  assert (i = j).
  { eapply NoDup_lookup; [exact Hnd| |].
    - rewrite list_lookup_fmap, Hi. reflexivity.
    - rewrite list_lookup_fmap, Hj. cbn. now rewrite Hk. }
  subst. congruence.
Qed.

Lemma endOfFrames_survivor (envs : list Env) :
  forall (s : PhysicsTaskScheduler) (req' : LOSRequest.t),
    req' ∈ mLOSCache (endOfFrames envs s) ->
    exists req,
      req ∈ mLOSCache s
      /\ LOSRequest.mActors req' = LOSRequest.mActors req
      /\ LOSRequest.mAge req' = LOSRequest.mAge req + Z.of_nat (length envs)
      /\ (envs <> [] -> LOSRequest.mAge req' <= mLOSCacheExpiry s + 1).
Proof.
  induction envs as [|env envs IH]; intros s req' Hin.
  - exists req'. cbn in *. repeat split; [assumption | lia | congruence].
  - cbn [endOfFrames] in Hin.
    destruct (IH _ _ Hin) as (req1 & Hin1 & Hk1 & Ha1 & Hb1).
    destruct (endOfFrame_cache env s) as [Hc He].
    rewrite Hc in Hin1.
    apply list_elem_of_filter in Hin1 as [Hfresh Hin1].
    apply list_elem_of_fmap in Hin1 as (req & -> & Hreq).
    destruct (proj1 (refreshedRequest_fresh env (mLOSCacheExpiry s) req) Hfresh) as [_ Hr].
    apply refreshable_spec in Hr as [Hage _].
    destruct (refreshedRequest_fields env (mLOSCacheExpiry s) req) as (Hk & Ha & _).
    exists req. split; [exact Hreq|]. split; [congruence|].
    cbn [length]. split; [lia|]. intros _.
    destruct envs as [|env2 envs2].
    + cbn in Ha1. lia.
    + rewrite <- He. apply Hb1. discriminate.
Qed.

Lemma endOfFrames_recompute (w w' : btCollisionWorld) (actor1 actor2 : shared_ptr)
    (envs : list Env) (s : PhysicsTaskScheduler) :
  pairsDistinct s ->
  envs <> [] ->
  mLOSCacheExpiry s + 1 < Z.of_nat (length envs) ->
  let first := getLineOfSight w actor1 actor2 s in
  let second := getLineOfSight w' actor1 actor2 (endOfFrames envs (after first)) in
  countCalls call_rayTest (trace second) = 1%nat
  /\ result second = clearLine w' (pointee actor1) (pointee actor2).
Proof.
  intros Hnd Hne Hlen. cbv zeta.
  set (s1 := after (getLineOfSight w actor1 actor2 s)).
  assert (Hnd1 : pairsDistinct s1) by now apply pairsDistinct_getLineOfSight.
  assert (Hexp : mLOSCacheExpiry s1 = mLOSCacheExpiry s).
  { subst s1. now rewrite getLineOfSight_keeps. }
  destruct (getLineOfSight_caches w actor1 actor2 s) as (i & e & Hf & _ & Hage).
  fold s1 in Hf. apply list_find_Some in Hf as (Hi & Hke & _).
  assert (Hmiss : list_find (fun x => LOSRequest_eq x (LOSRequest_new actor1 actor2))
                            (mLOSCache (endOfFrames envs s1)) = None).
  { apply list_find_None, Forall_forall. intros req' Hin Hk'.
    destruct (endOfFrames_survivor envs s1 req' Hin) as (req & Hreq & Hk & Ha & Hb).
    assert (req = e).
    { apply (pairsDistinct_unique s1); [exact Hnd1 | exact Hreq | |].
      - apply list_elem_of_lookup. eauto.
      - unfold LOSRequest_eq in *. congruence. }
    subst req. specialize (Hb Hne). lia. }
  rewrite (getLineOfSight_miss w' actor1 actor2 (endOfFrames envs s1) Hmiss). cbn.
  split; [|reflexivity].
  match goal with |- context [if ?b then _ else _] => now destruct b end.
Qed.

(** X17.  For a pair that is not cached, [getLineOfSight] performs
    exactly one ray test, under the exclusive cache lock and one lock on
    the collision world (shared when the collision world supports
    multithreading), answers what the world says, and appends the
    request with that answer to the cache. *)
Theorem getLineOfSight_miss_asks_world (w : btCollisionWorld) (actor1 actor2 : shared_ptr)
    (s : PhysicsTaskScheduler) :
  (forall e, e ∈ mLOSCache s -> ~ LOSRequest_eq e (LOSRequest_new actor1 actor2)) ->
  let call := getLineOfSight w actor1 actor2 s in
  let lockKind := if mThreadSafeBullet s then Shared else Exclusive in
  result call = clearLine w (pointee actor1) (pointee actor2)
  /\ countCalls call_rayTest (trace call) = 1%nat
  /\ worldLocks call = [lockKind]
  /\ locksOn mLOSCacheMutex (trace call) = [Exclusive]
  /\ mLOSCache (after call)
     = mLOSCache s ++ [set_mResult (result call) (LOSRequest_new actor1 actor2)].
Proof.
  intros Hnone. cbv zeta.
  assert (Hmiss : list_find (fun x => LOSRequest_eq x (LOSRequest_new actor1 actor2))
                            (mLOSCache s) = None).
  { apply list_find_None, Forall_forall. exact Hnone. }
  rewrite (getLineOfSight_miss _ _ _ _ Hmiss). unfold worldLocks. cbn.
  destruct (mThreadSafeBullet s); repeat split; reflexivity.
Qed.

Lemma getLineOfSight_miss_asks_world_witness :
  worldLocks (getLineOfSight blockedWorld (actorAt 1 0) (actorAt 3 9)
                (set_mLOSCache [exampleRequest 1 2 true 0] (freshScheduler 1))) = [Exclusive]
  /\ result (getLineOfSight blockedWorld (actorAt 1 0) (actorAt 3 9)
               (set_mLOSCache [exampleRequest 1 2 true 0] (freshScheduler 1))) = false.
Proof.
  destruct (getLineOfSight_miss_asks_world blockedWorld (actorAt 1 0) (actorAt 3 9)
              (set_mLOSCache [exampleRequest 1 2 true 0] (freshScheduler 1)))
    as (Hr & _ & Hl & _).
  - intros e He. apply list_elem_of_singleton in He as ->. discriminate.
  - split; [exact Hl | rewrite Hr; reflexivity].
Defined.

(** X18.  [getLineOfSight] changes nothing but the cache; the cache
    grows by at most one request, and every request cached before keeps
    its place, its pair, its result and its stale flag, its age being
    kept or put back to 0. *)
Theorem getLineOfSight_keeps_cached_results (w : btCollisionWorld)
    (actor1 actor2 : shared_ptr) (s : PhysicsTaskScheduler) :
  let call := getLineOfSight w actor1 actor2 s in
  after call = set_mLOSCache (mLOSCache (after call)) s
  /\ (length (mLOSCache s) <= length (mLOSCache (after call)) <= length (mLOSCache s) + 1)%nat
  /\ (forall i e, mLOSCache s !! i = Some e ->
        exists e', mLOSCache (after call) !! i = Some e'
                   /\ LOSRequest.mActors e' = LOSRequest.mActors e
                   /\ LOSRequest.mResult e' = LOSRequest.mResult e
                   /\ LOSRequest.mStale e' = LOSRequest.mStale e
                   /\ (LOSRequest.mAge e' = LOSRequest.mAge e \/ LOSRequest.mAge e' = 0)).
Proof.
  cbv zeta. split; [apply getLineOfSight_keeps|].
  destruct (list_find (fun e => LOSRequest_eq e (LOSRequest_new actor1 actor2)) (mLOSCache s))
    as [[j e0]|] eqn:E.
  - rewrite (getLineOfSight_hit _ _ _ _ _ _ E). cbn.
    rewrite length_insert. split; [lia|]. intros i e Hi.
    apply list_find_Some in E as (Hj & _ & _).
    destruct (decide (i = j)) as [-> | Hne].
    + exists (set_mAge 0 e0). rewrite list_lookup_insert_eq by (eapply lookup_lt_Some; eauto).
      assert (e0 = e) by congruence. subst. cbn. auto 10.
    + exists e. rewrite list_lookup_insert_ne by congruence. auto 10.
  - rewrite (getLineOfSight_miss _ _ _ _ E). cbn.
    rewrite length_app. cbn. split; [lia|]. intros i e Hi.
    exists e. rewrite lookup_app_l by (eapply lookup_lt_Some; eauto). auto 10.
Qed.

(** ** Lock discipline *)

Lemma locksHeld_requests (env : Env) (expiry : Z) (b : bool) (held : list (Mutex * LockKind))
    (l : list LOSRequest.t) (rest : list Event) :
  mCollisionWorldMutex ∉ map fst held ->
  locksHeld held (concat (map (requestEvents env expiry b) l) ++ rest) = locksHeld held rest.
Proof.
  intros Hfree. induction l as [|req l IH]; [reflexivity|].
  cbn [map concat]. rewrite <- app_assoc. unfold requestEvents at 1.
  destruct (refreshable env expiry req); [|exact IH].
  cbn [app locksHeld map fst].
  rewrite (bool_decide_eq_false_2 _ Hfree). cbn [orb].
  rewrite bool_decide_eq_true_2 by (apply list_elem_of_here).
  rewrite bool_decide_eq_true_2 by reflexivity. exact IH.
Qed.

Lemma locksHeld_objects (f : shared_ptr -> list Event) (held : list (Mutex * LockKind))
    (actors : list shared_ptr) (rest : list Event) :
  (forall actor, Forall (fun e => exists p c, e = OnObject p c) (f actor)) ->
  locksHeld held (concat (map f actors) ++ rest) = locksHeld held rest.
Proof.
  intros Hf. induction actors as [|actor actors IH]; [reflexivity|].
  cbn [map concat]. rewrite <- app_assoc.
  specialize (Hf actor). induction Hf as [|e es (p & c & ->) _ IHes]; [exact IH|].
  exact IHes.
Qed.

Lemma resetSimulation_trace (actors : list shared_ptr) (s : PhysicsTaskScheduler) :
  trace (resetSimulation actors s) =
  Acquire mSimulationMutex Exclusive
  :: concat (map (fun actor => [OnObject (get actor) call_updatePosition;
                                OnObject (get actor) call_updateCollisionObjectPosition])
                 actors)
  ++ [Release mSimulationMutex Exclusive].
Proof.
  unfold resetSimulation, unique_lock, scoped.
  unfold trace, bind, assign, emit, ret. cbn.
  pose proof (forEach_emit_trace actors
    (fun actor => [OnObject (get actor) call_updatePosition;
                   OnObject (get actor) call_updateCollisionObjectPosition])) as E.
  unfold bind, emit in *. cbn in E.
  rewrite E. cbn. reflexivity.
Qed.

(** X20.  Every accessor of the collision world, [getLineOfSight],
    [resetSimulation], [refreshLOSCache] and [afterPostSim] keeps the
    lock discipline: no mutex is taken twice, none is taken while the
    collision-world mutex is held, locks are released in the reverse
    order, the collision world is only called with its mutex held, and
    no lock is held on return. *)
Theorem calls_keep_lock_discipline (env : Env) (s : PhysicsTaskScheduler) :
  0 <= mNextLOS s ->
  (forall from to, disciplined (rayTest from to s))
  /\ (forall shape from to, disciplined (convexSweepTest shape from to s))
  /\ (forall obj, disciplined (contactTest obj s))
  /\ (forall from target, disciplined (getHitPoint (mCollisionWorld env) from target s))
  /\ (forall lo hi, disciplined (aabbTest lo hi s))
  /\ (forall obj, disciplined (getAabb obj s))
  /\ (forall obj mask, disciplined (setCollisionFilterMask obj mask s))
  /\ (forall obj group mask, disciplined (addCollisionObject obj group mask s))
  /\ (forall obj, disciplined (removeCollisionObject obj s))
  /\ (forall ptr kind, disciplined (updatePtrAabb ptr kind s))
  /\ disciplined (debugDraw s)
  /\ (forall a1 a2, disciplined (hasLineOfSight (mCollisionWorld env) a1 a2 s))
  /\ (forall a1 a2, disciplined (getLineOfSight (mCollisionWorld env) a1 a2 s))
  /\ (forall actors, disciplined (resetSimulation actors s))
  /\ disciplined (refreshLOSCache env s)
  /\ disciplined (afterPostSim s).
Proof.
  intros Hpos. unfold disciplined.
  repeat match goal with |- _ /\ _ => split end.
  - intros. unfold rayTest, MaybeSharedLock, bind, this. cbn. now destruct (mThreadSafeBullet s).
  - intros. unfold convexSweepTest, MaybeSharedLock, bind, this. cbn.
    now destruct (mThreadSafeBullet s).
  - reflexivity.
  - intros. unfold getHitPoint, MaybeSharedLock, bind, this. cbn.
    now destruct (mThreadSafeBullet s).
  - reflexivity.
  - reflexivity.
  - reflexivity.
  - reflexivity.
  - reflexivity.
  - intros ptr []; reflexivity.
  - reflexivity.
  - intros. rewrite hasLineOfSight_run. cbn. now destruct (mThreadSafeBullet s).
  - intros a1 a2.
    destruct (list_find (fun e => LOSRequest_eq e (LOSRequest_new a1 a2)) (mLOSCache s))
      as [[i e]|] eqn:E.
    + now rewrite (getLineOfSight_hit _ _ _ _ _ _ E).
    + rewrite (getLineOfSight_miss _ _ _ _ E). cbn. now destruct (mThreadSafeBullet s).
  - intros actors.
    rewrite (resetSimulation_trace actors s).
    cbn [locksHeld map fst]. cbn [bool_decide orb]. 
    rewrite bool_decide_eq_false_2 by (apply not_elem_of_nil).
    rewrite bool_decide_eq_false_2 by (apply not_elem_of_nil). cbn [orb].
    rewrite locksHeld_objects.
    + cbn. rewrite bool_decide_eq_true_2 by reflexivity. reflexivity.
    + intros actor. repeat constructor; eauto.
  - rewrite (refreshLOSCache_trace env s Hpos).
    cbn [locksHeld map fst].
    rewrite bool_decide_eq_false_2 by (apply not_elem_of_nil).
    rewrite bool_decide_eq_false_2 by (apply not_elem_of_nil). cbn [orb].
    rewrite locksHeld_requests.
    + cbn. rewrite bool_decide_eq_true_2 by reflexivity. reflexivity.
    + cbn. rewrite list_elem_of_singleton. discriminate.
  - reflexivity.
Qed.

Lemma calls_keep_lock_discipline_witness :
  disciplined (refreshLOSCache (exampleEnv openWorld)
                 (set_mLOSCache agedCache (freshScheduler 4)))
  /\ disciplined (getLineOfSight openWorld (actorAt 1 0) (actorAt 2 5)
                    (set_mLOSCache agedCache (freshScheduler 4))).
Proof.
  destruct (calls_keep_lock_discipline (exampleEnv openWorld)
              (set_mLOSCache agedCache (freshScheduler 4)))
    as (_ & _ & _ & _ & _ & _ & _ & _ & _ & _ & _ & _ & Hlos & _ & Hrefresh & _);
    [discriminate|].
  split; [exact Hrefresh | apply Hlos].
Defined.


(** ** Landing *)

(** X21.  [updateMechanics] after [handleFall]: a fall height is added
    to the statistics only with a positive amount and only for an actor
    that needed no landing, does not fly, is not under water and falls
    at full speed; an actor that flies or is under water lands, with the
    flag that tells whether it is the player; the flag is never true for
    another actor; and nothing is reported only when no landing is
    needed and no height was fallen. *)
Theorem fall_height_reported_only_while_falling (isPlayer simulationPerformed : bool)
    (actorData : ActorFrameData.t) :
  let data := handleFall actorData simulationPerformed in
  (forall height,
     updateMechanics isPlayer data = Some (stats_addToFallHeight height) ->
     (0 < height)%Q
     /\ ActorFrameData.mNeedLand actorData = false
     /\ ActorFrameData.mFlying actorData = false
     /\ isUnderWater actorData = false
     /\ (1 <= ActorFrameData.mSlowFall actorData)%Q)
  /\ (ActorFrameData.mFlying actorData = true \/ isUnderWater actorData = true ->
      updateMechanics isPlayer data = Some (stats_land isPlayer))
  /\ (forall flag, updateMechanics isPlayer data = Some (stats_land flag) ->
      flag = true -> isPlayer = true)
  /\ (updateMechanics isPlayer data = None ->
      ActorFrameData.mNeedLand data = false /\ (0 <= ActorFrameData.mFallHeight data)%Q).
Proof.
  cbv zeta.
  set (landing := simulationPerformed && ActorFrameData.mWasOnGround actorData
                  && ActorFrameData.mIsOnGround actorData
                  || ActorFrameData.mFlying actorData || isUnderWater actorData
                  || Qltb (ActorFrameData.mSlowFall actorData) 1).
  assert (Hw : isUnderWater (handleFall actorData simulationPerformed)
               = isUnderWater actorData) by reflexivity.
  assert (Hf : ActorFrameData.mFlying (handleFall actorData simulationPerformed)
               = ActorFrameData.mFlying actorData) by reflexivity.
  assert (Hn : ActorFrameData.mNeedLand (handleFall actorData simulationPerformed)
               = if landing then true else ActorFrameData.mNeedLand actorData) by reflexivity.
  unfold updateMechanics. rewrite Hw, Hf, Hn.
  split; [|split; [|split]].
  - intros height H.
    destruct landing eqn:El; [discriminate|].
    destruct (ActorFrameData.mNeedLand actorData) eqn:En; [discriminate|].
    destruct (Qltb (ActorFrameData.mFallHeight _) 0) eqn:E0; [|discriminate].
    assert (Hh : height
                 = (- ActorFrameData.mFallHeight (handleFall actorData simulationPerformed))%Q)
      by congruence.
    clear H. apply Qltb_lt in E0.
    subst landing. repeat (apply orb_false_iff in El as [El ?]).
    split; [rewrite Hh; lra|].
    repeat split; try assumption; try reflexivity. now apply Qltb_ge.
  - intros Hor.
    assert (El : landing = true).
    { subst landing. destruct Hor as [-> | ->]; now rewrite ?orb_true_r. }
    rewrite El. destruct Hor as [-> | ->]; now rewrite ?orb_true_r, ?andb_true_r.
  - intros flag H Hflag.
    destruct (if landing then true else ActorFrameData.mNeedLand actorData).
    + injection H as H. rewrite Hflag in H. now destruct isPlayer.
    + destruct (Qltb _ 0); discriminate.
  - intros H.
    destruct (if landing then true else ActorFrameData.mNeedLand actorData); [discriminate|].
    split; [reflexivity|].
    destruct (Qltb (ActorFrameData.mFallHeight _) 0) eqn:E0; [discriminate|].
    now apply Qltb_ge.
Qed.

(** ** Construction and reset *)

(** X22.  Right after construction the thread count is not negative, at
    most 1 when the collision world lacks multithreading support and at
    most the wanted count raised to 0; the cache expiry is 0 without
    worker thread and the setting otherwise; the cache, the stored
    actors and the registered objects are empty and no frame is under
    way. *)
Theorem constructed_scheduler_is_consistent (getInt : string -> string -> Z)
    (maxSupportedThreads : Z) (physicsDt : Q) :
  let s := (PhysicsTaskScheduler_new getInt maxSupportedThreads physicsDt).1 in
  0 <= mNumThreads s
  /\ (mThreadSafeBullet s = false -> mNumThreads s <= 1)
  /\ (mNumThreads s = 0 -> mLOSCacheExpiry s = 0)
  /\ (1 <= mNumThreads s ->
      mLOSCacheExpiry s = getInt "lineofsight keep inactive cache"%string "Physics"%string)
  /\ (mNumThreads s <= Z.max 0 (getInt "async num threads"%string "Physics"%string))
  /\ mLOSCache s = [] /\ mActors s = [] /\ mCollisionObjects s = ∅
  /\ mRemainingSteps s = 0 /\ mAdvanceSimulation s = false /\ mNewFrame s = false.
Proof.
  cbv zeta. unfold PhysicsTaskScheduler_new, Config.computeNumThreads.
  destruct (Z.gtb_spec maxSupportedThreads 1) as [Hs | Hs];
    destruct (Z.gtb_spec (getInt "async num threads"%string "Physics"%string) 1) as [Hw | Hw];
    cbn [negb andb fst snd mNumThreads mThreadSafeBullet mLOSCacheExpiry mLOSCache mActors
         mCollisionObjects mRemainingSteps mAdvanceSimulation mNewFrame];
    repeat split; intros; try lia; try discriminate; try reflexivity;
    try (destruct (Z.geb_spec (Z.max 0 (getInt "async num threads"%string "Physics"%string)) 1);
         (reflexivity || lia)).
Qed.

Lemma budgetRatio_default (s : PhysicsTaskScheduler) :
  (0 < mDefaultPhysicsDt s)%Q ->
  BudgetMeasurement.get (mBudget s) = mDefaultPhysicsDt s ->
  (BudgetMeasurement.get (mAsyncBudget s) == 0)%Q ->
  (budgetRatio s == 1)%Q.
Proof.
  intros Hdt Hb Ha. unfold budgetRatio, std_max. rewrite Hb.
  destruct (Qltb (mDefaultPhysicsDt s) (BudgetMeasurement.get (mAsyncBudget s))) eqn:E.
  - apply Qltb_lt in E. lra.
  - field. lra.
Qed.

Lemma resetSimulation_fields (actors : list shared_ptr) (s : PhysicsTaskScheduler) :
  BudgetMeasurement.get (mBudget (after (resetSimulation actors s))) = mDefaultPhysicsDt s
  /\ BudgetMeasurement.get (mAsyncBudget (after (resetSimulation actors s))) = 0%Q
  /\ mDefaultPhysicsDt (after (resetSimulation actors s)) = mDefaultPhysicsDt s.
Proof.
  unfold resetSimulation, unique_lock, scoped.
  unfold after, bind, assign, emit, ret. cbn.
  pose proof (forEach_emit_trace actors
    (fun actor => [OnObject (get actor) call_updatePosition;
                   OnObject (get actor) call_updateCollisionObjectPosition])) as E.
  unfold bind, emit in *. cbn in E.
  rewrite E. cbn. repeat split; reflexivity.
Qed.

(** X23.  Right after construction and right after [resetSimulation]
    the budget equals the target step, so the step allowance is 1 and a
    step configuration computed in that state has at most one step,
    however much time accumulated. *)
Theorem one_step_after_construction_or_reset (getInt : string -> string -> Z)
    (maxSupportedThreads : Z) (actors : list shared_ptr) (s : PhysicsTaskScheduler)
    (timeAccum : Q) :
  (0 < mDefaultPhysicsDt s)%Q ->
  let built := (PhysicsTaskScheduler_new getInt maxSupportedThreads (mDefaultPhysicsDt s)).1 in
  let reset := after (resetSimulation actors s) in
  maxAllowedSteps built = 1
  /\ maxAllowedSteps reset = 1
  /\ (calculateStepConfig built timeAccum).1 <= 1
  /\ (calculateStepConfig reset timeAccum).1 <= 1.
Proof.
  intros Hdt. cbv zeta.
  assert (H1 : maxAllowedSteps
                 (PhysicsTaskScheduler_new getInt maxSupportedThreads (mDefaultPhysicsDt s)).1 = 1).
  { unfold maxAllowedSteps. rewrite stepAllowance_expensive; [reflexivity|].
    rewrite budgetRatio_default; [reflexivity | exact Hdt | reflexivity | reflexivity]. }
  assert (H2 : maxAllowedSteps (after (resetSimulation actors s)) = 1).
  { unfold maxAllowedSteps. rewrite stepAllowance_expensive; [reflexivity|].
    destruct (resetSimulation_fields actors s) as (Hb & Ha & Hd).
    rewrite budgetRatio_default; [reflexivity | | |]; rewrite ?Hd; try assumption.
    rewrite Ha. reflexivity. }
  repeat split; try assumption; rewrite numSteps_capped; lia.
Qed.

Lemma one_step_after_construction_or_reset_witness :
  maxAllowedSteps (withBudgets (1 # 240) (1 # 600) (freshScheduler 4)) = 4
  /\ maxAllowedSteps (after (resetSimulation [actorAt 1 0]
                               (withBudgets (1 # 240) (1 # 600) (freshScheduler 4)))) = 1.
Proof.
  split; [reflexivity|].
  destruct (one_step_after_construction_or_reset (exampleSettings 2 6) 4 [actorAt 1 0]
              (withBudgets (1 # 240) (1 # 600) (freshScheduler 4)) 1) as (_ & H & _);
    [reflexivity | exact H].
Defined.

(** ** Shared reads *)

(** X24.  With multithreading support of the collision world every
    read ([rayTest], [convexSweepTest], [contactTest], [getHitPoint],
    [aabbTest], [getAabb], [debugDraw], [hasLineOfSight]) takes the
    shared lock on the collision-world mutex and every write
    ([setCollisionFilterMask], [addCollisionObject],
    [removeCollisionObject], [updatePtrAabb]) still takes the exclusive
    one. *)
Theorem reads_share_the_world_when_thread_safe (s : PhysicsTaskScheduler) :
  mThreadSafeBullet s = true ->
  (forall from to, worldLocks (rayTest from to s) = [Shared])
  /\ (forall shape from to, worldLocks (convexSweepTest shape from to s) = [Shared])
  /\ (forall obj, worldLocks (contactTest obj s) = [Shared])
  /\ (forall w from target, worldLocks (getHitPoint w from target s) = [Shared])
  /\ (forall lo hi, worldLocks (aabbTest lo hi s) = [Shared])
  /\ (forall obj, worldLocks (getAabb obj s) = [Shared])
  /\ worldLocks (debugDraw s) = [Shared]
  /\ (forall w a1 a2, worldLocks (hasLineOfSight w a1 a2 s) = [Shared])
  /\ (forall obj mask, worldLocks (setCollisionFilterMask obj mask s) = [Exclusive])
  /\ (forall obj group mask, worldLocks (addCollisionObject obj group mask s) = [Exclusive])
  /\ (forall obj, worldLocks (removeCollisionObject obj s) = [Exclusive])
  /\ (forall ptr kind, worldLocks (updatePtrAabb ptr kind s) = [Exclusive]).
Proof.
  intros Hsafe. unfold worldLocks.
  repeat match goal with |- _ /\ _ => split end; intros;
    try (unfold rayTest, convexSweepTest, getHitPoint, hasLineOfSight, MaybeSharedLock,
           bind, this; cbn; rewrite Hsafe; reflexivity);
    try reflexivity.
  now destruct kind.
Qed.

Lemma reads_share_the_world_when_thread_safe_witness :
  worldLocks (rayTest (0, 0, 0)%Q (1, 0, 0)%Q (freshScheduler 4)) = [Shared]
  /\ worldLocks (addCollisionObject 1 1 1 (freshScheduler 4)) = [Exclusive].
Proof.
  destruct (reads_share_the_world_when_thread_safe (freshScheduler 4) eq_refl)
    as (Hray & _ & _ & _ & _ & _ & _ & _ & _ & Hadd & _).
  split; [apply Hray | apply Hadd].
Defined.

(** ** Deferred bounding-box updates *)

Lemma forEach_events {A : Type} (l : list A) (body : A -> M unit) (f : A -> list Event) :
  (forall x s, body x s = (tt, s, f x)) ->
  forall s, forEach l body s = (tt, s, concat (map f l)).
Proof.
  intros Hbody. induction l as [|x l IH]; intros s; [reflexivity|].
  cbn [forEach map concat]. unfold bind. rewrite Hbody. cbn. rewrite IH. reflexivity.
Qed.

Lemma updatePtrAabb_run (kindOf : positive -> PtrHolderKind) (ptr : positive)
    (s : PhysicsTaskScheduler) :
  updatePtrAabb ptr (kindOf ptr) s = (tt, s, commitEvents kindOf ptr).
Proof. unfold commitEvents. now destruct (kindOf ptr). Qed.

Lemma std_set_insert_elem (p x : positive) (l : list positive) :
  x ∈ std_set_insert p l <-> x = p \/ x ∈ l.
Proof.
  induction l as [|q l IH]; cbn.
  - rewrite list_elem_of_singleton, elem_of_nil. tauto.
  - destruct (Pos.ltb_spec p q); [|destruct (Pos.eqb_spec p q)].
    + rewrite !elem_of_cons. tauto.
    + subst. rewrite !elem_of_cons. tauto.
    + rewrite !elem_of_cons, IH. tauto.
Qed.

Lemma std_set_insert_sorted (p : positive) (l : list positive) :
  StronglySorted Pos.lt l -> StronglySorted Pos.lt (std_set_insert p l).
Proof.
  induction 1 as [|q l Hs IH Hq]; cbn.
  - repeat constructor.
  - destruct (Pos.ltb_spec p q); [|destruct (Pos.eqb_spec p q)].
    + constructor; [now constructor|]. constructor; [assumption|].
      eapply Forall_impl; [exact Hq|]. cbn. intros; lia.
    + now constructor.
    + constructor; [exact IH|].
      apply Forall_forall. intros x Hx. apply std_set_insert_elem in Hx as [-> | Hx].
      * lia.
      * rewrite Forall_forall in Hq. now apply Hq.
Qed.

Lemma std_set_insert_again (p : positive) (l : list positive) :
  std_set_insert p (std_set_insert p l) = std_set_insert p l.
Proof.
  induction l as [|q l IH]; cbn.
  - now rewrite Pos.ltb_irrefl, Pos.eqb_refl.
  - destruct (Pos.ltb_spec p q); [|destruct (Pos.eqb_spec p q)]; cbn.
    + now rewrite Pos.ltb_irrefl, Pos.eqb_refl.
    + subst. now rewrite Pos.ltb_irrefl, Pos.eqb_refl.
    + destruct (Pos.ltb_spec p q); [lia|]. destruct (Pos.eqb_spec p q); [lia|].
      now rewrite IH.
Qed.

Lemma StronglySorted_lt_NoDup (l : list positive) : StronglySorted Pos.lt l -> NoDup l.
Proof.
  induction 1 as [|q l Hs IH Hq]; constructor; [|exact IH].
  intros Hin. rewrite Forall_forall in Hq. specialize (Hq _ Hin). lia.
Qed.

Lemma std_set_insert_member (p : positive) (l : list positive) :
  StronglySorted Pos.lt l -> p ∈ l -> std_set_insert p l = l.
Proof.
  induction 1 as [|q l Hs IH Hq]; intros Hin; [now apply elem_of_nil in Hin|].
  cbn. rewrite Forall_forall in Hq.
  apply elem_of_cons in Hin as [-> | Hin].
  - now rewrite Pos.ltb_irrefl, Pos.eqb_refl.
  - specialize (Hq _ Hin).
    destruct (Pos.ltb_spec p q); [lia|]. destruct (Pos.eqb_spec p q); [lia|].
    now rewrite IH.
Qed.

Lemma updateSingleAabb_run (kindOf : positive -> PtrHolderKind) (ptr : positive)
    (immediate : bool) (pending : list positive) (s : PhysicsTaskScheduler) :
  updateSingleAabb kindOf ptr immediate pending s =
  if immediate || (mNumThreads s =? 0) then (pending, s, commitEvents kindOf ptr)
  else (std_set_insert ptr pending, s,
        [Acquire mUpdateAabbMutex Exclusive; Release mUpdateAabbMutex Exclusive]).
Proof.
  unfold updateSingleAabb. unfold bind at 1. unfold this. cbn [fst snd].
  destruct (immediate || (mNumThreads s =? 0)); [|reflexivity].
  unfold bind. rewrite (updatePtrAabb_run kindOf ptr s). cbn [fst snd ret].
  now rewrite app_nil_r.
Qed.

Lemma commitEvents_disciplined (kindOf : positive -> PtrHolderKind) (ptr : positive)
    (held : list (Mutex * LockKind)) (rest : list Event) :
  mCollisionWorldMutex ∉ map fst held ->
  locksHeld held (commitEvents kindOf ptr ++ rest) = locksHeld held rest.
Proof.
  intros Hfree. unfold commitEvents.
  cbn [app locksHeld]. rewrite (bool_decide_eq_false_2 _ Hfree). cbn [orb].
  destruct (kindOf ptr); cbn [app locksHeld map fst];
    rewrite ?bool_decide_eq_true_2 by (apply list_elem_of_here || reflexivity);
    reflexivity.
Qed.

(** X25.  [updateSingleAabb] changes no field.  When immediate or
    without worker thread it commits the bounding box at once, under the
    exclusive collision-world lock, and leaves the pending set and its
    mutex alone.  Otherwise it touches neither the collision world nor
    the object: under the pending-set mutex the pointer joins the
    pending set, whose other members stay, which stays sorted, and which
    is unchanged when the pointer was already pending.  Either way the
    lock discipline is kept. *)
Theorem updateSingleAabb_commits_or_defers (kindOf : positive -> PtrHolderKind)
    (ptr : positive) (immediate : bool) (pending : list positive)
    (s : PhysicsTaskScheduler) :
  let call := updateSingleAabb kindOf ptr immediate pending s in
  after call = s
  /\ (immediate = true \/ mNumThreads s = 0 ->
      result call = pending
      /\ trace call = commitEvents kindOf ptr
      /\ locksOn mUpdateAabbMutex (trace call) = [])
  /\ (immediate = false /\ mNumThreads s <> 0 ->
      trace call = [Acquire mUpdateAabbMutex Exclusive; Release mUpdateAabbMutex Exclusive]
      /\ ptr ∈ result call
      /\ (forall other, other <> ptr -> (other ∈ result call <-> other ∈ pending))
      /\ (StronglySorted Pos.lt pending ->
          StronglySorted Pos.lt (result call)
          /\ (ptr ∈ pending -> result call = pending)))
  /\ disciplined call.
Proof.
  cbv zeta. unfold disciplined. rewrite updateSingleAabb_run.
  destruct (immediate || (mNumThreads s =? 0)) eqn:E.
  - split; [reflexivity|]. split; [|split].
    + intros _. repeat split. unfold commitEvents, trace. cbn [snd].
      now destruct (kindOf ptr).
    + intros [-> Hn]. cbn in E. apply Z.eqb_eq in E. contradiction.
    + unfold trace. cbn [snd].
      rewrite <- (app_nil_r (commitEvents kindOf ptr)).
      rewrite commitEvents_disciplined; [reflexivity | apply not_elem_of_nil].
  - apply orb_false_iff in E as [-> E]. apply Z.eqb_neq in E.
    split; [reflexivity|]. split; [|split].
    + intros [? | ?]; [discriminate | contradiction].
    + intros _. unfold result. cbn [fst snd]. repeat split.
      * apply std_set_insert_elem. now left.
      * intros Hx. apply std_set_insert_elem in Hx as [? | ?]; [contradiction | assumption].
      * intros Hx. apply std_set_insert_elem. now right.
      * now apply std_set_insert_sorted.
      * now apply std_set_insert_member.
    + reflexivity.
Qed.

Lemma updateSingleAabb_each_run (kindOf : positive -> PtrHolderKind) (ptrs : list positive) :
  forall (pending : list positive) (s : PhysicsTaskScheduler),
    mNumThreads s <> 0 ->
    updateSingleAabb_each kindOf ptrs pending s =
    (foldl (fun acc ptr => std_set_insert ptr acc) pending ptrs, s,
     concat (map (fun _ => [Acquire mUpdateAabbMutex Exclusive;
                            Release mUpdateAabbMutex Exclusive]) ptrs)).
Proof.
  induction ptrs as [|ptr ptrs IH]; intros pending s Hn; [reflexivity|].
  cbn [updateSingleAabb_each foldl map concat]. unfold bind.
  rewrite updateSingleAabb_run. cbn [orb].
  destruct (Z.eqb_spec (mNumThreads s) 0); [contradiction|].
  cbn [fst snd]. rewrite IH by assumption. reflexivity.
Qed.

Lemma foldl_insert_sorted (ptrs : list positive) :
  forall pending, StronglySorted Pos.lt pending ->
    StronglySorted Pos.lt (foldl (fun acc ptr => std_set_insert ptr acc) pending ptrs).
Proof.
  induction ptrs as [|ptr ptrs IH]; intros pending Hs; [exact Hs|].
  cbn. apply IH. now apply std_set_insert_sorted.
Qed.

Lemma foldl_insert_elem (x : positive) (ptrs : list positive) :
  forall pending,
    x ∈ foldl (fun acc ptr => std_set_insert ptr acc) pending ptrs <-> x ∈ ptrs \/ x ∈ pending.
Proof.
  induction ptrs as [|ptr ptrs IH]; intros pending; cbn.
  - rewrite elem_of_nil. tauto.
  - rewrite IH, std_set_insert_elem, elem_of_cons. tauto.
Qed.

Lemma updateAabbs_run (kindOf : positive -> PtrHolderKind) (pending : list positive)
    (s : PhysicsTaskScheduler) :
  updateAabbs kindOf pending s =
  (@nil positive, s,
   Acquire mUpdateAabbMutex Exclusive
   :: concat (map (commitEvents kindOf) pending) ++ [Release mUpdateAabbMutex Exclusive]).
Proof.
  unfold updateAabbs, unique_lock, scoped, bind, emit, ret. cbn [fst snd].
  rewrite (forEach_events pending _ (commitEvents kindOf) (updatePtrAabb_run kindOf)).
  cbn. now rewrite app_nil_r.
Qed.

Lemma locksHeld_commits (kindOf : positive -> PtrHolderKind) (held : list (Mutex * LockKind))
    (l : list positive) (rest : list Event) :
  mCollisionWorldMutex ∉ map fst held ->
  locksHeld held (concat (map (commitEvents kindOf) l) ++ rest) = locksHeld held rest.
Proof.
  intros Hfree. induction l as [|p l IH]; [reflexivity|].
  cbn [map concat]. rewrite <- app_assoc. now rewrite commitEvents_disciplined.
Qed.

(** X26.  With worker threads, any sequence of deferred requests updates
    no bounding box by itself; the pending set then holds exactly the
    requested pointers, each once and in ascending order, and
    [updateAabbs] commits each of them exactly once, in that order,
    under the pending-set mutex, empties the set, changes no field and
    keeps the lock discipline. *)
Theorem deferred_updates_commit_once (kindOf : positive -> PtrHolderKind)
    (ptrs : list positive) (s : PhysicsTaskScheduler) :
  mNumThreads s <> 0 ->
  let requests := updateSingleAabb_each kindOf ptrs [] s in
  let flush := updateAabbs kindOf (result requests) (after requests) in
  countCalls call_updateSingleAabb (trace requests) = 0%nat
  /\ (forall ptr, ptr ∈ result requests <-> ptr ∈ ptrs)
  /\ NoDup (result requests)
  /\ StronglySorted Pos.lt (result requests)
  /\ trace flush =
       Acquire mUpdateAabbMutex Exclusive
       :: concat (map (commitEvents kindOf) (result requests))
       ++ [Release mUpdateAabbMutex Exclusive]
  /\ result flush = []
  /\ after flush = s
  /\ disciplined flush.
Proof.
  intros Hn. cbv zeta. rewrite (updateSingleAabb_each_run kindOf ptrs [] s Hn).
  unfold result, after, trace. cbn [fst snd]. rewrite updateAabbs_run. cbn [fst snd].
  split; [|split; [|split; [|split; [|split; [|split; [|split]]]]]]; try reflexivity.
  - induction ptrs as [|p ptrs IH]; [reflexivity | exact IH].
  - intros ptr. rewrite foldl_insert_elem, elem_of_nil. tauto.
  - apply StronglySorted_lt_NoDup, foldl_insert_sorted. constructor.
  - apply foldl_insert_sorted. constructor.
  - unfold disciplined, trace. cbn [snd locksHeld map fst].
    rewrite bool_decide_eq_false_2 by (apply not_elem_of_nil).
    rewrite bool_decide_eq_false_2 by (apply not_elem_of_nil). cbn [orb].
    rewrite locksHeld_commits.
    + cbn. rewrite bool_decide_eq_true_2 by reflexivity. reflexivity.
    + cbn. rewrite list_elem_of_singleton. discriminate.
Qed.

Lemma deferred_updates_commit_once_witness :
  result (updateSingleAabb_each (fun _ => HoldsObject) [3; 1; 3]%positive []
            (freshScheduler 4)) = [1; 3]%positive
  /\ StronglySorted Pos.lt
       (result (updateSingleAabb_each (fun _ => HoldsObject) [3; 1; 3]%positive []
                  (freshScheduler 4))).
Proof.
  split; [reflexivity|].
  apply (deferred_updates_commit_once (fun _ => HoldsObject) [3; 1; 3]%positive
           (freshScheduler 4)).
  discriminate.
Defined.

(** X27.  Deferred requests followed by [releaseSharedStates] are
    dropped: the pending set is empty, the stored actors are cleared and
    nothing else changes, and neither the requests, the release nor a
    following [updateAabbs] call the collision world, take its mutex or
    call an object; the release takes the simulation mutex and the
    pending-set mutex, each once and exclusively. *)
Theorem released_updates_are_never_committed (kindOf : positive -> PtrHolderKind)
    (ptrs : list positive) (s : PhysicsTaskScheduler) :
  mNumThreads s <> 0 ->
  let requests := updateSingleAabb_each kindOf ptrs [] s in
  let release := releaseSharedStates (result requests) (after requests) in
  let flush := updateAabbs kindOf (result release) (after release) in
  let events := trace requests ++ trace release ++ trace flush in
  result release = []
  /\ after flush = set_mActors [] s
  /\ (forall c, countCalls c events = 0%nat)
  /\ locksOn mCollisionWorldMutex events = []
  /\ Forall (fun e => forall p c, e <> OnObject p c) events
  /\ locksOn mSimulationMutex (trace release) = [Exclusive]
  /\ locksOn mUpdateAabbMutex (trace release) = [Exclusive]
  /\ disciplined flush.
Proof.
  intros Hn. cbv zeta. rewrite (updateSingleAabb_each_run kindOf ptrs [] s Hn).
  unfold result, after, trace. cbn [fst snd].
  split; [reflexivity|]. split; [reflexivity|].
  assert (Hreq : forall c, countCalls c
            (concat (map (fun _ : positive => [Acquire mUpdateAabbMutex Exclusive;
                                    Release mUpdateAabbMutex Exclusive]) ptrs)
             ++ (releaseSharedStates
                   (foldl (fun acc ptr => std_set_insert ptr acc) [] ptrs) s).2
             ++ (updateAabbs kindOf [] (set_mActors [] s)).2) = 0%nat).
  { intros c. rewrite countCalls_app. cbn.
    induction ptrs as [|p ptrs IH]; [reflexivity | exact IH]. }
  split; [exact Hreq|]. clear Hreq. split; [|split; [|split; [|split]; reflexivity]].
  - induction ptrs as [|p ptrs IH]; [reflexivity | exact IH].
  - apply Forall_app. split.
    + induction ptrs as [|p ptrs IH]; [constructor|].
      cbn [map concat app]. repeat (constructor; [discriminate|]). exact IH.
    + cbn. repeat (constructor; [discriminate|]). constructor.
Qed.

Lemma released_updates_are_never_committed_witness :
  result (releaseSharedStates
            (result (updateSingleAabb_each (fun _ => HoldsActor) [2; 1]%positive []
                       (freshScheduler 4)))
            (after (updateSingleAabb_each (fun _ => HoldsActor) [2; 1]%positive []
                      (freshScheduler 4)))) = []
  /\ result (updateSingleAabb_each (fun _ => HoldsActor) [2; 1]%positive []
               (freshScheduler 4)) = [1; 2]%positive.
Proof.
  split; [|reflexivity].
  apply (released_updates_are_never_committed (fun _ => HoldsActor) [2; 1]%positive
           (freshScheduler 4)).
  discriminate.
Defined.

(** ** The end of a simulation step *)

Lemma updateActorsPositions_loop_spec (setPosition : positive -> Vec3 -> option Vec3)
    (actors : list shared_ptr) :
  forall (data : list ActorFrameData.t) (s : PhysicsTaskScheduler),
    let r := updateActorsPositions_loop setPosition actors data s in
    after r = s
    /\ Forall2 (fun d d' => d' = d \/ exists position, d' = set_mPosition position d)
               data (result r)
    /\ (countCalls call_updateSingleAabb (trace r) <= length actors)%nat
    /\ Forall (fun k => k = Exclusive) (locksOn mCollisionWorldMutex (trace r))
    /\ (forall held rest, mCollisionWorldMutex ∉ map fst held ->
          locksHeld held (trace r ++ rest) = locksHeld held rest).
Proof.
  induction actors as [|actor actors IH]; intros data s; cbv zeta.
  - cbn. repeat split; try constructor.
    apply Forall_Forall2_diag, Forall_forall. auto.
  - destruct data as [|d data].
    + cbn. repeat split; try constructor. lia.
    + cbn [updateActorsPositions_loop]. specialize (IH data).
      unfold bind at 1.
      destruct (setPosition (get actor) (ActorFrameData.mPosition d)) as [position|].
      * unfold unique_lock, scoped, bind, emit, ret, after, result, trace in *.
        cbn [fst snd]. cbn [app]. destruct (IH s) as (Ha & Hd & Hc & Hl & Hh).
        split; [exact Ha|]. split; [constructor; eauto|].
        split; [cbn; rewrite ?app_nil_r, decide_True by reflexivity; lia|].
        split; [cbn; rewrite ?app_nil_r, decide_True by reflexivity;
                constructor; [reflexivity | exact Hl]|].
        intros held rest Hfree. cbn [app locksHeld map fst].
        rewrite (bool_decide_eq_false_2 _ Hfree). cbn [orb].
        rewrite bool_decide_eq_true_2 by (apply list_elem_of_here).
        rewrite bool_decide_eq_true_2 by reflexivity.
        rewrite ?app_nil_r. now apply Hh.
      * unfold bind, ret, after, result, trace in *. cbn [fst snd app].
        destruct (IH s) as (Ha & Hd & Hc & Hl & Hh).
        split; [exact Ha|]. split; [constructor; auto|].
        split; [rewrite ?app_nil_r; cbn; lia|].
        split; [now rewrite ?app_nil_r|].
        intros held rest Hfree. rewrite ?app_nil_r. now apply Hh.
Qed.

Lemma afterPostStep_run (setPosition : positive -> Vec3 -> option Vec3)
    (s : PhysicsTaskScheduler) :
  afterPostStep setPosition s =
  if mRemainingSteps s =? 0 then (tt, set_mNextJob 0 s, [])
  else
    let r := updateActorsPositions_loop setPosition (mActors s) (mActorsFrameData s)
               (set_mRemainingSteps (mRemainingSteps s - 1) s) in
    (tt,
     set_mNextJob 0
       (set_mActorsFrameData (result r) (set_mRemainingSteps (mRemainingSteps s - 1) s)),
     trace r).
Proof.
  unfold afterPostStep. unfold bind at 1. unfold this. cbn [fst snd].
  destruct (mRemainingSteps s =? 0); [reflexivity|].
  cbn [negb]. unfold updateActorsPositions, bind, this, assign, ret, result, trace.
  cbn [fst snd app mActors mActorsFrameData set_mRemainingSteps].
  change {| mDefaultPhysicsDt := mDefaultPhysicsDt s; mPhysicsDt := mPhysicsDt s;
            mTimeAccum := mTimeAccum s; mActors := mActors s;
            mActorsFrameData := mActorsFrameData s;
            mCollisionObjects := mCollisionObjects s;
            mThreadSafeBullet := mThreadSafeBullet s; mNumThreads := mNumThreads s;
            mNumJobs := mNumJobs s; mRemainingSteps := mRemainingSteps s - 1;
            mLOSCacheExpiry := mLOSCacheExpiry s; mNewFrame := mNewFrame s;
            mAdvanceSimulation := mAdvanceSimulation s; mNextJob := mNextJob s;
            mNextLOS := mNextLOS s; mLOSCache := mLOSCache s;
            mPrevStepCount := mPrevStepCount s; mBudget := mBudget s;
            mAsyncBudget := mAsyncBudget s; mBudgetCursor := mBudgetCursor s |}
    with (set_mRemainingSteps (mRemainingSteps s - 1) s).
  pose proof (updateActorsPositions_loop_spec setPosition (mActors s) (mActorsFrameData s)
                (set_mRemainingSteps (mRemainingSteps s - 1) s)) as (Ha & _).
  unfold after in Ha. rewrite Ha. now rewrite !app_nil_r.
Qed.

Lemma afterPostStep_remaining (setPosition : positive -> Vec3 -> option Vec3)
    (s : PhysicsTaskScheduler) :
  0 <= mRemainingSteps s ->
  mRemainingSteps (after (afterPostStep setPosition s)) = Z.max 0 (mRemainingSteps s - 1).
Proof.
  intros Hpos. rewrite afterPostStep_run.
  destruct (Z.eqb_spec (mRemainingSteps s) 0) as [E | E]; unfold after; cbn; lia.
Qed.

(** X28.  [afterPostStep] with a non-negative number of remaining steps:
    the number goes down by one and stops at 0, also over any number of
    rounds; the job cursor is put back to 0; the stored actors and the
    cache are unchanged and of the frame data only positions may change;
    when no step remained nothing is updated at all; at most one
    bounding box per stored actor is updated, always under the exclusive
    collision-world lock, and the lock discipline is kept. *)
Theorem afterPostStep_counts_down (setPosition : positive -> Vec3 -> option Vec3)
    (s : PhysicsTaskScheduler) (rounds : nat) :
  0 <= mRemainingSteps s ->
  let call := afterPostStep setPosition s in
  let s' := after call in
  mRemainingSteps s' = Z.max 0 (mRemainingSteps s - 1)
  /\ mNextJob s' = 0
  /\ mActors s' = mActors s
  /\ mLOSCache s' = mLOSCache s
  /\ Forall2 (fun d d' => d' = d \/ exists position, d' = set_mPosition position d)
             (mActorsFrameData s) (mActorsFrameData s')
  /\ (mRemainingSteps s = 0 -> trace call = [] /\ mActorsFrameData s' = mActorsFrameData s)
  /\ (countCalls call_updateSingleAabb (trace call) <= length (mActors s))%nat
  /\ Forall (fun k => k = Exclusive) (worldLocks call)
  /\ disciplined call
  /\ mRemainingSteps (Nat.iter rounds (fun s => after (afterPostStep setPosition s)) s)
     = Z.max 0 (mRemainingSteps s - Z.of_nat rounds).
Proof.
  intros Hpos. cbv zeta.
  split; [now apply afterPostStep_remaining|].
  assert (Hiter : mRemainingSteps
                    (Nat.iter rounds (fun s => after (afterPostStep setPosition s)) s)
                  = Z.max 0 (mRemainingSteps s - Z.of_nat rounds)).
  { induction rounds as [|n IH]; [cbn; lia|].
    rewrite Nat.iter_succ. cbv beta. rewrite afterPostStep_remaining; rewrite IH; lia. }
  unfold worldLocks, disciplined. rewrite afterPostStep_run.
  destruct (Z.eqb_spec (mRemainingSteps s) 0) as [E | E].
  - unfold after, trace. cbn [fst snd].
    repeat split; try reflexivity; try assumption; try constructor; try (cbn; lia).
    apply Forall_Forall2_diag, Forall_forall. auto.
  - cbv zeta.
    destruct (updateActorsPositions_loop_spec setPosition (mActors s) (mActorsFrameData s)
                (set_mRemainingSteps (mRemainingSteps s - 1) s)) as (Ha & Hd & Hc & Hl & Hh).
    unfold after, trace. cbn [fst snd].
    repeat split; try reflexivity; try assumption; try contradiction.
    pose proof (Hh [] [] (not_elem_of_nil _)) as Hh'. rewrite app_nil_r in Hh'. exact Hh'.
Qed.

Lemma afterPostStep_counts_down_witness :
  mRemainingSteps
    (Nat.iter 5 (fun s => after (afterPostStep (fun _ _ => None) s))
       (set_mRemainingSteps 3 (freshScheduler 4))) = 0
  /\ mRemainingSteps
       (after (afterPostStep (fun _ _ => None) (set_mRemainingSteps 3 (freshScheduler 4)))) = 2.
Proof.
  destruct (afterPostStep_counts_down (fun _ _ => None)
              (set_mRemainingSteps 3 (freshScheduler 4)) 5)
    as (H1 & _ & _ & _ & _ & _ & _ & _ & _ & H); [discriminate|].
  split; [rewrite H; reflexivity | rewrite H1; reflexivity].
Defined.

(** ** Frames computed on the calling thread *)

Lemma endOfSyncFrame_cache (env : Env) (s : PhysicsTaskScheduler) :
  mLOSCache (endOfSyncFrame env s)
  = map (refreshedRequest env (mLOSCacheExpiry s)) (mLOSCache s)
  /\ mLOSCacheExpiry (endOfSyncFrame env s) = mLOSCacheExpiry s.
Proof.
  unfold endOfSyncFrame.
  destruct (refreshLOSCache_spec env (set_mNextLOS 0 s)) as [_ Hafter]; [cbn; lia|].
  rewrite Hafter. unfold refreshedFrom. cbn.
  rewrite drop_0. split; reflexivity.
Qed.

Lemma list_find_map_pair (key : LOSRequest.t) (f : LOSRequest.t -> LOSRequest.t)
    (l : list LOSRequest.t) :
  (forall y, LOSRequest.mActors (f y) = LOSRequest.mActors y) ->
  forall i e,
    list_find (fun x => LOSRequest_eq x key) l = Some (i, e) ->
    list_find (fun x => LOSRequest_eq x key) (map f l) = Some (i, f e).
Proof.
  intros Hkey. induction l as [|y l IH]; intros i e Hfind; [discriminate|].
  cbn in *. unfold LOSRequest_eq in *.
  destruct (decide (LOSRequest.mActors y = LOSRequest.mActors key)) as [Hy | Hy].
  - injection Hfind as <- <-. rewrite decide_True by (now rewrite Hkey). reflexivity.
  - rewrite decide_False by (now rewrite Hkey).
    destruct (list_find _ l) as [[j x]|] eqn:E; [|discriminate].
    injection Hfind as <- <-. now rewrite (IH _ _ eq_refl).
Qed.

Lemma refreshedRequest_expired (env : Env) (expiry : Z) (req : LOSRequest.t) :
  expiry < LOSRequest.mAge req ->
  LOSRequest.mResult (refreshedRequest env expiry req) = LOSRequest.mResult req
  /\ LOSRequest.mAge (refreshedRequest env expiry req) = LOSRequest.mAge req + 1.
Proof.
  intros Hage. unfold refreshedRequest.
  destruct (Z.gtb_spec (LOSRequest.mAge req) expiry); [|lia].
  split; reflexivity.
Qed.

Lemma endOfSyncFrames_pairs (envs : list Env) :
  forall s,
    map LOSRequest.mActors (mLOSCache (endOfSyncFrames envs s))
    = map LOSRequest.mActors (mLOSCache s)
    /\ mLOSCacheExpiry (endOfSyncFrames envs s) = mLOSCacheExpiry s.
Proof.
  induction envs as [|env envs IH]; intros s; [split; reflexivity|].
  cbn [endOfSyncFrames]. destruct (IH (endOfSyncFrame env s)) as [-> ->].
  destruct (endOfSyncFrame_cache env s) as [-> ->]. split; [|reflexivity].
  rewrite map_map. apply map_ext. intros req.
  apply (refreshedRequest_fields env (mLOSCacheExpiry s) req).
Qed.

Lemma endOfSyncFrames_expired (key : LOSRequest.t) (envs : list Env) :
  forall s i e,
    list_find (fun x => LOSRequest_eq x key) (mLOSCache s) = Some (i, e) ->
    mLOSCacheExpiry s < LOSRequest.mAge e ->
    exists e',
      list_find (fun x => LOSRequest_eq x key) (mLOSCache (endOfSyncFrames envs s))
      = Some (i, e')
      /\ LOSRequest.mResult e' = LOSRequest.mResult e.
Proof.
  induction envs as [|env envs IH]; intros s i e Hfind Hage; [eauto|].
  cbn [endOfSyncFrames].
  destruct (endOfSyncFrame_cache env s) as [Hc He].
  destruct (refreshedRequest_expired env _ e Hage) as [Hr Ha].
  destruct (IH (endOfSyncFrame env s) i (refreshedRequest env (mLOSCacheExpiry s) e))
    as (e' & Hfind' & Hres).
  - rewrite Hc. apply list_find_map_pair; [|exact Hfind].
    intros y. apply (refreshedRequest_fields env (mLOSCacheExpiry s) y).
  - rewrite He. lia.
  - exists e'. split; [exact Hfind' | congruence].
Qed.

(** X29.  Frames computed on the calling thread end with the refresh
    pass alone, so no request ever leaves the cache; a request older
    than the expiry keeps its result over any number of such frames, and
    the next [getLineOfSight] for its pair answers that result without
    asking the world. *)
Theorem calling_thread_frames_never_evict (w : btCollisionWorld) (actor1 actor2 : shared_ptr)
    (envs : list Env) (s : PhysicsTaskScheduler) (i : nat) (e : LOSRequest.t) :
  list_find (fun x => LOSRequest_eq x (LOSRequest_new actor1 actor2)) (mLOSCache s)
    = Some (i, e) ->
  mLOSCacheExpiry s < LOSRequest.mAge e ->
  let s' := endOfSyncFrames envs s in
  let call := getLineOfSight w actor1 actor2 s' in
  map LOSRequest.mActors (mLOSCache s') = map LOSRequest.mActors (mLOSCache s)
  /\ result call = LOSRequest.mResult e
  /\ countCalls call_rayTest (trace call) = 0%nat
  /\ worldLocks call = [].
Proof.
  intros Hfind Hage. cbv zeta.
  split; [apply endOfSyncFrames_pairs|].
  destruct (endOfSyncFrames_expired _ envs s i e Hfind Hage) as (e' & Hfind' & Hres).
  rewrite (getLineOfSight_hit _ _ _ _ _ _ Hfind').
  repeat split. exact Hres.
Qed.

Lemma calling_thread_frames_never_evict_witness :
  result (getLineOfSight blockedWorld (actorAt 1 0) (actorAt 2 5)
            (endOfSyncFrames (replicate 3 (exampleEnv blockedWorld))
               (set_mLOSCache agedCache (freshScheduler 4)))) = true
  /\ clearLine blockedWorld (exampleActor 0) (exampleActor 5) = false.
Proof.
  split; [|reflexivity].
  destruct (calling_thread_frames_never_evict blockedWorld (actorAt 1 0) (actorAt 2 5)
              (replicate 3 (exampleEnv blockedWorld))
              (set_mLOSCache agedCache (freshScheduler 4)) 0%nat (exampleRequest 1 2 true 7))
    as (_ & H & _); [reflexivity | reflexivity |].
  exact H.
Defined.

(** * Rounded arithmetic *)

(** ** Facts about rounding *)

Lemma pow2_pos (e : Z) : (0 < pow2 e)%Q.
Proof. apply Qpower_0_lt. reflexivity. Qed.

Lemma pow2_add (a b : Z) : (pow2 (a + b) == pow2 a * pow2 b)%Q.
Proof. apply Qpower_plus. discriminate. Qed.

Lemma pow2_sub (a b : Z) : (pow2 (a - b) == pow2 a / pow2 b)%Q.
Proof. apply Qpower_minus. discriminate. Qed.

Lemma pow2_inject (n : Z) : 0 <= n -> (pow2 n == inject_Z (2 ^ n))%Q.
Proof. intros H. symmetry. apply (Zpower_Qpower 2 n H). Qed.

Lemma Qabs_ratio (x : Q) :
  (Qabs x == inject_Z (Z.abs (Qnum x)) / inject_Z (Z.pos (Qden x)))%Q.
Proof. destruct x as [n d]. cbn. apply Qmake_Qdiv. Qed.

Lemma Qnum_nonzero (x : Q) : ~ (x == 0)%Q -> 0 < Z.abs (Qnum x).
Proof.
  intros H. destruct x as [n d]. cbn.
  assert (n <> 0); [|lia].
  intros ->. apply H. reflexivity.
Qed.

Lemma ratio_le (a b c d : Q) :
  (0 < b)%Q -> (0 < d)%Q -> (a * d <= c * b)%Q -> (a / b <= c / d)%Q.
Proof.
  intros Hb Hd H.
  apply Qle_shift_div_l; [exact Hd|].
  unfold Qdiv. rewrite <- Qmult_assoc, (Qmult_comm (/ b)), Qmult_assoc.
  apply Qle_shift_div_r; [exact Hb | exact H].
Qed.

Lemma ratio_lt (a b c d : Q) :
  (0 < b)%Q -> (0 < d)%Q -> (a * d < c * b)%Q -> (a / b < c / d)%Q.
Proof.
  intros Hb Hd H.
  apply Qlt_shift_div_l; [exact Hd|].
  unfold Qdiv. rewrite <- Qmult_assoc, (Qmult_comm (/ b)), Qmult_assoc.
  apply Qlt_shift_div_r; [exact Hb | exact H].
Qed.

Lemma log2_bounds (a d : Z) :
  0 < a -> 0 < d ->
  (pow2 (Z.log2 a - Z.log2 d - 1) <= inject_Z a / inject_Z d)%Q
  /\ (inject_Z a / inject_Z d < pow2 (Z.log2 a - Z.log2 d + 1))%Q.
Proof.
  intros Ha Hd.
  destruct (Z.log2_spec a Ha) as [Ha1 Ha2]. destruct (Z.log2_spec d Hd) as [Hd1 Hd2].
  pose proof (Z.log2_nonneg a) as Hla. pose proof (Z.log2_nonneg d) as Hld.
  assert (HD : (0 < inject_Z d)%Q) by (rewrite <- (Zlt_Qlt 0); exact Hd).
  split.
  - replace (Z.log2 a - Z.log2 d - 1) with (Z.log2 a - Z.succ (Z.log2 d)) by lia.
    rewrite pow2_sub, !pow2_inject by lia.
    apply ratio_le; [rewrite <- (Zlt_Qlt 0); lia | exact HD |].
    rewrite <- !inject_Z_mult, <- Zle_Qle. nia.
  - replace (Z.log2 a - Z.log2 d + 1) with (Z.succ (Z.log2 a) - Z.log2 d) by lia.
    rewrite pow2_sub, !pow2_inject by lia.
    apply ratio_lt; [exact HD | rewrite <- (Zlt_Qlt 0); lia |].
    rewrite <- !inject_Z_mult, <- Zlt_Qlt. nia.
Qed.

(** The last digit kept by the rounding: with [e] the exponent chosen
    for [x], [2^(prec-1) <= |x| / 2^e < 2^prec]. *)
Lemma ulp_exponent_spec (prec : Z) (x : Q) :
  ~ (x == 0)%Q ->
  (pow2 (ulp_exponent prec x + (prec - 1)) <= Qabs x)%Q
  /\ (Qabs x < pow2 (ulp_exponent prec x + prec))%Q.
Proof.
  intros Hx. unfold ulp_exponent.
  pose proof (Qnum_nonzero x Hx) as Ha.
  destruct (log2_bounds (Z.abs (Qnum x)) (Z.pos (Qden x)) Ha eq_refl) as [Hlo Hhi].
  rewrite <- Qabs_ratio in Hlo, Hhi.
  set (k := Z.log2 (Z.abs (Qnum x)) - Z.log2 (Z.pos (Qden x))) in *.
  destruct (Qle_bool (pow2 k) (Qabs x)) eqn:E.
  - apply Qle_bool_iff in E. split.
    + now replace (k - (prec - 1) + (prec - 1)) with k by lia.
    + now replace (k - (prec - 1) + prec) with (k + 1) by lia.
  - split.
    + now replace (k - 1 - (prec - 1) + (prec - 1)) with (k - 1) by lia.
    + replace (k - 1 - (prec - 1) + prec) with k by lia.
      apply Qnot_le_lt. intros H. apply Qle_bool_iff in H. congruence.
Qed.

Lemma nearest_even_error (y : Q) : (Qabs (inject_Z (nearest_even y) - y) <= 1 # 2)%Q.
Proof.
  unfold nearest_even.
  pose proof (Qfloor_le y) as Hlo. pose proof (Qlt_floor y) as Hhi.
  rewrite inject_Z_plus in Hhi. change (inject_Z 1) with 1%Q in Hhi.
  apply Qabs_Qle_condition.
  destruct (Qcompare_spec (y - inject_Z (Qfloor y)) (1 # 2)) as [H | H | H].
  - destruct (Z.even (Qfloor y)); rewrite ?inject_Z_plus;
      change (inject_Z 1) with 1%Q; split; lra.
  - split; lra.
  - rewrite inject_Z_plus. change (inject_Z 1) with 1%Q. split; lra.
Qed.

Lemma round_nearest_even_error (prec : Z) (x : Q) :
  (Qabs (round_nearest_even prec x - x) * pow2 prec <= Qabs x)%Q.
Proof.
  unfold round_nearest_even.
  destruct (Qeq_bool x 0) eqn:E0.
  - apply Qeq_bool_iff in E0. rewrite E0. cbn. rewrite Qmult_0_l. discriminate.
  - assert (Hx : ~ (x == 0)%Q).
    { intros H. apply Qeq_bool_iff in H. congruence. }
    destruct (ulp_exponent_spec prec x Hx) as [Hlo _].
    set (e := ulp_exponent prec x) in *.
    pose proof (nearest_even_error (Qabs x / pow2 e)) as Hm.
    set (m := inject_Z (nearest_even (Qabs x / pow2 e))) in *.
    apply Qabs_Qle_condition in Hm.
    pose proof (pow2_pos e) as HP. pose proof (pow2_pos (prec - 1)) as HQ.
    rewrite pow2_add in Hlo.
    assert (Hprec : (pow2 prec == 2 * pow2 (prec - 1))%Q).
    { replace prec with (1 + (prec - 1)) at 1 by lia. now rewrite pow2_add. }
    assert (Hy : (Qabs x / pow2 e * pow2 e == Qabs x)%Q).
    { unfold Qdiv. rewrite <- Qmult_assoc, (Qmult_comm (/ _)), Qmult_inv_r, Qmult_1_r;
        [reflexivity | lra]. }
    rewrite Hprec.
    set (y := (Qabs x / pow2 e)%Q) in *. set (P := pow2 e) in *.
    set (R := pow2 (prec - 1)) in *.
    assert (Hbound : (Qabs (m * P - Qabs x) * (2 * R) <= Qabs x)%Q).
    { assert (Hd : (Qabs (m * P - Qabs x) <= (1 # 2) * P)%Q).
      { apply Qabs_Qle_condition. split; nra. }
      pose proof (Qabs_nonneg (m * P - Qabs x)). nra. }
    destruct (Qle_bool 0 x) eqn:Es.
    + apply Qle_bool_iff in Es. rewrite (Qabs_pos x Es) in Hbound at 1.
      rewrite Qmult_1_l. exact Hbound.
    + assert (Hneg : (x <= 0)%Q).
      { apply Qlt_le_weak, Qnot_le_lt. intros H. apply Qle_bool_iff in H. congruence. }
      rewrite (Qabs_neg x Hneg) in Hbound at 1.
      rewrite <- Qabs_opp.
      assert (Heq : (- (-1 * m * P - x) == m * P - - x)%Q) by ring.
      rewrite Heq. exact Hbound.
Qed.

Lemma binary32_error (x : Q) : (Qabs (binary32 x - x) <= (1 # 16777216) * Qabs x)%Q.
Proof.
  pose proof (round_nearest_even_error 24 x) as H.
  change (pow2 24) with (16777216 # 1)%Q in H. unfold binary32.
  pose proof (Qabs_nonneg (round_nearest_even 24 x - x)). lra.
Qed.

Lemma binary64_error (x : Q) : (Qabs (binary64 x - x) <= (1 # 9007199254740992) * Qabs x)%Q.
Proof.
  pose proof (round_nearest_even_error 53 x) as H.
  change (pow2 53) with (9007199254740992 # 1)%Q in H. unfold binary64.
  pose proof (Qabs_nonneg (round_nearest_even 53 x - x)). lra.
Qed.

(** The rounded value has [prec] binary digits: it is [m * 2^e] with
    [2^(prec-1) <= m <= 2^prec], and [m] is an integer nearest to
    [|x| / 2^e]. *)
Lemma round_nearest_even_digits (prec : Z) (x : Q) :
  1 <= prec -> ~ (x == 0)%Q ->
  let e := ulp_exponent prec x in
  let m := nearest_even (Qabs x / pow2 e) in
  round_nearest_even prec x
  = ((if Qle_bool 0 x then 1 else -1) * inject_Z m * pow2 e)%Q
  /\ 2 ^ (prec - 1) <= m <= 2 ^ prec
  /\ (Qabs (inject_Z m - Qabs x / pow2 e) <= 1 # 2)%Q.
Proof.
  intros Hprec Hx. cbv zeta.
  split.
  { unfold round_nearest_even. destruct (Qeq_bool x 0) eqn:E; [|reflexivity].
    apply Qeq_bool_iff in E. contradiction. }
  destruct (ulp_exponent_spec prec x Hx) as [Hlo Hhi].
  set (e := ulp_exponent prec x) in *.
  pose proof (nearest_even_error (Qabs x / pow2 e)) as Hm.
  split; [|exact Hm].
  apply Qabs_Qle_condition in Hm.
  pose proof (pow2_pos e) as HP.
  rewrite Z.add_comm, pow2_add in Hlo. rewrite Z.add_comm, pow2_add in Hhi.
  assert (Hy : (Qabs x / pow2 e * pow2 e == Qabs x)%Q) by (apply Qdiv_mul_cancel; exact HP).
  set (y := (Qabs x / pow2 e)%Q) in *.
  rewrite pow2_inject in Hlo by lia. rewrite pow2_inject in Hhi by lia.
  assert (Hylo : (inject_Z (2 ^ (prec - 1)) <= y)%Q) by nra.
  assert (Hyhi : (y < inject_Z (2 ^ prec))%Q) by nra.
  set (m := nearest_even y) in *.
  assert (H1 : (inject_Z (2 ^ (prec - 1) - 1) < inject_Z m)%Q).
  { assert (E : (inject_Z (2 ^ (prec - 1) - 1) == inject_Z (2 ^ (prec - 1)) - 1)%Q).
    { unfold Qeq, Qminus, Qplus, inject_Z. cbn. lia. }
    lra. }
  assert (H2 : (inject_Z m < inject_Z (2 ^ prec + 1))%Q).
  { rewrite inject_Z_plus. change (inject_Z 1) with 1%Q. lra. }
  rewrite <- Zlt_Qlt in H1, H2. lia.
Qed.

(** ** The standard model of rounded arithmetic *)

Section StandardModel.

Variables float double : Q -> Q.

Hypothesis float_error : forall x, (Qabs (float x - x) <= (1 # 16777216) * Qabs x)%Q.

Hypothesis double_error :
  forall x, (Qabs (double x - x) <= (1 # 9007199254740992) * Qabs x)%Q.

Lemma float_nonneg (x : Q) :
  (0 <= x)%Q ->
  ((1 - (1 # 16777216)) * x <= float x)%Q /\ (float x <= (1 + (1 # 16777216)) * x)%Q.
Proof.
  intros Hx. pose proof (float_error x) as H.
  rewrite (Qabs_pos x Hx) in H. apply Qabs_Qle_condition in H. split; lra.
Qed.

Lemma float_nonpos (x : Q) :
  (x <= 0)%Q ->
  ((1 + (1 # 16777216)) * x <= float x)%Q /\ (float x <= (1 - (1 # 16777216)) * x)%Q.
Proof.
  intros Hx. pose proof (float_error x) as H.
  rewrite (Qabs_neg x Hx) in H. apply Qabs_Qle_condition in H. split; lra.
Qed.

Lemma float_pos (x : Q) : (0 < x)%Q -> (0 < float x)%Q.
Proof. intros Hx. destruct (float_nonneg x) as [H _]; lra. Qed.

Lemma double_pos (x : Q) : (0 < x)%Q -> (0 < double x)%Q.
Proof.
  intros Hx. pose proof (double_error x) as H.
  rewrite (Qabs_pos x) in H by lra. apply Qabs_Qle_condition in H. lra.
Qed.

Lemma rounded_budgetMeasurement_pos (s : PhysicsTaskScheduler) :
  (0 < Rounded.budgetMeasurement float s)%Q.
Proof.
  unfold Rounded.budgetMeasurement.
  eapply Qlt_le_trans; [|apply std_max_ge_l]. apply float_pos. reflexivity.
Qed.

Lemma Qceiling_pos (x : Q) : (0 < x)%Q -> 1 <= Qceiling x.
Proof.
  intros Hx. pose proof (Qle_ceiling x) as H.
  assert (H0 : (0 < inject_Z (Qceiling x))%Q) by lra.
  rewrite <- (Zlt_Qlt 0) in H0. lia.
Qed.

Lemma rounded_maxAllowedSteps_bounds (s : PhysicsTaskScheduler) :
  1 <= Rounded.maxAllowedSteps float double s <= 10.
Proof.
  unfold Rounded.maxAllowedSteps.
  pose proof (rounded_budgetMeasurement_pos s) as Hb.
  destruct (Qltb (Rounded.budgetMeasurement float s) (double (1 # 2))).
  - assert (1 <= Qceiling (double (double 1 / Rounded.budgetMeasurement float s))).
    { apply Qceiling_pos, double_pos. apply Qlt_shift_div_l; [exact Hb|].
      rewrite Qmult_0_l. apply double_pos. reflexivity. }
    lia.
  - destruct (Qltb (double (95 # 100)) (Rounded.budgetMeasurement float s)); lia.
Qed.

End StandardModel.

Section StepsWithRounding.

Variables float double : Q -> Q.

Hypothesis float_error : forall x, (Qabs (float x - x) <= (1 # 16777216) * Qabs x)%Q.

Hypothesis double_error :
  forall x, (Qabs (double x - x) <= (1 # 9007199254740992) * Qabs x)%Q.

(** Outside the fallback the time covered by the steps, as the code
    computes it, exceeds the accumulated time by three roundings at most. *)
Lemma rounded_regular (s : PhysicsTaskScheduler) (timeAccum : Q) :
  (0 < mDefaultPhysicsDt s)%Q -> (0 <= timeAccum)%Q ->
  let numSteps := float_to_int (float (timeAccum / mDefaultPhysicsDt s)) in
  0 <= numSteps
  /\ (inject_Z numSteps * mDefaultPhysicsDt s <= (1 + (1 # 16777216)) * timeAccum)%Q
  /\ (0 <= float (float (inject_Z numSteps) * mDefaultPhysicsDt s))%Q
  /\ (float (float (inject_Z numSteps) * mDefaultPhysicsDt s)
      <= (1 + (1 # 16777216)) * ((1 + (1 # 16777216)) * ((1 + (1 # 16777216)) * timeAccum)))%Q.
Proof.
  intros Hdt Ht. cbv zeta.
  set (dt := mDefaultPhysicsDt s) in *.
  pose proof (Qdiv_mul_cancel timeAccum dt Hdt) as Hr.
  assert (Hr0 : (0 <= timeAccum / dt)%Q).
  { apply Qle_shift_div_l; [exact Hdt | lra]. }
  set (r := (timeAccum / dt)%Q) in *.
  destruct (float_nonneg float float_error r Hr0) as [Hq0 Hq1].
  set (q := float r) in *.
  assert (Hq : (0 <= q)%Q) by nra.
  pose proof (float_to_int_nonneg q Hq) as Hn.
  pose proof (float_to_int_le q Hq) as HN.
  set (n := float_to_int q) in *.
  assert (HN0 : (0 <= inject_Z n)%Q) by (rewrite <- (Zle_Qle 0); exact Hn).
  set (N := inject_Z n) in *.
  destruct (float_nonneg float float_error N HN0) as [Hf0 Hf1].
  set (fn := float N) in *.
  assert (Hfn : (0 <= fn)%Q) by nra.
  assert (Hprod : (0 <= fn * dt)%Q) by nra.
  destruct (float_nonneg float float_error (fn * dt) Hprod) as [Hp0 Hp1].
  set (p := float (fn * dt)) in *.
  assert (H1 : (N * dt <= (1 + (1 # 16777216)) * timeAccum)%Q) by nra.
  assert (H2 : (fn * dt <= (1 + (1 # 16777216)) * ((1 + (1 # 16777216)) * timeAccum))%Q)
    by nra.
  split; [exact Hn|]. split; [exact H1|]. split; [nra|]. nra.
Qed.

End StepsWithRounding.

Section FallbackWithRounding.

Variables float double : Q -> Q.

Hypothesis float_error : forall x, (Qabs (float x - x) <= (1 # 16777216) * Qabs x)%Q.

Hypothesis double_error :
  forall x, (Qabs (double x - x) <= (1 # 9007199254740992) * Qabs x)%Q.

(** In the fallback the time covered by the steps, as the code computes
    it, is within the accumulated time. *)
Lemma rounded_fallback (s : PhysicsTaskScheduler) (timeAccum : Q) :
  (0 < mDefaultPhysicsDt s)%Q -> (0 <= timeAccum)%Q ->
  let numSteps := Rounded.maxAllowedSteps float double s in
  numSteps < float_to_int (float (timeAccum / mDefaultPhysicsDt s)) ->
  let stepDt :=
    std_max (float (timeAccum / float (inject_Z (numSteps + 1)))) (mDefaultPhysicsDt s) in
  (inject_Z numSteps * stepDt <= timeAccum)%Q
  /\ (0 <= float (float (inject_Z numSteps) * stepDt))%Q
  /\ (float (float (inject_Z numSteps) * stepDt) <= timeAccum)%Q.
Proof.
  intros Hdt Ht. cbv zeta. intros Hcap.
  pose proof (rounded_maxAllowedSteps_bounds float double float_error double_error s)
    as [HM1 HM10].
  set (m := Rounded.maxAllowedSteps float double s) in *.
  set (dt := mDefaultPhysicsDt s) in *.
  (* the quotient *)
  pose proof (Qdiv_mul_cancel timeAccum dt Hdt) as Hr.
  assert (Hr0 : (0 <= timeAccum / dt)%Q).
  { apply Qle_shift_div_l; [exact Hdt | lra]. }
  set (r := (timeAccum / dt)%Q) in *.
  destruct (float_nonneg float float_error r Hr0) as [Hq0 Hq1].
  set (q := float r) in *.
  assert (Hq : (0 <= q)%Q) by nra.
  pose proof (float_to_int_le q Hq) as HN.
  assert (HK : (inject_Z (m + 1) <= q)%Q).
  { eapply Qle_trans; [|exact HN]. rewrite <- Zle_Qle. lia. }
  assert (HK2 : (2 <= inject_Z (m + 1))%Q).
  { change 2%Q with (inject_Z 2). rewrite <- Zle_Qle. lia. }
  assert (HK11 : (inject_Z (m + 1) <= 11)%Q).
  { change 11%Q with (inject_Z 11). rewrite <- Zle_Qle. lia. }
  assert (HMK : (inject_Z m == inject_Z (m + 1) - 1)%Q).
  { rewrite inject_Z_plus. change (inject_Z 1) with 1%Q. ring. }
  set (K := inject_Z (m + 1)) in *.
  assert (HKdt : (K * dt <= (1 + (1 # 16777216)) * timeAccum)%Q) by nra.
  (* the converted step counts *)
  destruct (float_nonneg float float_error K ltac:(lra)) as [Hc0 Hc1].
  set (c := float K) in *.
  assert (Hc : (0 < c)%Q) by nra.
  assert (HM0 : (0 <= inject_Z m)%Q) by lra.
  destruct (float_nonneg float float_error (inject_Z m) HM0) as [Hf0 Hf1].
  set (fm := float (inject_Z m)) in *.
  assert (Hfm : (0 <= fm)%Q) by nra.
  (* the variable step *)
  pose proof (Qdiv_mul_cancel timeAccum c Hc) as Hx.
  assert (Hx0 : (0 <= timeAccum / c)%Q).
  { apply Qle_shift_div_l; [exact Hc | lra]. }
  set (x := (timeAccum / c)%Q) in *.
  destruct (float_nonneg float float_error x Hx0) as [Hd0 Hd1].
  set (d := float x) in *.
  assert (Hd : (0 <= d)%Q) by nra.
  assert (HdK : (d * K * (1 - (1 # 16777216)) <= (1 + (1 # 16777216)) * timeAccum)%Q).
  { assert (d * c <= (1 + (1 # 16777216)) * timeAccum)%Q by nra.
    assert (d * (K * (1 - (1 # 16777216))) <= d * c)%Q by nra. lra. }
  unfold std_max. destruct (Qltb d dt) eqn:E.
  - (* the step is the target step *)
    apply Qltb_lt in E.
    assert (Hsmall : ((1 - (1 # 16777216)) * timeAccum
                      <= (1 + (1 # 16777216)) * 11 * dt)%Q).
    { assert (x * c <= x * ((1 + (1 # 16777216)) * K))%Q by nra.
      assert ((1 - (1 # 16777216)) * (x * K) <= dt * K)%Q by nra.
      assert (dt * K <= dt * 11)%Q by nra. nra. }
    assert (Hcov : (inject_Z m * dt <= timeAccum)%Q) by nra.
    assert (Hprod : (0 <= fm * dt)%Q) by nra.
    destruct (float_nonneg float float_error (fm * dt) Hprod) as [Hp0 Hp1].
    split; [exact Hcov|]. split; [nra|].
    assert (fm * dt <= (1 + (1 # 16777216)) * (inject_Z m * dt))%Q by nra.
    nra.
  - (* the step is the variable one *)
    apply Qltb_ge in E.
    assert (Hslack : (0 <= d * (1 + (1 # 16777216) - 2 * (1 # 16777216) * K))%Q).
    { apply Qmult_le_0_compat; lra. }
    assert (Hcov : (inject_Z m * d <= timeAccum)%Q) by nra.
    assert (Hprod : (0 <= fm * d)%Q) by nra.
    destruct (float_nonneg float float_error (fm * d) Hprod) as [Hp0 Hp1].
    split; [exact Hcov|]. split; [nra|].
    assert (Hfd : (fm * d <= (1 + (1 # 16777216)) * (inject_Z m * d))%Q) by nra.
    assert (Hslack3 : (0 <= d * ((1 - (1 # 16777216)) * K
                                 - (1 + (1 # 16777216)) * (1 + (1 # 16777216))
                                   * (1 + (1 # 16777216)) * (K - 1)))%Q).
    { apply Qmult_le_0_compat; lra. }
    nra.
Qed.

End FallbackWithRounding.

(** ** The leftover of a frame *)

Lemma rounded_applyQueuedMovements_leftover (float double : Q -> Q)
    (U : Q -> Z -> Z -> BudgetMeasurement.t -> BudgetMeasurement.t)
    (timeAccum : Q) (actors : list shared_ptr) (actorsData : list ActorFrameData.t)
    (a : Q) (s : PhysicsTaskScheduler) :
  length actors = length actorsData ->
  let s1 := after (finishPreviousFrame U a s) in
  let config := Rounded.calculateStepConfig float double s1 timeAccum in
  let leftover := float (timeAccum - float (float (inject_Z config.1) * config.2))%Q in
  let submitted := Rounded.applyQueuedMovements float double U timeAccum actors actorsData a s in
  option_map fst (result submitted) = Some leftover
  /\ mTimeAccum (after submitted) = leftover
  /\ mRemainingSteps (after submitted) = config.1
  /\ mPhysicsDt (after submitted) = config.2.
Proof.
  intros Hlen. cbv zeta. unfold Rounded.applyQueuedMovements.
  unfold bind at 1. unfold emit at 1. cbn [fst snd].
  rewrite Hlen, Nat.eqb_refl. cbn [negb].
  repeat split; reflexivity.
Qed.

Lemma rounded_applyQueuedMovements_assert (float double : Q -> Q)
    (U : Q -> Z -> Z -> BudgetMeasurement.t -> BudgetMeasurement.t)
    (timeAccum : Q) (actors : list shared_ptr) (actorsData : list ActorFrameData.t)
    (a : Q) (s : PhysicsTaskScheduler) :
  length actors <> length actorsData ->
  Rounded.applyQueuedMovements float double U timeAccum actors actorsData a s
  = (None, s, [Acquire mSimulationMutex Exclusive]).
Proof.
  intros Hlen. unfold Rounded.applyQueuedMovements.
  unfold bind at 1. unfold emit at 1. cbn [fst snd].
  apply Nat.eqb_neq in Hlen. rewrite Hlen. reflexivity.
Qed.

(** The step configuration without rounding is the rounded one with the
    identity for both roundings. *)
Lemma calculateStepConfig_no_rounding (s : PhysicsTaskScheduler) (timeAccum : Q) :
  Rounded.calculateStepConfig (fun x => x) (fun x => x) s timeAccum
  = calculateStepConfig s timeAccum.
Proof. reflexivity. Qed.

(** C1, as the code has it.  With a positive target step, a
    non-negative accumulated time and as many actors as frame data,
    [applyQueuedMovements] hands back and stores as leftover the rounded
    difference of the accumulated time and the rounded product of the
    number of steps and the step that [calculateStepConfig] returned.
    When every single-precision operation has a relative rounding error
    of at most [2^-24] (and every double-precision one of at most
    [2^-53]), the steps cover the accumulated time up to one rounding
    error, [numSteps * stepDt <= (1 + 2^-24) * accumulated], and the
    leftover is not below [-2^-22] times the accumulated time; in the
    variable-timestep fallback the steps cover no more than the
    accumulated time and the leftover is not negative. *)
Theorem leftover_within_rounding (float double : Q -> Q)
    (U : Q -> Z -> Z -> BudgetMeasurement.t -> BudgetMeasurement.t)
    (s : PhysicsTaskScheduler) (timeAccum : Q) (actors : list shared_ptr)
    (actorsData : list ActorFrameData.t) (asyncSeconds : Q) :
  (forall x, Qabs (float x - x) <= (1 # 16777216) * Qabs x)%Q ->
  (forall x, Qabs (double x - x) <= (1 # 9007199254740992) * Qabs x)%Q ->
  (0 < mDefaultPhysicsDt s)%Q -> (0 <= timeAccum)%Q ->
  length actors = length actorsData ->
  let s1 := after (finishPreviousFrame U asyncSeconds s) in
  let config := Rounded.calculateStepConfig float double s1 timeAccum in
  let leftover := float (timeAccum - float (float (inject_Z config.1) * config.2))%Q in
  let submitted :=
    Rounded.applyQueuedMovements float double U timeAccum actors actorsData asyncSeconds s in
  option_map fst (result submitted) = Some leftover
  /\ mTimeAccum (after submitted) = leftover
  /\ (inject_Z config.1 * config.2 <= (1 + (1 # 16777216)) * timeAccum)%Q
  /\ (- (1 # 4194304) * timeAccum <= leftover)%Q
  /\ (Rounded.maxAllowedSteps float double s1
      < float_to_int (float (timeAccum / mDefaultPhysicsDt s1)%Q) ->
      (inject_Z config.1 * config.2 <= timeAccum)%Q /\ (0 <= leftover)%Q).
Proof.
  intros Hfloat Hdouble Hdt Ht Hlen. cbv zeta.
  destruct (rounded_applyQueuedMovements_leftover float double U timeAccum actors actorsData
              asyncSeconds s Hlen) as (E1 & E2 & _).
  split; [exact E1|]. split; [exact E2|]. clear E1 E2.
  set (s1 := after (finishPreviousFrame U asyncSeconds s)).
  assert (Hdt1 : (0 < mDefaultPhysicsDt s1)%Q).
  { subst s1. now rewrite finishPreviousFrame_dt. }
  unfold Rounded.calculateStepConfig.
  destruct (Z.gtb_spec (float_to_int (float (timeAccum / mDefaultPhysicsDt s1)%Q))
                       (Rounded.maxAllowedSteps float double s1)) as [Hfb | Hreg];
    cbn [fst snd].
  - destruct (rounded_fallback float double Hfloat Hdouble s1 timeAccum Hdt1 Ht Hfb)
      as (Hcov & Hp0 & Hp).
    set (p := float (float (inject_Z (Rounded.maxAllowedSteps float double s1)) * _)%Q) in *.
    destruct (float_nonneg float Hfloat (timeAccum - p) ltac:(lra)) as [Hl _].
    split; [lra|]. split; [nra|]. intros _. split; [exact Hcov | nra].
  - destruct (rounded_regular float Hfloat s1 timeAccum Hdt1 Ht) as (Hn & Hcov & Hp0 & Hp).
    set (p := float (float (inject_Z _) * _)%Q) in *.
    split; [exact Hcov|]. split; [|intros Hcontra; lia].
    destruct (Qlt_le_dec (timeAccum - p) 0) as [Hneg | Hpos].
    + destruct (float_nonpos float Hfloat (timeAccum - p) ltac:(lra)) as [Hl _]. nra.
    + destruct (float_nonneg float Hfloat (timeAccum - p) Hpos) as [Hl _]. nra.
Qed.

Lemma leftover_within_rounding_witness :
  (- (1 # 4194304) * binary32 (1 # 20)
   <= mTimeAccum
        (after (Rounded.applyQueuedMovements binary32 binary64 exampleUpdate
                  (binary32 (1 # 20)) [actorAt 1 0] [exampleFrameData 3 5] (1 # 100)
                  (withBudgets (binary32 (1 # 240)) (binary32 (1 # 600)) floatScheduler))))%Q
  /\ (0 <= mTimeAccum
             (after (Rounded.applyQueuedMovements binary32 binary64 exampleUpdate
                       1 [actorAt 1 0] [exampleFrameData 3 5] (1 # 100)
                       (withBudgets (binary32 (1 # 240)) (binary32 (1 # 600))
                          floatScheduler))))%Q.
Proof.
  pose proof (leftover_within_rounding binary32 binary64 exampleUpdate
                (withBudgets (binary32 (1 # 240)) (binary32 (1 # 600)) floatScheduler)
                (binary32 (1 # 20)) [actorAt 1 0] [exampleFrameData 3 5] (1 # 100)
                binary32_error binary64_error) as H1.
  pose proof (leftover_within_rounding binary32 binary64 exampleUpdate
                (withBudgets (binary32 (1 # 240)) (binary32 (1 # 600)) floatScheduler)
                1 [actorAt 1 0] [exampleFrameData 3 5] (1 # 100)
                binary32_error binary64_error) as H2.
  cbv zeta in H1, H2.
  destruct H1 as (_ & E1 & _ & Hlow & _);
    [vm_compute; reflexivity | vm_compute; discriminate | reflexivity |].
  destruct H2 as (_ & E2 & _ & _ & Hfb);
    [vm_compute; reflexivity | vm_compute; discriminate | reflexivity |].
  split.
  - rewrite E1. exact Hlow.
  - rewrite E2. apply Hfb. vm_compute. reflexivity.
Defined.

(** C1, as stated, fails: with the target step [1/60f], the budgets
    [1/240f] and [1/600f] and the accumulated time [0.05f] the quotient
    rounds up to 3, three steps of the target step are run, they cover
    more than the accumulated time, and the leftover handed back is
    [-2^-28]. *)
Lemma leftover_negative_by_rounding :
  let s := withBudgets (binary32 (1 # 240)) (binary32 (1 # 600)) floatScheduler in
  let timeAccum := binary32 (1 # 20) in
  let config := Rounded.calculateStepConfig binary32 binary64 s timeAccum in
  let submitted :=
    Rounded.applyQueuedMovements binary32 binary64 exampleUpdate timeAccum
      [actorAt 1 0] [exampleFrameData 3 5] (1 # 100) s in
  (0 <= timeAccum)%Q
  /\ config.1 = 3
  /\ (config.2 == mDefaultPhysicsDt s)%Q
  /\ ~ (inject_Z config.1 * config.2 <= timeAccum)%Q
  /\ (mTimeAccum (after submitted) == - (1 # 268435456))%Q
  /\ ~ (0 <= mTimeAccum (after submitted))%Q
  /\ exists leftover,
       option_map fst (result submitted) = Some leftover /\ ~ (0 <= leftover)%Q.
Proof.
  cbv zeta. split; [vm_compute; discriminate|]. split; [vm_compute; reflexivity|].
  split; [vm_compute; reflexivity|]. split; [vm_compute; intros H; now apply H|].
  split; [vm_compute; reflexivity|]. split; [vm_compute; intros H; now apply H|].
  eexists. split; [vm_compute; reflexivity|]. vm_compute. intros H. now apply H.
Qed.

(** X1.  With the rounding of single precision, outside the fallback
    (the whole target steps counted in the accumulated time do not
    exceed the step allowance) [calculateStepConfig] keeps the target
    step, and the leftover that [applyQueuedMovements] computes from
    its result is one target step at most, up to rounding: it is
    neither below [-2^-22] times the accumulated time nor as much as
    [1 + 2^-18] target steps. *)
Theorem leftover_below_one_step (float double : Q -> Q) (s : PhysicsTaskScheduler)
    (timeAccum : Q) :
  (forall x, Qabs (float x - x) <= (1 # 16777216) * Qabs x)%Q ->
  (forall x, Qabs (double x - x) <= (1 # 9007199254740992) * Qabs x)%Q ->
  (0 < mDefaultPhysicsDt s)%Q -> (0 <= timeAccum)%Q ->
  float_to_int (float (timeAccum / mDefaultPhysicsDt s)%Q)
    <= Rounded.maxAllowedSteps float double s ->
  let config := Rounded.calculateStepConfig float double s timeAccum in
  let leftover := float (timeAccum - float (float (inject_Z config.1) * config.2))%Q in
  config.1 = float_to_int (float (timeAccum / mDefaultPhysicsDt s)%Q)
  /\ config.2 = mDefaultPhysicsDt s
  /\ (- (1 # 4194304) * timeAccum <= leftover)%Q
  /\ (leftover < (1 + (1 # 262144)) * mDefaultPhysicsDt s)%Q.
Proof.
  intros Hfloat Hdouble Hdt Ht Hin. cbv zeta.
  pose proof (rounded_maxAllowedSteps_bounds float double Hfloat Hdouble s) as [_ HM10].
  unfold Rounded.calculateStepConfig.
  destruct (Z.gtb_spec (float_to_int (float (timeAccum / mDefaultPhysicsDt s)%Q))
                       (Rounded.maxAllowedSteps float double s)) as [Hfb | _]; [lia|].
  cbn [fst snd]. split; [reflexivity|]. split; [reflexivity|].
  destruct (rounded_regular float Hfloat s timeAccum Hdt Ht) as (Hn & _ & Hp0 & Hp).
  set (dt := mDefaultPhysicsDt s) in *.
  pose proof (Qdiv_mul_cancel timeAccum dt Hdt) as Hr.
  assert (Hr0 : (0 <= timeAccum / dt)%Q).
  { apply Qle_shift_div_l; [exact Hdt | lra]. }
  set (r := (timeAccum / dt)%Q) in *.
  destruct (float_nonneg float Hfloat r Hr0) as [Hq0 _].
  set (q := float r) in *.
  assert (Hq : (0 <= q)%Q) by nra.
  pose proof (float_to_int_lt q Hq) as Hlt.
  rewrite inject_Z_plus in Hlt. change (inject_Z 1) with 1%Q in Hlt.
  set (n := float_to_int q) in *.
  assert (HN0 : (0 <= inject_Z n)%Q) by (rewrite <- (Zle_Qle 0); exact Hn).
  assert (HN10 : (inject_Z n <= 10)%Q).
  { change 10%Q with (inject_Z 10). rewrite <- Zle_Qle. lia. }
  set (N := inject_Z n) in *.
  destruct (float_nonneg float Hfloat N HN0) as [Hf0 _].
  set (fn := float N) in *.
  assert (Hfn : (0 <= fn)%Q) by nra.
  assert (Hprod : (0 <= fn * dt)%Q) by nra.
  destruct (float_nonneg float Hfloat (fn * dt) Hprod) as [Hpl _].
  set (p := float (fn * dt)%Q) in *.
  assert (Ht1 : ((1 - (1 # 16777216)) * timeAccum < (N + 1) * dt)%Q) by nra.
  assert (Hp1 : ((1 - (1 # 16777216)) * ((1 - (1 # 16777216)) * (N * dt)) <= p)%Q) by nra.
  assert (HNdt : (0 <= N * dt)%Q) by nra.
  assert (HNdt10 : (N * dt <= 10 * dt)%Q) by nra.
  destruct (Qlt_le_dec (timeAccum - p) 0) as [Hneg | Hpos].
  - destruct (float_nonpos float Hfloat (timeAccum - p) ltac:(lra)) as [Hl Hu].
    split; nra.
  - destruct (float_nonneg float Hfloat (timeAccum - p) Hpos) as [Hl Hu].
    split; [nra|].
    assert (H1 : ((1 - (1 # 16777216)) * (timeAccum - p)
                  < (1 + 30 * (1 # 16777216)) * dt)%Q) by nra.
    nra.
Qed.

Lemma leftover_below_one_step_witness :
  (Rounded.calculateStepConfig binary32 binary64 floatScheduler (binary32 (1 # 40))).1 = 1
  /\ (binary32 (binary32 (1 # 40)
                - binary32 (binary32 (inject_Z
                      (Rounded.calculateStepConfig binary32 binary64 floatScheduler
                         (binary32 (1 # 40))).1)
                    * (Rounded.calculateStepConfig binary32 binary64 floatScheduler
                         (binary32 (1 # 40))).2))
      < (1 + (1 # 262144)) * mDefaultPhysicsDt floatScheduler)%Q.
Proof.
  split; [vm_compute; reflexivity|].
  apply (leftover_below_one_step binary32 binary64 floatScheduler (binary32 (1 # 40))
           binary32_error binary64_error);
    [vm_compute; reflexivity | vm_compute; discriminate | vm_compute; discriminate].
Defined.

(** X2.  With the rounding of single precision, in the fallback (more
    whole target steps counted than the allowance) the number of steps
    is the allowance, between 1 and 10; the step is the accumulated time
    divided by the allowance plus one, raised to the target step; the
    steps cover no more than the accumulated time, so the leftover is
    not negative; and the leftover is one such step up to rounding: the
    two differ by at most [2^-19] times the accumulated time. *)
Theorem fallback_leftover_is_one_step (float double : Q -> Q) (s : PhysicsTaskScheduler)
    (timeAccum : Q) :
  (forall x, Qabs (float x - x) <= (1 # 16777216) * Qabs x)%Q ->
  (forall x, Qabs (double x - x) <= (1 # 9007199254740992) * Qabs x)%Q ->
  (0 < mDefaultPhysicsDt s)%Q -> (0 <= timeAccum)%Q ->
  Rounded.maxAllowedSteps float double s
    < float_to_int (float (timeAccum / mDefaultPhysicsDt s)%Q) ->
  let config := Rounded.calculateStepConfig float double s timeAccum in
  let leftover := float (timeAccum - float (float (inject_Z config.1) * config.2))%Q in
  config.1 = Rounded.maxAllowedSteps float double s
  /\ 1 <= config.1 <= 10
  /\ config.2
     = std_max (float (timeAccum / float (inject_Z (config.1 + 1)))%Q) (mDefaultPhysicsDt s)
  /\ (mDefaultPhysicsDt s <= config.2)%Q
  /\ (inject_Z config.1 * config.2 <= timeAccum)%Q
  /\ (0 <= leftover)%Q
  /\ (Qabs (leftover - config.2) <= (1 # 524288) * timeAccum)%Q.
Proof.
  intros Hfloat Hdouble Hdt Ht Hcap. cbv zeta.
  pose proof (rounded_maxAllowedSteps_bounds float double Hfloat Hdouble s) as [HM1 HM10].
  destruct (rounded_fallback float double Hfloat Hdouble s timeAccum Hdt Ht Hcap)
    as (Hcov & Hp0 & Hp).
  unfold Rounded.calculateStepConfig.
  destruct (Z.gtb_spec (float_to_int (float (timeAccum / mDefaultPhysicsDt s)%Q))
                       (Rounded.maxAllowedSteps float double s)) as [_ | Hno]; [|lia].
  cbn [fst snd].
  split; [reflexivity|]. split; [lia|]. split; [reflexivity|].
  split; [apply std_max_ge_r|]. split; [exact Hcov|].
  set (m := Rounded.maxAllowedSteps float double s) in *.
  set (dt := mDefaultPhysicsDt s) in *.
  (* the quotient *)
  pose proof (Qdiv_mul_cancel timeAccum dt Hdt) as Hr.
  assert (Hr0 : (0 <= timeAccum / dt)%Q).
  { apply Qle_shift_div_l; [exact Hdt | lra]. }
  set (r := (timeAccum / dt)%Q) in *.
  destruct (float_nonneg float Hfloat r Hr0) as [Hq0 Hq1].
  set (q := float r) in *.
  assert (Hq : (0 <= q)%Q) by nra.
  pose proof (float_to_int_le q Hq) as HN.
  assert (HK : (inject_Z (m + 1) <= q)%Q).
  { eapply Qle_trans; [|exact HN]. rewrite <- Zle_Qle. lia. }
  assert (HK2 : (2 <= inject_Z (m + 1))%Q).
  { change 2%Q with (inject_Z 2). rewrite <- Zle_Qle. lia. }
  assert (HK11 : (inject_Z (m + 1) <= 11)%Q).
  { change 11%Q with (inject_Z 11). rewrite <- Zle_Qle. lia. }
  assert (HMK : (inject_Z m == inject_Z (m + 1) - 1)%Q).
  { rewrite inject_Z_plus. change (inject_Z 1) with 1%Q. ring. }
  set (K := inject_Z (m + 1)) in *.
  assert (HKdt : (dt * K <= (1 + (1 # 16777216)) * timeAccum)%Q) by nra.
  (* the converted step counts *)
  destruct (float_nonneg float Hfloat K ltac:(lra)) as [Hc0 Hc1].
  set (c := float K) in *.
  assert (Hc : (0 < c)%Q) by nra.
  assert (HM0 : (0 <= inject_Z m)%Q) by lra.
  destruct (float_nonneg float Hfloat (inject_Z m) HM0) as [Hf0 Hf1].
  set (fm := float (inject_Z m)) in *.
  assert (Hfm : (0 <= fm)%Q) by nra.
  (* the variable step *)
  pose proof (Qdiv_mul_cancel timeAccum c Hc) as Hx.
  assert (Hx0 : (0 <= timeAccum / c)%Q).
  { apply Qle_shift_div_l; [exact Hc | lra]. }
  set (x := (timeAccum / c)%Q) in *.
  destruct (float_nonneg float Hfloat x Hx0) as [Hd0 Hd1].
  set (d := float x) in *.
  assert (Hd : (0 <= d)%Q) by nra.
  assert (HdK : ((1 - (1 # 16777216)) * (d * K) <= (1 + (1 # 16777216)) * timeAccum)%Q).
  { assert (d * c <= (1 + (1 # 16777216)) * timeAccum)%Q by nra.
    assert (d * (K * (1 - (1 # 16777216))) <= d * c)%Q by nra. lra. }
  assert (HdK' : ((1 - (1 # 16777216)) * timeAccum <= (1 + (1 # 16777216)) * (d * K))%Q).
  { assert ((1 - (1 # 16777216)) * timeAccum <= d * c)%Q by nra.
    assert (d * c <= d * (K * (1 + (1 # 16777216))))%Q by nra. lra. }
  unfold std_max in *. destruct (Qltb d dt) eqn:E.
  - (* the step is the target step *)
    apply Qltb_lt in E.
    assert (HdtK : (d * K <= dt * K)%Q) by nra.
    assert (Hdt2 : (2 * dt <= dt * K)%Q) by nra.
    assert (Hfmdt : ((1 - (1 # 16777216)) * (dt * K - dt) <= fm * dt
                     /\ fm * dt <= (1 + (1 # 16777216)) * (dt * K - dt))%Q) by nra.
    assert (Hprod : (0 <= fm * dt)%Q) by nra.
    destruct (float_nonneg float Hfloat (fm * dt) Hprod) as [Hpl Hpu].
    set (p := float (fm * dt)%Q) in *.
    destruct (float_nonneg float Hfloat (timeAccum - p) ltac:(lra)) as [Hl Hu].
    set (l := float (timeAccum - p)%Q) in *.
    split; [nra|]. apply Qabs_Qle_condition. split; nra.
  - (* the step is the variable one *)
    apply Qltb_ge in E.
    assert (Hd2 : (2 * d <= d * K)%Q) by nra.
    assert (Hfmd : ((1 - (1 # 16777216)) * (d * K - d) <= fm * d
                    /\ fm * d <= (1 + (1 # 16777216)) * (d * K - d))%Q) by nra.
    assert (Hprod : (0 <= fm * d)%Q) by nra.
    destruct (float_nonneg float Hfloat (fm * d) Hprod) as [Hpl Hpu].
    set (p := float (fm * d)%Q) in *.
    destruct (float_nonneg float Hfloat (timeAccum - p) ltac:(lra)) as [Hl Hu].
    set (l := float (timeAccum - p)%Q) in *.
    split; [nra|]. apply Qabs_Qle_condition. split; nra.
Qed.

Lemma fallback_leftover_is_one_step_witness :
  (Rounded.calculateStepConfig binary32 binary64
     (withBudgets (binary32 (1 # 240)) (binary32 (1 # 600)) floatScheduler) 1).1 = 4
  /\ (Qabs (binary32 (1 - binary32 (binary32 (inject_Z
                 (Rounded.calculateStepConfig binary32 binary64
                    (withBudgets (binary32 (1 # 240)) (binary32 (1 # 600)) floatScheduler)
                    1).1)
               * (Rounded.calculateStepConfig binary32 binary64
                    (withBudgets (binary32 (1 # 240)) (binary32 (1 # 600)) floatScheduler)
                    1).2))
            - (Rounded.calculateStepConfig binary32 binary64
                 (withBudgets (binary32 (1 # 240)) (binary32 (1 # 600)) floatScheduler)
                 1).2)
      <= (1 # 524288) * 1)%Q.
Proof.
  pose proof (fallback_leftover_is_one_step binary32 binary64
                (withBudgets (binary32 (1 # 240)) (binary32 (1 # 600)) floatScheduler) 1
                binary32_error binary64_error) as H.
  cbv zeta in H.
  destruct H as (H1 & _ & _ & _ & _ & _ & H7);
    [vm_compute; reflexivity | vm_compute; discriminate | vm_compute; reflexivity |].
  split; [rewrite H1; vm_compute; reflexivity | exact H7].
Defined.

(** * The line-of-sight cache over frame ends *)

(** ** Frame ends with and without worker threads *)

Lemma endOfFrame_threads (env : Env) (s : PhysicsTaskScheduler) :
  mNumThreads (endOfFrame env s) = mNumThreads s.
Proof.
  unfold endOfFrame.
  destruct (refreshLOSCache_spec env (set_mNextLOS 0 s)) as [_ Hafter]; [cbn; lia|].
  rewrite Hafter. reflexivity.
Qed.

Lemma endOfSyncFrame_threads (env : Env) (s : PhysicsTaskScheduler) :
  mNumThreads (endOfSyncFrame env s) = mNumThreads s.
Proof.
  unfold endOfSyncFrame.
  destruct (refreshLOSCache_spec env (set_mNextLOS 0 s)) as [_ Hafter]; [cbn; lia|].
  rewrite Hafter. reflexivity.
Qed.

Lemma frameEnd_workers (env : Env) (s : PhysicsTaskScheduler) :
  mNumThreads s <> 0 -> frameEnd env s = endOfFrame env s.
Proof. intros H. unfold frameEnd. now destruct (Z.eqb_spec (mNumThreads s) 0). Qed.

Lemma frameEnd_calling_thread (env : Env) (s : PhysicsTaskScheduler) :
  mNumThreads s = 0 -> frameEnd env s = endOfSyncFrame env s.
Proof. intros H. unfold frameEnd. now rewrite H. Qed.

Lemma frameEnds_workers (envs : list Env) :
  forall s, mNumThreads s <> 0 -> frameEnds envs s = endOfFrames envs s.
Proof.
  induction envs as [|env envs IH]; intros s H; [reflexivity|].
  cbn [frameEnds endOfFrames]. rewrite (frameEnd_workers env s H).
  apply IH. now rewrite endOfFrame_threads.
Qed.

Lemma frameEnds_calling_thread (envs : list Env) :
  forall s, mNumThreads s = 0 -> frameEnds envs s = endOfSyncFrames envs s.
Proof.
  induction envs as [|env envs IH]; intros s H; [reflexivity|].
  cbn [frameEnds endOfSyncFrames]. rewrite (frameEnd_calling_thread env s H).
  apply IH. now rewrite endOfSyncFrame_threads.
Qed.

Lemma getLineOfSight_threads (w : btCollisionWorld) (actor1 actor2 : shared_ptr)
    (s : PhysicsTaskScheduler) :
  mNumThreads (after (getLineOfSight w actor1 actor2 s)) = mNumThreads s
  /\ mLOSCacheExpiry (after (getLineOfSight w actor1 actor2 s)) = mLOSCacheExpiry s.
Proof. rewrite getLineOfSight_keeps. split; reflexivity. Qed.





(** ** A cached pair over frame ends *)







(** X16.  With worker threads, a pair that is asked for once and then
    not again for more than the expiry plus one frame ends is gone from
    the cache: the next [getLineOfSight] for it performs exactly one ray
    test and answers what the world then says. *)
Theorem unqueried_pair_is_recomputed (w w' : btCollisionWorld) (actor1 actor2 : shared_ptr)
    (envs : list Env) (s : PhysicsTaskScheduler) :
  mNumThreads s <> 0 ->
  pairsDistinct s ->
  envs <> [] ->
  mLOSCacheExpiry s + 1 < Z.of_nat (length envs) ->
  let first := getLineOfSight w actor1 actor2 s in
  let second := getLineOfSight w' actor1 actor2 (frameEnds envs (after first)) in
  countCalls call_rayTest (trace second) = 1%nat
  /\ result second = clearLine w' (pointee actor1) (pointee actor2).
Proof.
  intros Hworkers Hnd Hne Hlen. cbv zeta.
  rewrite frameEnds_workers.
  - exact (endOfFrames_recompute w w' actor1 actor2 envs s Hnd Hne Hlen).
  - now rewrite (proj1 (getLineOfSight_threads w actor1 actor2 s)).
Qed.

Lemma unqueried_pair_is_recomputed_witness :
  result (getLineOfSight blockedWorld (actorAt 1 0) (actorAt 2 5) (freshScheduler 4)) = false
  /\ result (getLineOfSight openWorld (actorAt 1 0) (actorAt 2 5)
               (frameEnds (replicate 8 (exampleEnv blockedWorld))
                  (after (getLineOfSight blockedWorld (actorAt 1 0) (actorAt 2 5)
                            (freshScheduler 4))))) = true.
Proof.
  split; [reflexivity|].
  destruct (unqueried_pair_is_recomputed blockedWorld openWorld (actorAt 1 0) (actorAt 2 5)
              (replicate 8 (exampleEnv blockedWorld)) (freshScheduler 4)) as [_ H];
    [discriminate | apply pairsDistinct_new | discriminate | reflexivity |].
  rewrite H. reflexivity.
Defined.

Lemma pairsDistinct_endOfSyncFrame (env : Env) (s : PhysicsTaskScheduler) :
  pairsDistinct s -> pairsDistinct (endOfSyncFrame env s).
Proof.
  unfold pairsDistinct. intros Hnd.
  destruct (endOfSyncFrames_pairs [env] s) as [H _].
  change (endOfSyncFrames [env] s) with (endOfSyncFrame env s) in H. now rewrite H.
Qed.

(** X19.  The cache holds no two requests for the same pair and no stale
    request: this holds after construction and is kept by
    [getLineOfSight]; the end of a frame keeps the first, with or
    without worker threads, and with worker threads it establishes the
    second. *)
Theorem cache_stays_well_formed (getInt : string -> string -> Z) (maxSupportedThreads : Z)
    (physicsDt : Q) (w : btCollisionWorld) (actor1 actor2 : shared_ptr) (env : Env)
    (s : PhysicsTaskScheduler) :
  let wellFormed s :=
    pairsDistinct s /\ Forall (fun req => LOSRequest.mStale req = false) (mLOSCache s) in
  wellFormed (PhysicsTaskScheduler_new getInt maxSupportedThreads physicsDt).1
  /\ (wellFormed s -> wellFormed (after (getLineOfSight w actor1 actor2 s)))
  /\ (pairsDistinct s -> pairsDistinct (frameEnd env s))
  /\ (pairsDistinct s -> mNumThreads s <> 0 -> wellFormed (frameEnd env s)).
Proof.
  cbv zeta. split; [|split; [|split]].
  - split; [apply pairsDistinct_new | constructor].
  - intros [Hnd Hfresh]. split; [now apply pairsDistinct_getLineOfSight|].
    destruct (list_find (fun e => LOSRequest_eq e (LOSRequest_new actor1 actor2))
                        (mLOSCache s)) as [[j e0]|] eqn:E.
    + rewrite (getLineOfSight_hit _ _ _ _ _ _ E). cbn.
      apply list_find_Some in E as (Hj & _ & _).
      apply Forall_insert; [exact Hfresh|]. cbn.
      rewrite Forall_lookup in Hfresh. exact (Hfresh _ _ Hj).
    + rewrite (getLineOfSight_miss _ _ _ _ E). cbn.
      apply Forall_app. split; [exact Hfresh|]. repeat constructor.
  - intros Hnd. unfold frameEnd. destruct (mNumThreads s =? 0).
    + now apply pairsDistinct_endOfSyncFrame.
    + now apply pairsDistinct_endOfFrame.
  - intros Hnd Hworkers. rewrite (frameEnd_workers env s Hworkers).
    split; [now apply pairsDistinct_endOfFrame|].
    destruct (endOfFrame_fresh env s) as [H _].
    eapply Forall_impl; [exact H|]. cbn. tauto.
Qed.
